(** * procd service core: instances, reconciliation and the service registry

    A shallow embedding of [service.c] (with [instance.h]) and of the parts
    of libubox the file calls: blob attributes, the AVL tree keyed by
    strings, the versioned list [vlist] and the process and timer handles
    of [uloop].

    Conventions of the embedding.
    - C objects that are shared through pointers (service instances) live in
      a heap indexed by addresses; [calloc] hands out a fresh address or
      NULL, [free] retires an address, and every access to a retired or
      NULL address is undefined behaviour.
    - Code runs in a state-and-failure monad [M]; [None] stands for
      undefined behaviour (NULL dereference, signed overflow, reading past a
      buffer).
    - Addresses are handed out in increasing order and are not handed out
      again after [free]; every allocation takes its answer (served or
      refused) from the list [oom] of the state.
    - The calls of the four instance operations and the signals sent with
      [kill] are recorded, in order, in the trace of the state.
    - The copies of requests made by [blob_memdup] are not objects of the
      state.  A pointer into such a copy (the configuration of an instance,
      the key of its node) is kept as what can be read through it: [Some]
      of the attribute or string, or [None] when the pointer is NULL or the
      copy it points into has been freed.  [free] of a copy turns the
      pointers into it into [None], and reading through such a pointer is
      undefined behaviour.
    - The name and the key of a service are redirected into its new
      configuration before the old one is freed, so they can always be
      read and are kept by value.
    - A service is reached only through the registry, so the registry holds
      services by value; an update of a registered service is written back
      under its key. *)

From Stdlib Require Import ZArith List String Strings.Byte Bool Lia.
From stdpp Require Import base option list gmap strings.

Open Scope Z_scope.

(** ** Constants of the C environment *)

Definition INT_MAX : Z := 2147483647.
Definition SIGKILL : Z := 9.
Definition SIGTERM : Z := 15.

(** ubus status codes (ubusmsg.h) *)
Definition UBUS_STATUS_OK : Z := 0.
Definition UBUS_STATUS_INVALID_ARGUMENT : Z := 2.
Definition UBUS_STATUS_NOT_FOUND : Z := 4.
Definition UBUS_STATUS_UNKNOWN_ERROR : Z := 9.

(** blobmsg attribute types (blobmsg.h) *)
Definition BLOBMSG_TYPE_UNSPEC : Z := 0.
Definition BLOBMSG_TYPE_ARRAY : Z := 1.
Definition BLOBMSG_TYPE_TABLE : Z := 2.
Definition BLOBMSG_TYPE_STRING : Z := 3.

(** ** Blob attributes (libubox blob.h, blobmsg.h)

    An attribute is a region of memory that the code looks at in several
    ways: as raw bytes ([blob_pad_len], [memcmp]), through its blobmsg
    header ([blobmsg_name], [blobmsg_type]), with its payload read as a C
    string ([blobmsg_data]) and with its payload read as a sequence of
    nested attributes ([blobmsg_for_each_attr], [blobmsg_parse]);
    [blobmsg_check_attr] is the verdict of [blobmsg_check_attr(attr, true)]
    on it. *)

#[warnings="-register-all"] Inductive blob_attr : Type := Blob {
  blob_mem : list byte;
  blobmsg_type : Z;
  blobmsg_name : string;
  blobmsg_data : string;
  blobmsg_attrs : list blob_attr;
  blobmsg_check_attr : bool
}.

Definition BLOB_ATTR_LEN_MASK : Z := 0x00ffffff.
Definition BLOB_ATTR_ALIGN : Z := 4.

Definition byte_val (b : byte) : Z := Z.of_N (Byte.to_N b).

(** [be32_to_cpu] of the four bytes at the start of the attribute. *)
Definition be32_to_cpu (m : list byte) : option Z :=
  match m with
  | b0 :: b1 :: b2 :: b3 :: _ =>
      Some (Z.lor (Z.shiftl (byte_val b0) 24)
           (Z.lor (Z.shiftl (byte_val b1) 16)
           (Z.lor (Z.shiftl (byte_val b2) 8) (byte_val b3))))
  | _ => None
  end.

Definition blob_raw_len (a : blob_attr) : option Z :=
  match be32_to_cpu (blob_mem a) with
  | Some id_len => Some (Z.land id_len BLOB_ATTR_LEN_MASK)
  | None => None
  end.

Definition blob_pad_len (a : blob_attr) : option Z :=
  match blob_raw_len a with
  | Some len =>
      Some (Z.land (len + BLOB_ATTR_ALIGN - 1) (Z.lnot (BLOB_ATTR_ALIGN - 1)))
  | None => None
  end.

(** [memcmp a b n]: the sign of the first difference among the first [n]
    bytes; [None] when a buffer ends before [n] bytes were read. *)
Fixpoint memcmp (a b : list byte) (n : nat) {struct n} : option Z :=
  match n with
  | O => Some 0
  | S n' =>
      match a, b with
      | x :: a', y :: b' =>
          if byte_val x <? byte_val y then Some (-1)
          else if byte_val y <? byte_val x then Some 1
          else memcmp a' b' n'
      | _, _ => None
      end
  end.

(** ** uloop handles (libubox uloop.h)

    The callbacks are function pointers; the only functions this program
    stores in them are [instance_exit] and [instance_timeout]. *)

Inductive process_handler : Type := instance_exit_cb.
Inductive timeout_handler : Type := instance_timeout_cb.

Record uloop_process : Type := UloopProcess {
  proc_pending : bool;
  proc_cb : option process_handler;
  proc_pid : Z
}.

Record uloop_timeout : Type := UloopTimeout {
  timeout_pending : bool;
  timeout_cb : option timeout_handler
}.

(** ** struct service_instance (instance.h)

    [node_version] and [node_key] are [node.version] and [node.avl.key] of
    the embedded [struct vlist_node].  [node_key] and [config] point into
    copies of requests: each holds what can be read through the pointer,
    and [None] when it is NULL or points into a copy that was freed. *)

Record service_instance : Type := ServiceInstance {
  node_version : Z;
  node_key : option string;
  name : option string;
  restart : bool;
  config : option blob_attr;
  proc : uloop_process;
  timeout : uloop_timeout
}.

(** What [calloc(1, sizeof(struct service_instance))] returns. *)
Definition zero_instance : service_instance :=
  {| node_version := 0; node_key := None; name := None; restart := false;
     config := None;
     proc := {| proc_pending := false; proc_cb := None; proc_pid := 0 |};
     timeout := {| timeout_pending := false; timeout_cb := None |} |}.

Definition set_node_version (v : Z) (i : service_instance) :=
  {| node_version := v; node_key := node_key i; name := name i;
     restart := restart i; config := config i; proc := proc i;
     timeout := timeout i |}.
Definition set_node_key (k : option string) (i : service_instance) :=
  {| node_version := node_version i; node_key := k; name := name i;
     restart := restart i; config := config i; proc := proc i;
     timeout := timeout i |}.
Definition set_restart (b : bool) (i : service_instance) :=
  {| node_version := node_version i; node_key := node_key i; name := name i;
     restart := b; config := config i; proc := proc i;
     timeout := timeout i |}.
Definition set_config (c : option blob_attr) (i : service_instance) :=
  {| node_version := node_version i; node_key := node_key i; name := name i;
     restart := restart i; config := c; proc := proc i;
     timeout := timeout i |}.
Definition set_proc (p : uloop_process) (i : service_instance) :=
  {| node_version := node_version i; node_key := node_key i; name := name i;
     restart := restart i; config := config i; proc := p;
     timeout := timeout i |}.
Definition set_timeout (t : uloop_timeout) (i : service_instance) :=
  {| node_version := node_version i; node_key := node_key i; name := name i;
     restart := restart i; config := config i; proc := proc i;
     timeout := t |}.

(** ** AVL trees keyed by C strings (libubox avl.h, avl-cmp.h)

    A tree is the sequence of its (key, element) pairs in key order; the
    trees of this program are created with [allow_dups = false].  In the
    tree of instances of a service the first component is the name under
    which the node was linked, that is what its key read at that time;
    whether the key can still be read is [node_key] of the node. *)

Definition avl_strcmp (k1 k2 : string) : Z :=
  match String.compare k1 k2 with
  | Eq => 0
  | Lt => -1
  | Gt => 1
  end.

Section Avl.
Context {V : Type}.

Fixpoint avl_find (t : list (string * V)) (key : string) : option V :=
  match t with
  | [] => None
  | (k, v) :: t' => if avl_strcmp key k =? 0 then Some v else avl_find t' key
  end.

(** [avl_insert] answers -1 and leaves the tree as it is when the key is
    already there; every caller drops the answer. *)
Fixpoint avl_insert (t : list (string * V)) (key : string) (v : V)
  : list (string * V) :=
  match t with
  | [] => [(key, v)]
  | (k, v') :: t' =>
      if avl_strcmp key k =? 0 then t
      else if avl_strcmp key k <? 0 then (key, v) :: t
      else (k, v') :: avl_insert t' key v
  end.

(** Unlinking the node that carries [key]. *)
Fixpoint avl_delete (t : list (string * V)) (key : string)
  : list (string * V) :=
  match t with
  | [] => []
  | (k, v) :: t' =>
      if avl_strcmp key k =? 0 then t' else (k, v) :: avl_delete t' key
  end.

(** Writing through the pointer to an element that stays linked. *)
Fixpoint avl_store (t : list (string * V)) (key : string) (v : V)
  : list (string * V) :=
  match t with
  | [] => []
  | (k, v') :: t' =>
      if avl_strcmp key k =? 0 then (k, v) :: t'
      else (k, v') :: avl_store t' key v
  end.
End Avl.

(** ** struct vlist_tree (libubox vlist.h) and struct service (service.h) *)

Record vlist_tree : Type := VlistTree {
  avl : list (string * positive);
  version : Z;
  keep_old : bool;
  no_delete : bool
}.

Record service : Type := Service {
  svc_name : option string;
  svc_config : option blob_attr;
  instances : vlist_tree
}.

(** ** The state of the program

    The heap of instances with the next free address, the answers of the
    allocator, the trace, and the global tree [services]. *)

Inductive event : Type :=
| CallStart (i : positive)
| CallStop (i : positive) (restart_arg : bool)
| CallUpdate (i i_new : positive)
| CallFree (i : positive)
| SysKill (pid sig : Z).

#[global] Instance event_eq_dec : EqDecision event.
Proof. solve_decision. Defined.

Record world : Type := World {
  heap : gmap positive service_instance;
  brk : positive;
  oom : list bool;
  trace : list event;
  services : list (string * service)
}.

Definition set_heap (h : gmap positive service_instance) (w : world) :=
  {| heap := h; brk := brk w; oom := oom w; trace := trace w;
     services := services w |}.
Definition set_trace (t : list event) (w : world) :=
  {| heap := heap w; brk := brk w; oom := oom w; trace := t;
     services := services w |}.
Definition set_services (s : list (string * service)) (w : world) :=
  {| heap := heap w; brk := brk w; oom := oom w; trace := trace w;
     services := s |}.

(** ** The monad *)

Definition M (A : Type) : Type := world -> option (A * world).

Definition ret {A} (a : A) : M A := fun w => Some (a, w).
Definition bind {A B} (m : M A) (k : A -> M B) : M B :=
  fun w => match m w with
           | Some (a, w') => k a w'
           | None => None
           end.
Definition undefined {A} : M A := fun _ => None.

Declare Scope proc_scope.
Delimit Scope proc_scope with proc.
Notation "x <- m ;; k" := (bind m (fun x => k))
  (at level 100, m at next level, right associativity) : proc_scope.
Notation "m ;; k" := (bind m (fun _ => k))
  (at level 100, right associativity) : proc_scope.
Open Scope proc_scope.

Definition emit (e : event) : M unit :=
  fun w => Some (tt, set_trace (trace w ++ [e]) w).

Definition load (p : positive) : M service_instance :=
  fun w => match heap w !! p with
           | Some i => Some (i, w)
           | None => None
           end.

Definition store (p : positive) (f : service_instance -> service_instance)
  : M unit :=
  fun w => match heap w !! p with
           | Some i => Some (tt, set_heap (<[p := f i]> (heap w)) w)
           | None => None
           end.

(** The allocator answers each request from [oom]: [true] is a refusal
    (NULL); once the list is used up every request is served. *)
Definition out_of_memory : M bool :=
  fun w => match oom w with
           | b :: rest =>
               Some (b, {| heap := heap w; brk := brk w; oom := rest;
                           trace := trace w; services := services w |})
           | [] => Some (false, w)
           end.

Definition calloc_instance : M (option positive) :=
  failed <- out_of_memory ;;
  if (failed : bool) then ret None
  else fun w =>
         Some (Some (brk w),
               {| heap := <[brk w := zero_instance]> (heap w);
                  brk := Pos.succ (brk w); oom := oom w;
                  trace := trace w; services := services w |}).

Definition free (p : positive) : M unit :=
  fun w => match heap w !! p with
           | Some _ => Some (tt, set_heap (delete p (heap w)) w)
           | None => None
           end.

Definition kill (pid sig : Z) : M unit := emit (SysKill pid sig).

Definition uloop_process_delete (p : positive) : M unit :=
  store p (fun i =>
    if proc_pending (proc i)
    then set_proc {| proc_pending := false; proc_cb := proc_cb (proc i);
                     proc_pid := proc_pid (proc i) |} i
    else i).

Definition uloop_timeout_cancel (p : positive) : M unit :=
  store p (fun i =>
    if timeout_pending (timeout i)
    then set_timeout {| timeout_pending := false;
                        timeout_cb := timeout_cb (timeout i) |} i
    else i).

(** ** service.c: the instance operations *)

Definition start_instance (i : positive) : M unit :=
  emit (CallStart i) ;;
  store i (set_restart false).

(** [instance_exit(p, ret)]; [i] is the instance that contains [p]. *)
Definition instance_exit (i : positive) (ret_code : Z) : M unit :=
  uloop_timeout_cancel i ;;
  inst <- load i ;;
  if restart inst then start_instance i else ret tt.

(** Calling through [in->proc.cb]. *)
Definition call_proc_cb (cb : option process_handler) (i : positive)
  (ret_code : Z) : M unit :=
  match cb with
  | Some instance_exit_cb => instance_exit i ret_code
  | None => undefined
  end.

(** [instance_timeout(t)]; [i] is the instance that contains [t]. *)
Definition instance_timeout (i : positive) : M unit :=
  inst <- load i ;;
  kill (proc_pid (proc inst)) SIGKILL ;;
  uloop_process_delete i ;;
  inst <- load i ;;
  call_proc_cb (proc_cb (proc inst)) i (-1).

Definition call_timeout_cb (cb : option timeout_handler) (i : positive)
  : M unit :=
  match cb with
  | Some instance_timeout_cb => instance_timeout i
  | None => ret tt
  end.

Definition stop_instance (i : positive) (restart_arg : bool) : M unit :=
  emit (CallStop i restart_arg) ;;
  inst <- load i ;;
  if negb (proc_pending (proc inst)) then ret tt
  else kill (proc_pid (proc inst)) SIGTERM.

Definition deref {A} (o : option A) : M A :=
  match o with
  | Some a => ret a
  | None => undefined
  end.

Definition instance_config_changed (i i_new : positive) : M bool :=
  inst <- load i ;;
  inst_new <- load i_new ;;
  c <- deref (config inst) ;;
  c_new <- deref (config inst_new) ;;
  len <- deref (blob_pad_len c) ;;
  len_new <- deref (blob_pad_len c_new) ;;
  if negb (len =? len_new) then ret true
  else
    r <- deref (memcmp (blob_mem c) (blob_mem c_new) (Z.to_nat len)) ;;
    if negb (r =? 0) then ret true else ret false.

Definition update_instance (i i_new : positive) : M bool :=
  emit (CallUpdate i i_new) ;;
  changed <- instance_config_changed i i_new ;;
  inst_new <- load i_new ;;
  store i (set_config (config inst_new)) ;;
  if negb changed then ret false
  else stop_instance i true ;; ret true.

Definition free_instance (i : positive) : M unit :=
  emit (CallFree i) ;;
  uloop_process_delete i ;;
  uloop_timeout_cancel i ;;
  free i.

Definition init_instance (i : positive) (cfg : blob_attr) : M unit :=
  store i (set_config (Some cfg)) ;;
  store i (fun inst =>
    set_timeout {| timeout_pending := timeout_pending (timeout inst);
                   timeout_cb := Some instance_timeout_cb |} inst) ;;
  store i (fun inst =>
    set_proc {| proc_pending := proc_pending (proc inst);
                proc_cb := Some instance_exit_cb;
                proc_pid := proc_pid (proc inst) |} inst).

Definition service_instance_update (tree : vlist_tree)
  (node_new node_old : option positive) : M unit :=
  match node_old, node_new with
  | Some in_o, Some in_n => update_instance in_o in_n ;; free_instance in_n
  | Some in_o, None => stop_instance in_o false ;; free_instance in_o
  | None, Some in_n => start_instance in_n
  | None, None => ret tt
  end.

(** ** vlist (libubox vlist.c, vlist.h)

    The library is generic in the [update] callback of the tree. *)

Definition set_avl (a : list (string * positive)) (t : vlist_tree) :=
  {| avl := a; version := version t; keep_old := keep_old t;
     no_delete := no_delete t |}.
Definition set_version (v : Z) (t : vlist_tree) :=
  {| avl := avl t; version := v; keep_old := keep_old t;
     no_delete := no_delete t |}.
Definition set_keep_old (b : bool) (t : vlist_tree) :=
  {| avl := avl t; version := version t; keep_old := b;
     no_delete := no_delete t |}.

(** A loop over a sequence that threads the loop-carried value [s]. *)
Fixpoint for_each {A S : Type} (l : list A) (body : S -> A -> M S) (s : S)
  : M S :=
  match l with
  | [] => ret s
  | x :: l' => s' <- body s x ;; for_each l' body s'
  end.

Section Vlist.
Variable update : vlist_tree -> option positive -> option positive -> M unit.

(** [vlist_init] on zeroed memory. *)
Definition vlist_init : vlist_tree :=
  {| avl := []; version := 1; keep_old := false; no_delete := false |}.

(** [tree->version++] on an [int]. *)
Definition vlist_update (tree : vlist_tree) : M vlist_tree :=
  if version tree <? INT_MAX then ret (set_version (version tree + 1) tree)
  else undefined.

Definition vlist_delete (tree : vlist_tree) (key : string) (node : positive)
  : M vlist_tree :=
  let tree' :=
    if no_delete tree then tree
    else set_avl (avl_delete (avl tree) key) tree in
  update tree' None (Some node) ;;
  ret tree'.

(** The comparison that ends a successful [avl_find] reads the key of the
    node it finds.  The search reads the keys of the nodes above that node
    as well; which these are depends on the shape of the tree, which the
    sequence does not keep.  So of the reads of a lookup the embedding has
    the one that every search for a linked name makes: it is undefined only
    where the code is, and a statement that a lookup returns assumes that
    every key of the tree can be read. *)
Definition avl_key (node : positive) : M string :=
  n <- load node ;;
  deref (node_key n).

Definition vlist_add (tree : vlist_tree) (node : positive) (key : string)
  : M vlist_tree :=
  store node (set_node_key (Some key)) ;;
  store node (set_node_version (version tree)) ;;
  match avl_find (avl tree) key with
  | Some old_node =>
      avl_key old_node ;;
      if keep_old tree || no_delete tree then
        store old_node (set_node_version (version tree)) ;;
        update tree (Some node) (Some old_node) ;;
        ret tree
      else
        let tree' :=
          set_avl (avl_insert (avl_delete (avl tree) key) key node) tree in
        update tree' (Some node) (Some old_node) ;;
        ret tree'
  | None =>
      let tree' := set_avl (avl_insert (avl tree) key node) tree in
      update tree' (Some node) None ;;
      ret tree'
  end.

Definition vlist_flush (tree : vlist_tree) : M vlist_tree :=
  for_each (avl tree)
    (fun t '(key, node) =>
       n <- load node ;;
       if ((node_version n =? version t) || (node_version n =? -1))
          && negb (version t =? -1)
       then ret t
       else vlist_delete t key node)
    tree.

Definition vlist_flush_all (tree : vlist_tree) : M vlist_tree :=
  vlist_flush (set_version (-1) tree).
End Vlist.

(** ** blobmsg_parse (libubox blobmsg.c)

    The attributes are visited in order.  An attribute that has the type
    and the name length of a policy entry is checked with
    [blobmsg_check_attr]; when the check fails the parse returns at once
    (with -1, which the callers in [service.c] ignore) and the slots stay
    as they are.  Otherwise each empty slot whose policy the attribute
    matches in type and name receives it. *)

Record blobmsg_policy : Type := Policy {
  policy_name : string;
  policy_type : Z
}.

(** The tests before the check: the type and the length of the name. *)
Definition policy_reach (pol : blobmsg_policy) (attr : blob_attr) : bool :=
  ((policy_type pol =? BLOBMSG_TYPE_UNSPEC)
   || (blobmsg_type attr =? policy_type pol))
  && Nat.eqb (String.length (blobmsg_name attr))
             (String.length (policy_name pol)).

Definition policy_match (pol : blobmsg_policy) (attr : blob_attr) : bool :=
  ((policy_type pol =? BLOBMSG_TYPE_UNSPEC)
   || (blobmsg_type attr =? policy_type pol))
  && String.eqb (policy_name pol) (blobmsg_name attr).

Fixpoint blobmsg_parse_from (policy : list blobmsg_policy)
  (attrs : list blob_attr) (tb : list (option blob_attr))
  : list (option blob_attr) :=
  match attrs with
  | [] => tb
  | attr :: rest =>
      if existsb (fun pol => policy_reach pol attr) policy
         && negb (blobmsg_check_attr attr)
      then tb
      else
        blobmsg_parse_from policy rest
          (zip_with
             (fun pol slot =>
                match slot with
                | Some _ => slot
                | None => if policy_match pol attr then Some attr else None
                end)
             policy tb)
  end.

Definition blobmsg_parse (policy : list blobmsg_policy)
  (attrs : list blob_attr) : list (option blob_attr) :=
  blobmsg_parse_from policy attrs (map (fun _ => None) policy).

(** The attributes that [blobmsg_parse] visits before it returns. *)
Fixpoint blobmsg_parsed (policy : list blobmsg_policy)
  (attrs : list blob_attr) : list blob_attr :=
  match attrs with
  | [] => []
  | attr :: rest =>
      if existsb (fun pol => policy_reach pol attr) policy
         && negb (blobmsg_check_attr attr)
      then []
      else attr :: blobmsg_parsed policy rest
  end.

Definition tb_at (tb : list (option blob_attr)) (i : nat) : option blob_attr :=
  match tb !! i with
  | Some slot => slot
  | None => None
  end.

(** ** service.c: services *)

Definition set_instances (t : vlist_tree) (s : service) :=
  {| svc_name := svc_name s; svc_config := svc_config s; instances := t |}.

Definition service_instance_add (tree : vlist_tree) (attr : blob_attr)
  : M vlist_tree :=
  let name := blobmsg_name attr in
  if negb (blobmsg_type attr =? BLOBMSG_TYPE_TABLE) then ret tree
  else
    i <- calloc_instance ;;
    match i with
    | None => ret tree
    | Some i =>
        init_instance i attr ;;
        vlist_add service_instance_update tree i name
    end.

(** [calloc] of the service followed by [vlist_init] through the result:
    a refused allocation is a NULL dereference. *)
Definition service_alloc (name : string) : M (option service) :=
  failed <- out_of_memory ;;
  if (failed : bool) then undefined
  else
    ret (Some {| svc_name := None; svc_config := None;
                 instances := set_keep_old true vlist_init |}).

Definition SERVICE_ATTR_NAME : nat := 0.
Definition SERVICE_ATTR_SCRIPT : nat := 1.
Definition SERVICE_ATTR_INSTANCES : nat := 2.

Definition service_attrs : list blobmsg_policy :=
  [ {| policy_name := "name"; policy_type := BLOBMSG_TYPE_STRING |};
    {| policy_name := "script"; policy_type := BLOBMSG_TYPE_STRING |};
    {| policy_name := "instances"; policy_type := BLOBMSG_TYPE_TABLE |} ].

(** [free(old_config)] at the end of [service_update].

    The old configuration is the copy of the request that configured the
    service before.  The pointers into it are those of the instances that
    were linked before this call: their keys ([vlist_add] leaves the key of
    a kept node as it is) and, unless [update_instance] [replaced] them in
    this call, their configurations.  An instance linked during this call
    points into the new copy only.  [free(NULL)] does nothing. *)
Definition leave_dangling (replaced : bool) (inst : service_instance)
  : service_instance :=
  set_node_key None (if replaced then inst else set_config None inst).

(** The heap once the pointers of the [nodes] that were linked before the
    call dangle. *)
Definition dangle (replaced : bool) (linked_before nodes : list positive)
  (h : gmap positive service_instance) : gmap positive service_instance :=
  foldr (fun node h =>
           if bool_decide (node ∈ linked_before)
           then alter (leave_dangling replaced) node h
           else h)
    h nodes.

(** The test of a pointer against NULL. *)
Definition present {A} (o : option A) : bool :=
  match o with
  | Some _ => true
  | None => false
  end.

(** The state after [free(old_config)]: of the nodes of [tree], the tree
    the service is left with, those that were [linked_before] the call
    lose what they point to in the old configuration.  The call itself
    reads nothing and cannot fail. *)
Definition freed (old_config : option blob_attr)
  (linked_before : list positive) (replaced : bool) (tree : vlist_tree)
  (w : world) : world :=
  match old_config with
  | None => w
  | Some _ =>
      set_heap (dangle replaced linked_before (map snd (avl tree)) (heap w)) w
  end.

Definition free_config (old_config : option blob_attr)
  (linked_before : list positive) (replaced : bool) (tree : vlist_tree)
  : M unit :=
  fun w => Some (tt, freed old_config linked_before replaced tree w).

Definition service_update (s : service) (cfg : blob_attr)
  (tb : list (option blob_attr)) : M (Z * service) :=
  let old_config := svc_config s in
  cur_name <- deref (tb_at tb SERVICE_ATTR_NAME) ;;
  let s1 := {| svc_name := Some (blobmsg_data cur_name);
               svc_config := Some cfg; instances := instances s |} in
  s2 <- match tb_at tb SERVICE_ATTR_INSTANCES with
        | Some tbl =>
            t1 <- vlist_update (instances s1) ;;
            t2 <- for_each (blobmsg_attrs tbl) service_instance_add t1 ;;
            t3 <- vlist_flush service_instance_update t2 ;;
            ret (set_instances t3 s1)
        | None => ret s1
        end ;;
  free_config old_config (map snd (avl (instances s)))
    (present (tb_at tb SERVICE_ATTR_INSTANCES)) (instances s2) ;;
  ret (0, s2).

(** The three calls that [service_update] makes on the tree of instances
    when the request has an instances table, under one name. *)
Definition reconcile (t : vlist_tree) (attrs : list blob_attr)
  : M vlist_tree :=
  t1 <- vlist_update t ;;
  t2 <- for_each attrs service_instance_add t1 ;;
  vlist_flush service_instance_update t2.

Definition get_services : M (list (string * service)) :=
  fun w => Some (services w, w).
Definition put_services (l : list (string * service)) : M unit :=
  fun w => Some (tt, set_services l w).

(** [key] is [s->avl.key].  [free(s->config)] and [free(s)] end the
    function: the instances whose pointers went into the configuration
    were freed by the flush before, and the service leaves the registry,
    so no pointer into the copy remains in the state. *)
Definition service_delete (key : string) (s : service) : M unit :=
  vlist_flush_all service_instance_update (instances s) ;;
  svcs <- get_services ;;
  put_services (avl_delete svcs key).

Definition service_handle_set (msg : blob_attr) : M Z :=
  failed <- out_of_memory ;;
  if (failed : bool) then ret UBUS_STATUS_UNKNOWN_ERROR
  else
    let tb := blobmsg_parse service_attrs (blobmsg_attrs msg) in
    match tb_at tb SERVICE_ATTR_NAME with
    | None => ret UBUS_STATUS_INVALID_ARGUMENT
    | Some cur =>
        let name := blobmsg_data cur in
        svcs <- get_services ;;
        match avl_find svcs name with
        | Some s =>
            r <- service_update s msg tb ;;
            svcs <- get_services ;;
            put_services (avl_store svcs name (snd r)) ;;
            ret (fst r)
        | None =>
            s <- service_alloc name ;;
            match s with
            | None => ret UBUS_STATUS_UNKNOWN_ERROR
            | Some s =>
                r <- service_update s msg tb ;;
                if negb (fst r =? 0) then ret (fst r)
                else
                  svcs <- get_services ;;
                  put_services (avl_insert svcs name (snd r)) ;;
                  ret 0
            end
        end
    end.

(** The reply carries one empty table per service, named [s->name]; a NULL
    name is written as the empty string by [blobmsg_open_table]. *)
Definition service_handle_list : M (Z * list string) :=
  svcs <- get_services ;;
  ret (0, map (fun e => default EmptyString (svc_name (snd e))) svcs).

Definition SERVICE_DEL_NAME : nat := 0.

Definition service_del_attrs : list blobmsg_policy :=
  [ {| policy_name := "name"; policy_type := BLOBMSG_TYPE_STRING |} ].

Definition service_handle_delete (msg : blob_attr) : M Z :=
  let tb := blobmsg_parse service_del_attrs (blobmsg_attrs msg) in
  match tb_at tb SERVICE_ATTR_NAME with
  | None =>
      svcs <- get_services ;;
      for_each svcs (fun _ e => service_delete (fst e) (snd e)) tt ;;
      ret 0
  | Some cur =>
      svcs <- get_services ;;
      match avl_find svcs (blobmsg_data cur) with
      | None => ret UBUS_STATUS_NOT_FOUND
      | Some s => service_delete (blobmsg_data cur) s ;; ret 0
      end
  end.

(** [procd_init_service]: the registry starts empty. *)
Definition procd_init_service (answers : list bool) : world :=
  {| heap := ∅; brk := 1%positive; oom := answers; trace := [];
     services := [] |}.

(** ** The reactor (libubox uloop.c)

    [uloop_handle_processes] unlinks a watched process that has exited and
    calls its callback; [uloop_process_timeouts] cancels a timer that is due
    and calls its callback when there is one. *)

Definition uloop_handle_process (i : positive) (ret_code : Z) : M unit :=
  uloop_process_delete i ;;
  inst <- load i ;;
  call_proc_cb (proc_cb (proc inst)) i ret_code.

Definition uloop_process_timeout (i : positive) : M unit :=
  uloop_timeout_cancel i ;;
  inst <- load i ;;
  call_timeout_cb (timeout_cb (timeout inst)) i.

Definition process_watched (w : world) (i : positive) : bool :=
  match heap w !! i with
  | Some inst => proc_pending (proc inst)
  | None => false
  end.

Definition timer_armed (w : world) (i : positive) : bool :=
  match heap w !! i with
  | Some inst => timeout_pending (timeout inst)
  | None => false
  end.

Inductive input : Type :=
| RpcSet (msg : blob_attr)
| RpcList
| RpcDelete (msg : blob_attr)
| ProcessExit (i : positive) (ret_code : Z)
| TimerExpiry (i : positive).

(** One turn of the event loop: a request is handled, or a notification
    is delivered for a handle that is still registered. *)
Inductive step : world -> input -> world -> Prop :=
| step_set w msg r w' :
    service_handle_set msg w = Some (r, w') -> step w (RpcSet msg) w'
| step_list w r w' :
    service_handle_list w = Some (r, w') -> step w RpcList w'
| step_delete w msg r w' :
    service_handle_delete msg w = Some (r, w') -> step w (RpcDelete msg) w'
| step_exit w i ret_code w' :
    process_watched w i = true ->
    uloop_handle_process i ret_code w = Some (tt, w') ->
    step w (ProcessExit i ret_code) w'
| step_timer w i w' :
    timer_armed w i = true ->
    uloop_process_timeout i w = Some (tt, w') ->
    step w (TimerExpiry i) w'.

Inductive reachable : world -> Prop :=
| reachable_init answers : reachable (procd_init_service answers)
| reachable_step w e w' : reachable w -> step w e w' -> reachable w'.

(** ** Serialized configurations

    The bytes of an attribute are its padded extent; an attribute is valid
    when its buffer holds them. *)

Definition blob_valid (a : blob_attr) : bool :=
  match blob_pad_len a with
  | Some n => (Z.to_nat n <=? List.length (blob_mem a))%nat
  | None => false
  end.

Definition blob_image (a : blob_attr) : list byte :=
  match blob_pad_len a with
  | Some n => take (Z.to_nat n) (blob_mem a)
  | None => []
  end.

(** The instance once its process is gone: nothing watched, nothing armed,
    no restart pending. *)
Definition settled (inst : service_instance) : service_instance :=
  {| node_version := node_version inst; node_key := node_key inst;
     name := name inst; restart := false; config := config inst;
     proc := {| proc_pending := false; proc_cb := proc_cb (proc inst);
                proc_pid := proc_pid (proc inst) |};
     timeout := {| timeout_pending := false;
                   timeout_cb := timeout_cb (timeout inst) |} |}.

Definition starts_of (i : positive) (tr : list event) : nat :=
  List.length (filter (fun e => e = CallStart i) tr).

(** ** Well-formed states and the vocabulary of the statements *)

(** Every coming allocation is served. *)
Definition no_oom (w : world) : Prop := Forall (fun b => b = false) (oom w).

(** Addresses in use lie below the next address to be handed out. *)
Definition heap_ok (w : world) : Prop :=
  forall i, is_Some (heap w !! i) -> (i < brk w)%positive.

Definition config_ok (inst : service_instance) : Prop :=
  match config inst with
  | Some c => blob_valid c = true
  | None => False
  end.

(** A tree of instances as [service_alloc] and [service_update] leave it:
    distinct keys, distinct live nodes whose version is between 1 and the
    version of the tree, each with a valid configuration. *)
Definition tree_ok (w : world) (t : vlist_tree) : Prop :=
  NoDup (map fst (avl t)) /\
  NoDup (map snd (avl t)) /\
  1 <= version t /\
  keep_old t = true /\
  no_delete t = false /\
  forall k i, (k, i) ∈ avl t ->
    exists inst, heap w !! i = Some inst /\
                 1 <= node_version inst <= version t /\
                 config_ok inst.

(** Every key of the tree can be read: none points into a request copy
    that was freed. *)
Definition keys_ok (w : world) (t : vlist_tree) : Prop :=
  forall k i inst, (k, i) ∈ avl t -> heap w !! i = Some inst ->
    node_key inst <> None.

(** The instance names a service tracks, and the names a table of
    instances submits (entries that are not tables are skipped). *)
Definition tracked (t : vlist_tree) : list string := map fst (avl t).

Definition submitted (attrs : list blob_attr) : list string :=
  map blobmsg_name
    (List.filter (fun a => blobmsg_type a =? BLOBMSG_TYPE_TABLE) attrs).

(** [a] occurs in the trace and [b] occurs later. *)
Definition followed_by (a b : event) (tr : list event) : Prop :=
  exists l1 l2 l3, tr = l1 ++ a :: l2 ++ b :: l3.

(** The instance that [service_instance_add] links for a new name. *)
Definition new_instance (v : Z) (cfg : blob_attr) : service_instance :=
  {| node_version := v; node_key := Some (blobmsg_name cfg); name := None;
     restart := false; config := Some cfg;
     proc := {| proc_pending := false; proc_cb := Some instance_exit_cb;
                proc_pid := 0 |};
     timeout := {| timeout_pending := false;
                   timeout_cb := Some instance_timeout_cb |} |}.

(** The test of [vlist_flush] on the node at address [i]. *)
Definition keeps (h : gmap positive service_instance) (v : Z) (i : positive)
  : bool :=
  match h !! i with
  | Some n =>
      ((node_version n =? v) || (node_version n =? -1)) && negb (v =? -1)
  | None => false
  end.

(** The state of a reconciliation of the tree [t0] (already at its new
    version) in the state [w0], once the entries [done] have been added:
    [w] and [t] are the current state and tree, [ev] the events so far. *)
Record adding (w0 : world) (t0 : vlist_tree) (done : list blob_attr)
  (w : world) (t : vlist_tree) (ev : list event) : Prop := Adding {
  ad_version : version t = version t0;
  ad_pos : 1 <= version t0;
  ad_keep : keep_old t = true;
  ad_nodel : no_delete t = false;
  ad_keys : NoDup (map fst (avl t));
  ad_ptrs : NoDup (map snd (avl t));
  ad_heap : heap_ok w;
  ad_brk : (brk w0 <= brk w)%positive;
  ad_oom : no_oom w;
  ad_svcs : services w = services w0;
  ad_trace : trace w = trace w0 ++ ev;
  ad_frame : forall i, i ∉ map snd (avl t0) -> (i < brk w0)%positive ->
             heap w !! i = heap w0 !! i;
  ad_old : forall k i, (k, i) ∈ avl t0 -> (k, i) ∈ avl t;
  ad_sub : forall k, k ∈ submitted done -> k ∈ map fst (avl t);
  ad_live : forall k i, (k, i) ∈ avl t ->
            exists inst, heap w !! i = Some inst /\ config_ok inst /\
              1 <= node_version inst <= version t /\
              (k ∈ submitted done -> node_version inst = version t) /\
              (k ∉ submitted done -> node_version inst < version t);
  ad_kept : forall k i, (k, i) ∈ avl t0 ->
            exists inst0 inst, heap w0 !! i = Some inst0 /\
              heap w !! i = Some inst /\
              proc inst = proc inst0 /\ timeout inst = timeout inst0 /\
              restart inst = restart inst0 /\
              (k ∈ submitted done ->
               exists q, followed_by (CallUpdate i q) (CallFree q) ev);
  ad_freed : forall q, CallFree q ∈ ev ->
             (brk w0 <= q < brk w)%positive /\ heap w !! q = None;
  ad_new : forall k i, (k, i) ∈ avl t -> k ∉ map fst (avl t0) ->
           (brk w0 <= i)%positive /\ CallStart i ∈ ev;
  ad_key : forall k i inst, (k, i) ∈ avl t -> heap w !! i = Some inst ->
           node_key inst = Some k \/
           exists inst0, (k, i) ∈ avl t0 /\ heap w0 !! i = Some inst0 /\
                         node_key inst = node_key inst0;
  ad_same_key : forall k i inst0 inst, (k, i) ∈ avl t0 ->
                heap w0 !! i = Some inst0 -> heap w !! i = Some inst ->
                node_key inst = node_key inst0
}.

(** The addresses of the instances of all registered services. *)
Definition all_nodes (svcs : list (string * service)) : list positive :=
  concat (map (fun e => map snd (avl (instances (snd e)))) svcs).

(** A registry as the handlers leave it: distinct service names, no
    instance shared between two services, every tree well formed. *)
Definition registry_ok (w : world) : Prop :=
  heap_ok w /\
  NoDup (map fst (services w)) /\
  NoDup (all_nodes (services w)) /\
  forall k s, (k, s) ∈ services w -> tree_ok w (instances s).

(** No instance has its restart flag set. *)
Definition restart_clear (w : world) : Prop :=
  forall i inst, heap w !! i = Some inst -> restart inst = false.

(** A computation that cannot set a restart flag. *)
Definition preserves {A} (m : M A) : Prop :=
  forall w a w', restart_clear w -> m w = Some (a, w') -> restart_clear w'.

(** The body of the loop of [vlist_flush] on a tree of instances. *)
Abbreviation flush_body :=
  (fun t '(key, node) =>
     n <- load node ;;
     if ((node_version n =? version t) || (node_version n =? -1))
        && negb (version t =? -1)
     then ret t
     else vlist_delete service_instance_update t key node) (only parsing).

(** A set request whose instance entries are valid attributes, and a
    registry none of whose trees is at the last version. *)
Definition request_ok (msg : blob_attr) : Prop :=
  forall tbl a,
    tb_at (blobmsg_parse service_attrs (blobmsg_attrs msg))
      SERVICE_ATTR_INSTANCES = Some tbl ->
    a ∈ blobmsg_attrs tbl ->
    blobmsg_type a = BLOBMSG_TYPE_TABLE -> blob_valid a = true.

Definition versions_below (w : world) : Prop :=
  forall k s, (k, s) ∈ services w -> version (instances s) < INT_MAX.

(** Two states with the same registry and allocator in which the same
    addresses are live, with the same node version and configuration. *)
Definition same_shape (w w' : world) : Prop :=
  brk w' = brk w /\ services w' = services w /\ oom w' = oom w /\
  forall i,
    match heap w !! i, heap w' !! i with
    | Some a, Some b => node_version b = node_version a /\ config b = config a
    | None, None => True
    | _, _ => False
    end.

(** A computation that keeps the shape of the state. *)
Definition keeps_shape {A} (m : M A) : Prop :=
  forall w a w', m w = Some (a, w') -> same_shape w w'.

(** ** Sample data

    Requests as they lie in memory (blobmsg encoding): an attribute starts
    with its big-endian id and length word, followed by the length of its
    name, the name and the payload, each padded to four bytes.

    [msg_set_v1] is [{ name: "net", instances: { main: {}, aux: {} } }],
    [msg_set_v2] is
    [{ name: "net", instances: { main: { cmd: "b" }, lan: {}, bad: "x" } }]. *)

Definition attr_cmd_b : blob_attr :=
  {| blob_mem :=
       [x83; x00; x00; x0e; x00; x03; x63; x6d; x64; x00; x00; x00; x62;
        x00; x00; x00];
     blobmsg_type := BLOBMSG_TYPE_STRING; blobmsg_name := "cmd";
     blobmsg_data := "b"; blobmsg_attrs := [];
     blobmsg_check_attr := true |}.

Definition cfg_main_empty : blob_attr :=
  {| blob_mem :=
       [x82; x00; x00; x0c; x00; x04; x6d; x61; x69; x6e; x00; x00];
     blobmsg_type := BLOBMSG_TYPE_TABLE; blobmsg_name := "main";
     blobmsg_data := ""; blobmsg_attrs := [];
     blobmsg_check_attr := true |}.

Definition cfg_main_cmd_b : blob_attr :=
  {| blob_mem :=
       [x82; x00; x00; x1c; x00; x04; x6d; x61; x69; x6e; x00; x00; x83;
        x00; x00; x0e; x00; x03; x63; x6d; x64; x00; x00; x00; x62; x00;
        x00; x00];
     blobmsg_type := BLOBMSG_TYPE_TABLE; blobmsg_name := "main";
     blobmsg_data := ""; blobmsg_attrs := [attr_cmd_b];
     blobmsg_check_attr := true |}.

Definition cfg_aux : blob_attr :=
  {| blob_mem :=
       [x82; x00; x00; x0c; x00; x03; x61; x75; x78; x00; x00; x00];
     blobmsg_type := BLOBMSG_TYPE_TABLE; blobmsg_name := "aux";
     blobmsg_data := ""; blobmsg_attrs := [];
     blobmsg_check_attr := true |}.

Definition cfg_lan : blob_attr :=
  {| blob_mem :=
       [x82; x00; x00; x0c; x00; x03; x6c; x61; x6e; x00; x00; x00];
     blobmsg_type := BLOBMSG_TYPE_TABLE; blobmsg_name := "lan";
     blobmsg_data := ""; blobmsg_attrs := [];
     blobmsg_check_attr := true |}.

Definition attr_bad : blob_attr :=
  {| blob_mem :=
       [x83; x00; x00; x0e; x00; x03; x62; x61; x64; x00; x00; x00; x78;
        x00; x00; x00];
     blobmsg_type := BLOBMSG_TYPE_STRING; blobmsg_name := "bad";
     blobmsg_data := "x"; blobmsg_attrs := [];
     blobmsg_check_attr := true |}.

Definition tbl_v1 : blob_attr :=
  {| blob_mem :=
       [x82; x00; x00; x28; x00; x09; x69; x6e; x73; x74; x61; x6e; x63;
        x65; x73; x00; x82; x00; x00; x0c; x00; x04; x6d; x61; x69; x6e;
        x00; x00; x82; x00; x00; x0c; x00; x03; x61; x75; x78; x00; x00; x00];
     blobmsg_type := BLOBMSG_TYPE_TABLE; blobmsg_name := "instances";
     blobmsg_data := ""; blobmsg_attrs := [cfg_main_empty; cfg_aux];
     blobmsg_check_attr := true |}.

Definition tbl_v2 : blob_attr :=
  {| blob_mem :=
       [x82; x00; x00; x48; x00; x09; x69; x6e; x73; x74; x61; x6e; x63;
        x65; x73; x00; x82; x00; x00; x1c; x00; x04; x6d; x61; x69; x6e;
        x00; x00; x83; x00; x00; x0e; x00; x03; x63; x6d; x64; x00; x00;
        x00; x62; x00; x00; x00; x82; x00; x00; x0c; x00; x03; x6c; x61;
        x6e; x00; x00; x00; x83; x00; x00; x0e; x00; x03; x62; x61; x64;
        x00; x00; x00; x78; x00; x00; x00];
     blobmsg_type := BLOBMSG_TYPE_TABLE; blobmsg_name := "instances";
     blobmsg_data := ""; blobmsg_attrs := [cfg_main_cmd_b; cfg_lan; attr_bad];
     blobmsg_check_attr := true |}.

Definition attr_name_net : blob_attr :=
  {| blob_mem :=
       [x83; x00; x00; x10; x00; x04; x6e; x61; x6d; x65; x00; x00; x6e;
        x65; x74; x00];
     blobmsg_type := BLOBMSG_TYPE_STRING; blobmsg_name := "name";
     blobmsg_data := "net"; blobmsg_attrs := [];
     blobmsg_check_attr := true |}.

Definition attr_name_nope : blob_attr :=
  {| blob_mem :=
       [x83; x00; x00; x11; x00; x04; x6e; x61; x6d; x65; x00; x00; x6e;
        x6f; x70; x65; x00; x00; x00; x00];
     blobmsg_type := BLOBMSG_TYPE_STRING; blobmsg_name := "name";
     blobmsg_data := "nope"; blobmsg_attrs := [];
     blobmsg_check_attr := true |}.

Definition attr_script : blob_attr :=
  {| blob_mem :=
       [x83; x00; x00; x20; x00; x06; x73; x63; x72; x69; x70; x74; x00;
        x00; x00; x00; x2f; x65; x74; x63; x2f; x69; x6e; x69; x74; x2e;
        x64; x2f; x6e; x65; x74; x00];
     blobmsg_type := BLOBMSG_TYPE_STRING; blobmsg_name := "script";
     blobmsg_data := "/etc/init.d/net"; blobmsg_attrs := [];
     blobmsg_check_attr := true |}.

Definition msg_set_v1 : blob_attr :=
  {| blob_mem :=
       [x00; x00; x00; x3c; x83; x00; x00; x10; x00; x04; x6e; x61; x6d;
        x65; x00; x00; x6e; x65; x74; x00; x82; x00; x00; x28; x00; x09;
        x69; x6e; x73; x74; x61; x6e; x63; x65; x73; x00; x82; x00; x00;
        x0c; x00; x04; x6d; x61; x69; x6e; x00; x00; x82; x00; x00; x0c;
        x00; x03; x61; x75; x78; x00; x00; x00];
     blobmsg_type := BLOBMSG_TYPE_UNSPEC; blobmsg_name := "";
     blobmsg_data := ""; blobmsg_attrs := [attr_name_net; tbl_v1];
     blobmsg_check_attr := true |}.

Definition msg_set_v2 : blob_attr :=
  {| blob_mem :=
       [x00; x00; x00; x5c; x83; x00; x00; x10; x00; x04; x6e; x61; x6d;
        x65; x00; x00; x6e; x65; x74; x00; x82; x00; x00; x48; x00; x09;
        x69; x6e; x73; x74; x61; x6e; x63; x65; x73; x00; x82; x00; x00;
        x1c; x00; x04; x6d; x61; x69; x6e; x00; x00; x83; x00; x00; x0e;
        x00; x03; x63; x6d; x64; x00; x00; x00; x62; x00; x00; x00; x82;
        x00; x00; x0c; x00; x03; x6c; x61; x6e; x00; x00; x00; x83; x00;
        x00; x0e; x00; x03; x62; x61; x64; x00; x00; x00; x78; x00; x00; x00];
     blobmsg_type := BLOBMSG_TYPE_UNSPEC; blobmsg_name := "";
     blobmsg_data := ""; blobmsg_attrs := [attr_name_net; tbl_v2];
     blobmsg_check_attr := true |}.

Definition msg_set_plain : blob_attr :=
  {| blob_mem :=
       [x00; x00; x00; x34; x83; x00; x00; x10; x00; x04; x6e; x61; x6d;
        x65; x00; x00; x6e; x65; x74; x00; x83; x00; x00; x20; x00; x06;
        x73; x63; x72; x69; x70; x74; x00; x00; x00; x00; x2f; x65; x74;
        x63; x2f; x69; x6e; x69; x74; x2e; x64; x2f; x6e; x65; x74; x00];
     blobmsg_type := BLOBMSG_TYPE_UNSPEC; blobmsg_name := "";
     blobmsg_data := ""; blobmsg_attrs := [attr_name_net; attr_script];
     blobmsg_check_attr := true |}.

Definition msg_set_noname : blob_attr :=
  {| blob_mem :=
       [x00; x00; x00; x2c; x82; x00; x00; x28; x00; x09; x69; x6e; x73;
        x74; x61; x6e; x63; x65; x73; x00; x82; x00; x00; x0c; x00; x04;
        x6d; x61; x69; x6e; x00; x00; x82; x00; x00; x0c; x00; x03; x61;
        x75; x78; x00; x00; x00];
     blobmsg_type := BLOBMSG_TYPE_UNSPEC; blobmsg_name := "";
     blobmsg_data := ""; blobmsg_attrs := [tbl_v1];
     blobmsg_check_attr := true |}.

Definition msg_del_net : blob_attr :=
  {| blob_mem :=
       [x00; x00; x00; x14; x83; x00; x00; x10; x00; x04; x6e; x61; x6d;
        x65; x00; x00; x6e; x65; x74; x00];
     blobmsg_type := BLOBMSG_TYPE_UNSPEC; blobmsg_name := "";
     blobmsg_data := ""; blobmsg_attrs := [attr_name_net];
     blobmsg_check_attr := true |}.

Definition msg_del_nope : blob_attr :=
  {| blob_mem :=
       [x00; x00; x00; x18; x83; x00; x00; x11; x00; x04; x6e; x61; x6d;
        x65; x00; x00; x6e; x6f; x70; x65; x00; x00; x00; x00];
     blobmsg_type := BLOBMSG_TYPE_UNSPEC; blobmsg_name := "";
     blobmsg_data := ""; blobmsg_attrs := [attr_name_nope];
     blobmsg_check_attr := true |}.

Definition msg_del_all : blob_attr :=
  {| blob_mem :=
       [x00; x00; x00; x04];
     blobmsg_type := BLOBMSG_TYPE_UNSPEC; blobmsg_name := "";
     blobmsg_data := ""; blobmsg_attrs := [];
     blobmsg_check_attr := true |}.

Definition watched_instance (restart_flag timer : bool) (cfg : blob_attr)
  : service_instance :=
  {| node_version := 2; node_key := Some (blobmsg_name cfg); name := None;
     restart := restart_flag; config := Some cfg;
     proc := {| proc_pending := true; proc_cb := Some instance_exit_cb;
                proc_pid := 42 |};
     timeout := {| timeout_pending := timer;
                   timeout_cb := Some instance_timeout_cb |} |}.

Definition idle_instance (cfg : blob_attr) : service_instance :=
  {| node_version := 2; node_key := Some (blobmsg_name cfg); name := None;
     restart := false; config := Some cfg;
     proc := {| proc_pending := false; proc_cb := Some instance_exit_cb;
                proc_pid := 0 |};
     timeout := {| timeout_pending := false;
                   timeout_cb := Some instance_timeout_cb |} |}.

Definition world_of (h : gmap positive service_instance) (next : positive)
  (svcs : list (string * service)) : world :=
  {| heap := h; brk := next; oom := []; trace := []; services := svcs |}.

(** The state after [msg_set_v1] was handled in the initial state. *)
Definition tree_v1 : vlist_tree :=
  {| avl := [("aux"%string, 2%positive); ("main"%string, 1%positive)];
     version := 2; keep_old := true; no_delete := false |}.

Definition svc_v1 : service :=
  {| svc_name := Some "net"%string; svc_config := Some msg_set_v1;
     instances := tree_v1 |}.

Definition world_v1 : world :=
  {| heap := <[1%positive := idle_instance cfg_main_empty]>
               (<[2%positive := idle_instance cfg_aux]> ∅);
     brk := 3; oom := [];
     trace := [CallStart 1; CallStart 2];
     services := [("net"%string, svc_v1)] |}.

(** The state after [msg_set_v2] was handled in [world_v1]: "main" kept its
    instance (address 1) with the new configuration, "lan" was added at
    address 4 (address 3 was the instance allocated for "main" and freed),
    "bad" was skipped and "aux" (address 2) was removed.  The key of "main"
    points into the copy of [msg_set_v1], which was freed. *)
Definition tree_v2 : vlist_tree :=
  {| avl := [("lan"%string, 4%positive); ("main"%string, 1%positive)];
     version := 3; keep_old := true; no_delete := false |}.

Definition svc_v2 : service :=
  {| svc_name := Some "net"%string; svc_config := Some msg_set_v2;
     instances := tree_v2 |}.

Definition world_v2 : world :=
  {| heap := <[1%positive := set_node_key None
                                (new_instance 3 cfg_main_cmd_b)]>
               (<[4%positive := new_instance 3 cfg_lan]> ∅);
     brk := 5; oom := [];
     trace := [CallStart 1; CallStart 2;
               CallUpdate 1 3; CallStop 1 true; CallFree 3;
               CallStart 4;
               CallStop 2 false; CallFree 2];
     services := [("net"%string, svc_v2)] |}.

(** The state after [msg_set_plain], which has no instances table, was
    handled in [world_v1]: the tree is the same, and the keys and the
    configurations of its instances point into the copy of [msg_set_v1],
    which was freed. *)
Definition svc_v1_plain : service :=
  {| svc_name := Some "net"%string; svc_config := Some msg_set_plain;
     instances := tree_v1 |}.

Definition world_v1_plain : world :=
  {| heap := <[1%positive := leave_dangling false
                                (idle_instance cfg_main_empty)]>
               (<[2%positive := leave_dangling false
                                  (idle_instance cfg_aux)]> ∅);
     brk := 3; oom := [];
     trace := [CallStart 1; CallStart 2];
     services := [("net"%string, svc_v1_plain)] |}.

(** A state in which instance 1 is being stopped: its process is watched
    and its timer is armed. *)
Definition world_stopping (restart_flag : bool) : world :=
  world_of {[ 1%positive := watched_instance restart_flag true cfg_main_empty ]}
    2 [].


(** ** Further vocabulary

    A computation that keeps a property of the state. *)
Definition kept (P : world -> Prop) {A} (m : M A) : Prop :=
  forall w a w', P w -> m w = Some (a, w') -> P w'.

(** No process is watched, no timer is armed, and no signal was sent. *)
Definition idle (w : world) : Prop :=
  (forall i inst, heap w !! i = Some inst ->
     proc_pending (proc inst) = false /\
     timeout_pending (timeout inst) = false) /\
  (forall pid sig, SysKill pid sig ∉ trace w).

(** Keys in ascending [strcmp] order, each before all later ones. *)
Fixpoint avl_ordered (keys : list string) : Prop :=
  match keys with
  | [] => True
  | k :: rest => Forall (fun k' => avl_strcmp k k' < 0) rest /\ avl_ordered rest
  end.

(** The registry is in key order and every service is linked under its
    own name. *)
Definition registry_listed (w : world) : Prop :=
  avl_ordered (map fst (services w)) /\
  forall k s, (k, s) ∈ services w -> svc_name s = Some k.

(** The table entry that counts for the instance name [k]: the last table
    called [k] among the entries. *)
Definition last_entry (attrs : list blob_attr) (k : string)
  : option blob_attr :=
  List.find
    (fun a => (blobmsg_type a =? BLOBMSG_TYPE_TABLE)
              && String.eqb (blobmsg_name a) k)
    (rev attrs).

(** What the heap holds during a reconciliation of the tree [t0] (already
    at its new version) started in [w0], once the entries [done] have been
    added: an instance made for a new name is as [init_instance] and
    [start_instance] leave it, with the last entry of its name; a tracked
    instance whose name was submitted has that entry and the new version
    and is otherwise as before; the other tracked instances are untouched;
    and every object allocated since is linked in the tree. *)
Record installing (w0 : world) (t0 : vlist_tree) (done : list blob_attr)
  (w : world) (t : vlist_tree) : Prop := Installing {
  in_new : forall k i, (k, i) ∈ avl t -> k ∉ tracked t0 ->
           exists a, last_entry done k = Some a /\
                     heap w !! i = Some (new_instance (version t0) a);
  in_sub : forall k i, (k, i) ∈ avl t0 -> k ∈ submitted done ->
           exists a inst0, last_entry done k = Some a /\
             heap w0 !! i = Some inst0 /\
             heap w !! i =
               Some (set_config (Some a)
                       (set_node_version (version t0) inst0));
  in_rest : forall k i, (k, i) ∈ avl t0 -> k ∉ submitted done ->
            heap w !! i = heap w0 !! i;
  in_linked : forall i, (brk w0 <= i)%positive -> is_Some (heap w !! i) ->
              i ∈ map snd (avl t)
}.

(** The structure of a tree and of a registry, whatever can still be read
    through the instances: [tree_ok] and [registry_ok] without the
    condition on the configurations. *)
Definition tree_live (w : world) (t : vlist_tree) : Prop :=
  NoDup (map fst (avl t)) /\
  NoDup (map snd (avl t)) /\
  1 <= version t /\
  keep_old t = true /\
  no_delete t = false /\
  forall k i, (k, i) ∈ avl t ->
    exists inst, heap w !! i = Some inst /\
                 1 <= node_version inst <= version t.

Definition registry_live (w : world) : Prop :=
  heap_ok w /\
  NoDup (map fst (services w)) /\
  NoDup (all_nodes (services w)) /\
  forall k s, (k, s) ∈ services w -> tree_live w (instances s).

(** Every key of every registered service can be read. *)
Definition registry_keys_ok (w : world) : Prop :=
  forall k s, (k, s) ∈ services w -> keys_ok w (instances s).

(** Every live object is an instance of a registered service. *)
Definition leak_free (w : world) : Prop :=
  forall i, is_Some (heap w !! i) -> i ∈ all_nodes (services w).

(** The tree a set request for [name] works on: the tree of the
    registered service, or the empty tree that [service_alloc] sets up. *)
Definition tree_of (w : world) (name : string) : vlist_tree :=
  match avl_find (services w) name with
  | Some s => instances s
  | None => set_keep_old true vlist_init
  end.

(** The configuration that a set request for [name] replaces and frees:
    the copy of the request that configured the registered service, none
    for a new service. *)
Definition config_of (w : world) (name : string) : option blob_attr :=
  match avl_find (services w) name with
  | Some s => svc_config s
  | None => None
  end.

(** The registry after a set request for [name]: a registered service is
    updated in place, a new one is linked. *)
Definition register (svcs : list (string * service)) (name : string)
  (s : service) : list (string * service) :=
  match avl_find svcs name with
  | Some _ => avl_store svcs name s
  | None => avl_insert svcs name s
  end.

(** The events of a resubmission that changes nothing: the call of
    [update_instance] on a kept instance and the release of the instance
    that was allocated for the request. *)
Definition quiet_event (e : event) : bool :=
  match e with
  | CallUpdate _ _ | CallFree _ => true
  | _ => false
  end.

(** Every table among the entries is valid and names a tracked instance
    whose configuration has the same bytes. *)
Definition in_sync (w : world) (t : vlist_tree) (attrs : list blob_attr)
  : Prop :=
  forall a, a ∈ attrs -> blobmsg_type a = BLOBMSG_TYPE_TABLE ->
    blob_valid a = true /\
    exists i inst c,
      (blobmsg_name a, i) ∈ avl t /\ heap w !! i = Some inst /\
      config inst = Some c /\ blob_image c = blob_image a.

(** ** Further sample data

    [msg_del_table] is the request [{ name: {} }]: its only attribute is
    called "name" but is a table. *)

Definition attr_name_table : blob_attr :=
  {| blob_mem :=
       [x82; x00; x00; x0c; x00; x04; x6e; x61; x6d; x65; x00; x00];
     blobmsg_type := BLOBMSG_TYPE_TABLE; blobmsg_name := "name";
     blobmsg_data := ""; blobmsg_attrs := [];
     blobmsg_check_attr := true |}.

Definition msg_del_table : blob_attr :=
  {| blob_mem :=
       [x00; x00; x00; x10; x82; x00; x00; x0c; x00; x04; x6e; x61; x6d;
        x65; x00; x00];
     blobmsg_type := BLOBMSG_TYPE_UNSPEC; blobmsg_name := "";
     blobmsg_data := ""; blobmsg_attrs := [attr_name_table];
     blobmsg_check_attr := true |}.

(** [msg_set_broken] is [msg_set_v1] behind a string attribute "path"
    whose payload "x" has no terminating NUL: it has the type and the name
    length of the policy entry "name" and fails [blobmsg_check_attr]. *)
Definition attr_path_raw : blob_attr :=
  {| blob_mem :=
       [x83; x00; x00; x0d; x00; x04; x70; x61; x74; x68; x00; x00; x78;
        x00; x00; x00];
     blobmsg_type := BLOBMSG_TYPE_STRING; blobmsg_name := "path";
     blobmsg_data := "x"; blobmsg_attrs := [];
     blobmsg_check_attr := false |}.

Definition msg_set_broken : blob_attr :=
  {| blob_mem :=
       [x00; x00; x00; x4c; x83; x00; x00; x0d; x00; x04; x70; x61; x74;
        x68; x00; x00; x78; x00; x00; x00; x83; x00; x00; x10; x00; x04;
        x6e; x61; x6d; x65; x00; x00; x6e; x65; x74; x00; x82; x00; x00;
        x28; x00; x09; x69; x6e; x73; x74; x61; x6e; x63; x65; x73; x00;
        x82; x00; x00; x0c; x00; x04; x6d; x61; x69; x6e; x00; x00; x82;
        x00; x00; x0c; x00; x03; x61; x75; x78; x00; x00; x00];
     blobmsg_type := BLOBMSG_TYPE_UNSPEC; blobmsg_name := "";
     blobmsg_data := "";
     blobmsg_attrs := [attr_path_raw; attr_name_net; tbl_v1];
     blobmsg_check_attr := true |}.

(** [world_v1] when the next two allocations will be refused. *)
Definition world_v1_starved : world :=
  {| heap := heap world_v1; brk := brk world_v1; oom := [true; true];
     trace := trace world_v1; services := services world_v1 |}.

(** [msg_set_nope] is [{ name: "nope", instances: { main: {}, aux: {} } }];
    [world_v1_nope] is the state after it was handled in [world_v1]. *)
Definition msg_set_nope : blob_attr :=
  {| blob_mem :=
       [x00; x00; x00; x40; x83; x00; x00; x11; x00; x04; x6e; x61; x6d;
        x65; x00; x00; x6e; x6f; x70; x65; x00; x00; x00; x00; x82; x00;
        x00; x28; x00; x09; x69; x6e; x73; x74; x61; x6e; x63; x65; x73;
        x00; x82; x00; x00; x0c; x00; x04; x6d; x61; x69; x6e; x00; x00;
        x82; x00; x00; x0c; x00; x03; x61; x75; x78; x00; x00; x00];
     blobmsg_type := BLOBMSG_TYPE_UNSPEC; blobmsg_name := "";
     blobmsg_data := ""; blobmsg_attrs := [attr_name_nope; tbl_v1];
     blobmsg_check_attr := true |}.


Definition svc_nope : service :=
  {| svc_name := Some "nope"%string; svc_config := Some msg_set_nope;
     instances :=
       {| avl := [("aux"%string, 4%positive); ("main"%string, 3%positive)];
          version := 2; keep_old := true; no_delete := false |} |}.

Definition world_v1_nope : world :=
  {| heap := <[3%positive := new_instance 2 cfg_main_empty]>
               (<[4%positive := new_instance 2 cfg_aux]> (heap world_v1));
     brk := 5; oom := [];
     trace := trace world_v1 ++ [CallStart 3; CallStart 4];
     services := [("net"%string, svc_v1); ("nope"%string, svc_nope)] |}.

(** * Properties *)

(** ** Bytes and blobs *)

Lemma byte_val_inj (x y : byte) : byte_val x = byte_val y -> x = y.
Proof.
  unfold byte_val. intros H. apply N2Z.inj in H.
  assert (Hx := Byte.of_to_N x). assert (Hy := Byte.of_to_N y).
  rewrite H in Hx. congruence.
Qed.

Lemma memcmp_take (n : nat) : forall a b : list byte,
  (n <= List.length a)%nat -> (n <= List.length b)%nat ->
  exists r, memcmp a b n = Some r /\ (r = 0 <-> take n a = take n b).
Proof.
  induction n as [|n IH]; intros a b Ha Hb.
  - exists 0. simpl. split; [reflexivity|]. split; intros _; reflexivity.
  - destruct a as [|x a]; [simpl in Ha; lia|].
    destruct b as [|y b]; [simpl in Hb; lia|].
    simpl in Ha, Hb. simpl.
    destruct (byte_val x <? byte_val y) eqn:Hxy.
    + exists (-1). split; [reflexivity|]. split; [discriminate|].
      intros E. inversion E; subst. apply Z.ltb_lt in Hxy. lia.
    + destruct (byte_val y <? byte_val x) eqn:Hyx.
      * exists 1. split; [reflexivity|]. split; [discriminate|].
        intros E. inversion E; subst. apply Z.ltb_lt in Hyx. lia.
      * apply Z.ltb_ge in Hxy. apply Z.ltb_ge in Hyx.
        assert (x = y) by (apply byte_val_inj; lia). subst y.
        destruct (IH a b) as [r [Hr Hiff]]; [lia | lia |].
        exists r. split; [exact Hr|]. rewrite Hiff. split.
        -- intros ->. reflexivity.
        -- intros E. inversion E. reflexivity.
Qed.

Lemma blob_pad_len_nonneg a n : blob_pad_len a = Some n -> 0 <= n.
Proof.
  unfold blob_pad_len, blob_raw_len.
  destruct (be32_to_cpu (blob_mem a)) as [v|]; [|discriminate].
  intros [= <-]. unfold BLOB_ATTR_ALIGN.
  change (Z.lnot (4 - 1)) with (-4).
  destruct (Z.land (Z.land v BLOB_ATTR_LEN_MASK + 4 - 1) (-4)) eqn:E; try lia.
  exfalso.
  assert (0 <= Z.land v BLOB_ATTR_LEN_MASK).
  { apply Z.land_nonneg. right. unfold BLOB_ATTR_LEN_MASK. lia. }
  assert (0 <= Z.land (Z.land v BLOB_ATTR_LEN_MASK + 4 - 1) (-4)).
  { apply Z.land_nonneg. left. lia. }
  lia.
Qed.

Lemma blob_valid_inv a :
  blob_valid a = true ->
  exists n, blob_pad_len a = Some n /\ 0 <= n /\
            (Z.to_nat n <= List.length (blob_mem a))%nat.
Proof.
  unfold blob_valid. destruct (blob_pad_len a) as [n|] eqn:E; [|discriminate].
  intros H. apply Nat.leb_le in H. exists n. split; [reflexivity|].
  split; [eapply blob_pad_len_nonneg; eassumption | exact H].
Qed.

(** Two valid attributes have the same bytes exactly when they have the
    same padded length and agree on that many bytes. *)
Lemma blob_image_eq a b n m :
  blob_pad_len a = Some n -> blob_pad_len b = Some m ->
  0 <= n -> 0 <= m ->
  (Z.to_nat n <= List.length (blob_mem a))%nat ->
  (Z.to_nat m <= List.length (blob_mem b))%nat ->
  (blob_image a = blob_image b <->
   n = m /\ take (Z.to_nat n) (blob_mem a) = take (Z.to_nat n) (blob_mem b)).
Proof.
  intros Ha Hb Hn Hm La Lb. unfold blob_image. rewrite Ha, Hb. split.
  - intros E. assert (n = m).
    { apply (f_equal (@List.length byte)) in E.
      rewrite !length_take in E. lia. }
    subst m. split; [reflexivity | exact E].
  - intros [-> E]. exact E.
Qed.

(** ** The exit handler *)

Ltac run1 :=
  unfold instance_exit, start_instance, stop_instance, instance_timeout,
    call_proc_cb, call_timeout_cb, uloop_handle_process,
    uloop_process_timeout, uloop_timeout_cancel, uloop_process_delete,
    kill, emit, store, load, deref, bind, ret, undefined;
  simpl.

Ltac hsimpl :=
  repeat first [rewrite lookup_insert_eq | rewrite insert_insert_eq
               | progress simpl].

Ltac run := run1.

Ltac run_with H := repeat (progress (run1; rewrite ?H; hsimpl)).

(** C4: [instance_exit] cancels the timer; when the restart flag is set it
    clears the flag through one call of [start_instance], otherwise it
    changes nothing else; the exit status plays no part. *)
Theorem instance_exit_restart_or_stay w i inst ret_code :
  heap w !! i = Some inst ->
  exists w' inst',
    instance_exit i ret_code w = Some (tt, w') /\
    heap w' = <[i := inst']> (heap w) /\
    timeout_pending (timeout inst') = false /\
    timeout_cb (timeout inst') = timeout_cb (timeout inst) /\
    restart inst' = false /\
    proc inst' = proc inst /\
    config inst' = config inst /\
    node_version inst' = node_version inst /\
    trace w' = trace w ++ (if restart inst then [CallStart i] else []) /\
    services w' = services w /\
    (forall ret_code', instance_exit i ret_code' w = instance_exit i ret_code w).
Proof.
  intros H. run. rewrite H. simpl. rewrite lookup_insert_eq.
  destruct inst as [nv nk nm rs cf pr [tp tc]]; simpl.
  destruct tp, rs; simpl; rewrite ?lookup_insert_eq; simpl;
    rewrite ?insert_insert_eq;
    eexists; eexists; (split; [reflexivity|]); simpl;
    rewrite ?app_nil_r; repeat split; try reflexivity.
Qed.

(** ** Stopping an instance *)

Lemma stop_instance_run w i inst restart_arg :
  heap w !! i = Some inst ->
  stop_instance i restart_arg w =
  Some (tt, set_trace
              (trace w ++ CallStop i restart_arg ::
                 (if proc_pending (proc inst)
                  then [SysKill (proc_pid (proc inst)) SIGTERM] else []))
              w).
Proof.
  intros H. run. rewrite H. simpl.
  destruct (proc_pending (proc inst)); simpl.
  - unfold set_trace; simpl. rewrite <- app_assoc. reflexivity.
  - reflexivity.
Qed.

Lemma step_exit_watched w i r w' :
  step w (ProcessExit i r) w' -> process_watched w i = true.
Proof. inversion 1; assumption. Qed.

Lemma step_timer_armed w i w' :
  step w (TimerExpiry i) w' -> timer_armed w i = true.
Proof. inversion 1; assumption. Qed.

(** C5: in the stopping state (process watched, timer armed) the timer
    handler sends SIGKILL, unlinks the process and then runs the exit
    handler; delivering the exit or the expiry leads to the same settled
    instance, with one [start_instance] exactly when a restart was pending,
    and afterwards neither notification can be delivered again. *)
Theorem timeout_and_exit_converge w i inst ret_code :
  heap w !! i = Some inst ->
  proc_cb (proc inst) = Some instance_exit_cb ->
  timeout_cb (timeout inst) = Some instance_timeout_cb ->
  proc_pending (proc inst) = true ->
  timeout_pending (timeout inst) = true ->
  let starts := if restart inst then [CallStart i] else [] in
  instance_timeout i w =
    (kill (proc_pid (proc inst)) SIGKILL ;;
     uloop_process_delete i ;;
     instance_exit i (-1)) w /\
  exists w1 w2,
    step w (ProcessExit i ret_code) w1 /\
    step w (TimerExpiry i) w2 /\
    (forall w', step w (ProcessExit i ret_code) w' -> w' = w1) /\
    (forall w', step w (TimerExpiry i) w' -> w' = w2) /\
    heap w1 = <[i := settled inst]> (heap w) /\
    heap w2 = <[i := settled inst]> (heap w) /\
    trace w1 = trace w ++ starts /\
    trace w2 = trace w ++ SysKill (proc_pid (proc inst)) SIGKILL :: starts /\
    starts_of i starts = (if restart inst then 1 else 0)%nat /\
    (forall w0 e w', (w0 = w1 \/ w0 = w2) ->
       (e = TimerExpiry i \/ exists r, e = ProcessExit i r) ->
       ~ step w0 e w').
Proof.
  intros H Hpc Htc Hpp Htp starts.
  destruct inst as [nv nk nm rs cf [pp pc pid] [tp tc]]; simpl in *. subst.
  assert (Hx : exists w1, uloop_handle_process i ret_code w = Some (tt, w1) /\
     heap w1 = <[i := settled (ServiceInstance nv nk nm rs cf
        (UloopProcess true (Some instance_exit_cb) pid)
        (UloopTimeout true (Some instance_timeout_cb)))]> (heap w) /\
     trace w1 = trace w ++ starts).
  { run_with H.
    destruct rs; simpl; rewrite ?lookup_insert_eq; simpl;
      rewrite ?insert_insert_eq; eexists; (split; [reflexivity|]); simpl;
      rewrite ?app_nil_r; split; reflexivity. }
  assert (Ht : exists w2, uloop_process_timeout i w = Some (tt, w2) /\
     heap w2 = <[i := settled (ServiceInstance nv nk nm rs cf
        (UloopProcess true (Some instance_exit_cb) pid)
        (UloopTimeout true (Some instance_timeout_cb)))]> (heap w) /\
     trace w2 = trace w ++ SysKill pid SIGKILL :: starts).
  { run_with H.
    destruct rs; simpl; rewrite ?lookup_insert_eq; simpl;
      rewrite ?insert_insert_eq; eexists; (split; [reflexivity|]); simpl;
      rewrite <- ?app_assoc; split; reflexivity. }
  destruct Hx as [w1 [Hx1 [Hh1 Ht1]]]. destruct Ht as [w2 [Hx2 [Hh2 Ht2]]].
  split.
  { run_with H. reflexivity. }
  exists w1, w2.
  assert (Hw : process_watched w i = true)
    by (unfold process_watched; rewrite H; reflexivity).
  assert (Ha : timer_armed w i = true)
    by (unfold timer_armed; rewrite H; reflexivity).
  split; [apply (step_exit _ _ _ _ Hw Hx1)|].
  split; [apply (step_timer _ _ _ Ha Hx2)|].
  split; [intros w' Hs; inversion Hs; subst; congruence|].
  split; [intros w' Hs; inversion Hs; subst; congruence|].
  split; [exact Hh1|]. split; [exact Hh2|].
  split; [exact Ht1|]. split; [exact Ht2|].
  split.
  { unfold starts, starts_of. destruct rs; [|reflexivity].
    rewrite filter_cons_True by reflexivity. reflexivity. }
  intros w0 e w' Hw0 He Hs.
  assert (Hpw : process_watched w0 i = false /\ timer_armed w0 i = false).
  { unfold process_watched, timer_armed.
    destruct Hw0 as [-> | ->]; rewrite ?Hh1, ?Hh2, lookup_insert_eq;
      split; reflexivity. }
  destruct Hpw as [Hp0 Ha0].
  destruct He as [-> | [r ->]].
  - apply step_timer_armed in Hs. congruence.
  - apply step_exit_watched in Hs. congruence.
Qed.

(** ** Updating an instance *)

Lemma instance_config_changed_run w i i_new inst inst_new c c_new :
  heap w !! i = Some inst ->
  heap w !! i_new = Some inst_new ->
  config inst = Some c ->
  config inst_new = Some c_new ->
  blob_valid c = true ->
  blob_valid c_new = true ->
  exists changed,
    instance_config_changed i i_new w = Some (changed, w) /\
    (changed = false <-> blob_image c = blob_image c_new).
Proof.
  intros Hi Hn Hc Hcn Hv Hvn.
  destruct (blob_valid_inv _ Hv) as [n [Hpl [Hn0 Hlen]]].
  destruct (blob_valid_inv _ Hvn) as [m [Hplm [Hm0 Hlenm]]].
  unfold instance_config_changed, bind, load, deref, ret.
  rewrite Hi, Hn, Hc, Hcn, Hpl, Hplm.
  pose proof (blob_image_eq c c_new n m Hpl Hplm Hn0 Hm0 Hlen Hlenm) as Himg.
  destruct (n =? m) eqn:Enm; simpl.
  - apply Z.eqb_eq in Enm. subst m.
    destruct (memcmp_take (Z.to_nat n) (blob_mem c) (blob_mem c_new) Hlen Hlenm)
      as [r [Hr Hiff]].
    rewrite Hr. destruct (r =? 0) eqn:Er; simpl.
    + apply Z.eqb_eq in Er. exists false. split; [reflexivity|].
      split; [intros _|reflexivity]. apply Himg. split; [reflexivity|].
      apply Hiff, Er.
    + apply Z.eqb_neq in Er. exists true. split; [reflexivity|].
      split; [discriminate|]. intros E. apply Himg in E.
      destruct E as [_ E]. apply Hiff in E. contradiction.
  - apply Z.eqb_neq in Enm. exists true. split; [reflexivity|].
    split; [discriminate|]. intros E. apply Himg in E. tauto.
Qed.

Lemma update_instance_run w i i_new inst inst_new c c_new :
  heap w !! i = Some inst ->
  heap w !! i_new = Some inst_new ->
  config inst = Some c ->
  config inst_new = Some c_new ->
  blob_valid c = true ->
  blob_valid c_new = true ->
  exists changed,
    (changed = false <-> blob_image c = blob_image c_new) /\
    update_instance i i_new w =
    Some (changed,
          set_heap (<[i := set_config (Some c_new) inst]> (heap w))
            (set_trace
               (trace w ++ CallUpdate i i_new ::
                  (if changed
                   then CallStop i true ::
                        (if proc_pending (proc inst)
                         then [SysKill (proc_pid (proc inst)) SIGTERM] else [])
                   else []))
               w)).
Proof.
  intros Hi Hn Hc Hcn Hv Hvn.
  set (w1 := set_trace (trace w ++ [CallUpdate i i_new]) w).
  destruct (instance_config_changed_run w1 i i_new inst inst_new c c_new
              Hi Hn Hc Hcn Hv Hvn) as [changed [Hrun Hiff]].
  exists changed. split; [exact Hiff|].
  unfold update_instance, bind, emit. fold w1. rewrite Hrun.
  unfold load at 1. change (heap w1) with (heap w). rewrite Hn.
  unfold store at 1. change (heap w1) with (heap w). rewrite Hi.
  rewrite Hcn.
  destruct changed; simpl.
  - erewrite stop_instance_run
      by (simpl; rewrite lookup_insert_eq; reflexivity).
    unfold ret, set_heap, set_trace; simpl.
    rewrite <- app_assoc. reflexivity.
  - reflexivity.
Qed.

Lemma blob_image_eq_valid c c_new :
  blob_valid c = true ->
  blob_valid c_new = true ->
  (blob_image c = blob_image c_new <->
     blob_pad_len c = blob_pad_len c_new /\
     forall n, blob_pad_len c = Some n ->
       take (Z.to_nat n) (blob_mem c) = take (Z.to_nat n) (blob_mem c_new)).
Proof.
  intros Hv Hvn.
  destruct (blob_valid_inv _ Hv) as [n [Hpl [Hn0 Hlen]]].
  destruct (blob_valid_inv _ Hvn) as [m [Hplm [Hm0 Hlenm]]].
  rewrite (blob_image_eq c c_new n m Hpl Hplm Hn0 Hm0 Hlen Hlenm).
  rewrite Hpl, Hplm. split.
  - intros [-> E]. split; [reflexivity|]. intros n' [= <-]. exact E.
  - intros [[= <-] E]. split; [reflexivity|]. apply E. reflexivity.
Qed.

(** C2: [update_instance] installs the new configuration and answers
    whether the two serialized configurations differ in a byte (padded
    length included); when they are the same nothing but the call itself is
    recorded, when they differ [stop_instance] is called with
    [restart = true]. *)
Theorem update_instance_restarts_iff_config_differs
  w i i_new inst inst_new c c_new :
  heap w !! i = Some inst ->
  heap w !! i_new = Some inst_new ->
  config inst = Some c ->
  config inst_new = Some c_new ->
  blob_valid c = true ->
  blob_valid c_new = true ->
  exists changed w',
    update_instance i i_new w = Some (changed, w') /\
    (changed = false <-> blob_image c = blob_image c_new) /\
    (blob_image c = blob_image c_new <->
       blob_pad_len c = blob_pad_len c_new /\
       forall n, blob_pad_len c = Some n ->
         take (Z.to_nat n) (blob_mem c) = take (Z.to_nat n) (blob_mem c_new)) /\
    heap w' = <[i := set_config (Some c_new) inst]> (heap w) /\
    services w' = services w /\
    trace w' =
      trace w ++ CallUpdate i i_new ::
        (if changed
         then CallStop i true ::
              (if proc_pending (proc inst)
               then [SysKill (proc_pid (proc inst)) SIGTERM] else [])
         else []).
Proof.
  intros Hi Hn Hc Hcn Hv Hvn.
  destruct (update_instance_run w i i_new inst inst_new c c_new
              Hi Hn Hc Hcn Hv Hvn) as [changed [Hiff Hrun]].
  exists changed. eexists. split; [exact Hrun|].
  split; [exact Hiff|].
  split; [apply blob_image_eq_valid; assumption|].
  repeat split.
Qed.


(** ** AVL trees *)

Lemma string_compare_refl (s : string) : String.compare s s = Eq.
Proof.
  pose proof (String.compare_antisym s s) as H.
  destruct (String.compare s s); simpl in H; congruence.
Qed.

Lemma avl_strcmp_eq k1 k2 : (avl_strcmp k1 k2 =? 0) = true <-> k1 = k2.
Proof.
  unfold avl_strcmp. split.
  - intros E. apply String.compare_eq_iff.
    destruct (String.compare k1 k2); [reflexivity | discriminate..].
  - intros ->. rewrite string_compare_refl. reflexivity.
Qed.

Lemma avl_strcmp_refl k : (avl_strcmp k k =? 0) = true.
Proof. apply avl_strcmp_eq. reflexivity. Qed.

Lemma avl_strcmp_neq k1 k2 : (avl_strcmp k1 k2 =? 0) = false <-> k1 <> k2.
Proof.
  rewrite <- avl_strcmp_eq. destruct (avl_strcmp k1 k2 =? 0); split; congruence.
Qed.

Section AvlFacts.
Context {V : Type}.
Implicit Types (t : list (string * V)) (k key : string) (v : V).

Lemma avl_find_Some t key v : avl_find t key = Some v -> (key, v) ∈ t.
Proof.
  induction t as [|[k v'] t IH]; simpl; [discriminate|].
  destruct (avl_strcmp key k =? 0) eqn:E.
  - apply avl_strcmp_eq in E. subst k. intros [= ->]. left.
  - intros H. right. apply IH, H.
Qed.

Lemma avl_find_None t key : avl_find t key = None <-> key ∉ map fst t.
Proof.
  induction t as [|[k v'] t IH]; simpl.
  - split; [intros _; apply not_elem_of_nil | reflexivity].
  - destruct (avl_strcmp key k =? 0) eqn:E.
    + apply avl_strcmp_eq in E. subst k. split; [discriminate|].
      intros H. exfalso. apply H. left.
    + apply avl_strcmp_neq in E. rewrite IH. rewrite not_elem_of_cons. tauto.
Qed.

Lemma avl_find_elem t key v :
  NoDup (map fst t) -> (key, v) ∈ t -> avl_find t key = Some v.
Proof.
  induction t as [|[k v'] t IH]; simpl; intros Hnd Hin.
  - inversion Hin.
  - apply NoDup_cons in Hnd as [Hk Hnd].
    apply elem_of_cons in Hin as [[= <- <-] | Hin].
    + rewrite avl_strcmp_refl. reflexivity.
    + destruct (avl_strcmp key k =? 0) eqn:E.
      * apply avl_strcmp_eq in E. subst k. exfalso. apply Hk.
        apply (list_elem_of_fmap_2 fst) in Hin. exact Hin.
      * apply IH; assumption.
Qed.

Lemma elem_of_avl_insert t key v k' v' :
  key ∉ map fst t ->
  (k', v') ∈ avl_insert t key v <-> (k', v') ∈ t \/ (k' = key /\ v' = v).
Proof.
  induction t as [|[k u] t IH]; simpl; intros Hk.
  - rewrite list_elem_of_singleton. split.
    + intros [= -> ->]. right. tauto.
    + intros [H | [-> ->]]; [inversion H | reflexivity].
  - apply not_elem_of_cons in Hk as [Hne Hk].
    destruct (avl_strcmp key k =? 0) eqn:E.
    + apply avl_strcmp_eq in E. congruence.
    + destruct (avl_strcmp key k <? 0).
      * rewrite elem_of_cons. split.
        -- intros [[= -> ->] | H]; tauto.
        -- intros [H | [-> ->]]; [right; exact H | left; reflexivity].
      * rewrite !elem_of_cons, IH by exact Hk. tauto.
Qed.

Lemma avl_insert_perm t key v :
  key ∉ map fst t -> avl_insert t key v ≡ₚ (key, v) :: t.
Proof.
  induction t as [|[k u] t IH]; simpl; intros Hk; [reflexivity|].
  apply not_elem_of_cons in Hk as [Hne Hk].
  destruct (avl_strcmp key k =? 0) eqn:E.
  - apply avl_strcmp_eq in E. congruence.
  - destruct (avl_strcmp key k <? 0); [reflexivity|].
    rewrite IH by exact Hk. apply Permutation_swap.
Qed.

Lemma elem_of_avl_delete t key k' v' :
  NoDup (map fst t) ->
  (k', v') ∈ avl_delete t key <-> (k', v') ∈ t /\ k' <> key.
Proof.
  induction t as [|[k u] t IH]; simpl; intros Hnd.
  - split; [inversion 1 | intros [H _]; inversion H].
  - apply NoDup_cons in Hnd as [Hk Hnd].
    destruct (avl_strcmp key k =? 0) eqn:E.
    + apply avl_strcmp_eq in E. subst k. rewrite elem_of_cons. split.
      * intros H. split; [right; exact H|]. intros ->. apply Hk.
        apply (list_elem_of_fmap_2 fst) in H. exact H.
      * intros [[[= -> ->] | H] Hne]; [congruence | exact H].
    + apply avl_strcmp_neq in E. rewrite !elem_of_cons, IH by exact Hnd.
      split.
      * intros [[= -> ->] | [H Hne]]; [split; [left; reflexivity | congruence]|].
        split; [right; exact H | exact Hne].
      * intros [[[= -> ->] | H] Hne]; [left; reflexivity | right; tauto].
Qed.

Lemma avl_delete_sublist t key : sublist (avl_delete t key) t.
Proof.
  induction t as [|[k u] t IH]; simpl; [constructor|].
  destruct (avl_strcmp key k =? 0).
  - apply sublist_cons. reflexivity.
  - apply sublist_skip, IH.
Qed.

Lemma avl_delete_absent t key : key ∉ map fst t -> avl_delete t key = t.
Proof.
  induction t as [|[k u] t IH]; simpl; intros Hk; [reflexivity|].
  apply not_elem_of_cons in Hk as [Hne Hk].
  destruct (avl_strcmp key k =? 0) eqn:E.
  - apply avl_strcmp_eq in E. congruence.
  - rewrite IH by exact Hk. reflexivity.
Qed.

Lemma elem_of_avl_store t key v k' v' :
  NoDup (map fst t) ->
  (k', v') ∈ avl_store t key v <->
  ((k', v') ∈ t /\ k' <> key) \/ (k' = key /\ v' = v /\ key ∈ map fst t).
Proof.
  induction t as [|[k u] t IH]; simpl; intros Hnd.
  - split; [inversion 1|]. intros [[H _] | [_ [_ H]]]; inversion H.
  - apply NoDup_cons in Hnd as [Hk Hnd].
    destruct (avl_strcmp key k =? 0) eqn:E.
    + apply avl_strcmp_eq in E. subst k. rewrite !elem_of_cons. split.
      * intros [[= -> ->] | H].
        -- right. split; [reflexivity|]. split; [reflexivity|]. left.
           reflexivity.
        -- left. split; [right; exact H|]. intros ->. apply Hk.
           apply (list_elem_of_fmap_2 fst) in H. exact H.
      * intros [[[[= -> ->] | H] Hne] | [-> [-> _]]];
          [congruence | right; exact H | left; reflexivity].
    + apply avl_strcmp_neq in E. rewrite !elem_of_cons, IH by exact Hnd.
      split.
      * intros [[= -> ->] | [[H Hne] | [-> [-> H]]]].
        -- left. split; [left; reflexivity | congruence].
        -- left. split; [right; exact H | exact Hne].
        -- right. split; [reflexivity|]. split; [reflexivity|]. right. exact H.
      * intros [[[[= -> ->] | H] Hne] | [-> [-> H]]].
        -- left. reflexivity.
        -- right. left. tauto.
        -- right. right. split; [reflexivity|]. split; [reflexivity|].
           destruct H as [H | H]; [congruence | exact H].
Qed.

Lemma avl_store_keys t key v : map fst (avl_store t key v) = map fst t.
Proof.
  induction t as [|[k u] t IH]; simpl; [reflexivity|].
  destruct (avl_strcmp key k =? 0); simpl; [reflexivity|].
  rewrite IH. reflexivity.
Qed.
End AvlFacts.

(** ** blobmsg_parse *)

Lemma blobmsg_parse_from_spec policy attrs : forall tb i,
  List.length tb = List.length policy ->
  tb_at (blobmsg_parse_from policy attrs tb) i =
  match tb_at tb i with
  | Some a => Some a
  | None =>
      match policy !! i with
      | Some pol => List.find (policy_match pol) (blobmsg_parsed policy attrs)
      | None => None
      end
  end.
Proof.
  induction attrs as [|attr attrs IH]; intros tb i Hlen; simpl.
  - destruct (tb_at tb i); [reflexivity|]. destruct (policy !! i); reflexivity.
  - destruct (existsb _ policy && negb (blobmsg_check_attr attr)).
    { simpl. destruct (tb_at tb i); [reflexivity|].
      destruct (policy !! i); reflexivity. }
    rewrite IH by (rewrite length_zip_with; lia).
    unfold tb_at. rewrite lookup_zip_with.
    destruct (policy !! i) as [pol|] eqn:Ep; simpl.
    + destruct (tb !! i) as [slot|] eqn:Et; simpl.
      * destruct slot; [reflexivity|].
        destruct (policy_match pol attr); reflexivity.
      * apply lookup_ge_None in Et. apply lookup_lt_Some in Ep. lia.
    + destruct (tb !! i) as [slot|] eqn:Et; [|reflexivity].
      apply lookup_ge_None in Ep. apply lookup_lt_Some in Et. lia.
Qed.

Lemma blobmsg_parse_find policy attrs i :
  tb_at (blobmsg_parse policy attrs) i =
  match policy !! i with
  | Some pol => List.find (policy_match pol) (blobmsg_parsed policy attrs)
  | None => None
  end.
Proof.
  unfold blobmsg_parse. rewrite blobmsg_parse_from_spec by apply length_map.
  unfold tb_at. rewrite list_lookup_fmap.
  destruct (policy !! i); reflexivity.
Qed.

Lemma blobmsg_parsed_elem policy attrs a :
  a ∈ blobmsg_parsed policy attrs -> a ∈ attrs.
Proof.
  induction attrs as [|x attrs IH]; simpl; [inversion 1|].
  destruct (existsb _ policy && negb (blobmsg_check_attr x)); [inversion 1|].
  intros H. apply elem_of_cons in H as [-> | H]; [left | right; auto].
Qed.

Lemma blobmsg_parsed_all policy attrs :
  (forall a, a ∈ attrs -> blobmsg_check_attr a = true) ->
  blobmsg_parsed policy attrs = attrs.
Proof.
  induction attrs as [|x attrs IH]; simpl; intros H; [reflexivity|].
  rewrite (H x) by left. rewrite andb_false_r, IH; [reflexivity|].
  intros a Ha. apply H. right. exact Ha.
Qed.

Lemma policy_match_spec pol attr :
  policy_type pol <> BLOBMSG_TYPE_UNSPEC ->
  policy_match pol attr = true <->
  blobmsg_type attr = policy_type pol /\ blobmsg_name attr = policy_name pol.
Proof.
  intros Hty. unfold policy_match.
  rewrite andb_true_iff, orb_true_iff, !Z.eqb_eq, String.eqb_eq.
  split; [intros [[H | H] ->] | intros [-> ->]]; tauto.
Qed.

Lemma find_none_iff {A} (f : A -> bool) (l : list A) :
  List.find f l = None <-> forall x, x ∈ l -> f x = false.
Proof.
  induction l as [|a l IH]; simpl.
  - split; [intros _ x Hx; inversion Hx | reflexivity].
  - destruct (f a) eqn:E.
    + split; [discriminate|]. intros H. rewrite H in E by left. discriminate.
    + rewrite IH. split.
      * intros H x Hx. apply elem_of_cons in Hx as [-> | Hx]; auto.
      * intros H x Hx. apply H. right. exact Hx.
Qed.

Section AvlFind.
Context {V : Type}.
Implicit Types (t : list (string * V)) (k key : string) (v : V).

Lemma avl_find_store_eq t key v v0 :
  avl_find t key = Some v0 -> avl_find (avl_store t key v) key = Some v.
Proof.
  induction t as [|[k u] t IH]; simpl; [discriminate|].
  destruct (avl_strcmp key k =? 0) eqn:E; simpl; rewrite E; auto.
Qed.

Lemma avl_find_store_ne t key v k' :
  k' <> key -> avl_find (avl_store t key v) k' = avl_find t k'.
Proof.
  intros Hne. induction t as [|[k u] t IH]; simpl; [reflexivity|].
  destruct (avl_strcmp key k =? 0) eqn:E; simpl.
  - apply avl_strcmp_eq in E. subst k.
    destruct (avl_strcmp k' key =? 0) eqn:E'; [|reflexivity].
    apply avl_strcmp_eq in E'. congruence.
  - rewrite IH. reflexivity.
Qed.

Lemma avl_find_delete_eq t key :
  NoDup (map fst t) -> avl_find (avl_delete t key) key = None.
Proof.
  intros Hnd. apply avl_find_None. intros Hin.
  apply list_elem_of_fmap in Hin as [[k v] [-> Hin]]. simpl in *.
  apply elem_of_avl_delete in Hin; [|exact Hnd]. tauto.
Qed.

Lemma avl_find_delete_ne t key k' :
  k' <> key -> avl_find (avl_delete t key) k' = avl_find t k'.
Proof.
  intros Hne. induction t as [|[k u] t IH]; simpl; [reflexivity|].
  destruct (avl_strcmp key k =? 0) eqn:E; simpl.
  - apply avl_strcmp_eq in E. subst k.
    destruct (avl_strcmp k' key =? 0) eqn:E'; [|reflexivity].
    apply avl_strcmp_eq in E'. congruence.
  - rewrite IH. reflexivity.
Qed.
End AvlFind.

(** ** Requests without a name, requests without instances *)

(** C6: a set request with no string attribute called "name" is answered
    with an error and leaves the whole state as it was; the answer is
    UBUS_STATUS_INVALID_ARGUMENT whenever the copy of the request could
    be allocated. *)
Theorem set_without_name_is_rejected w msg :
  (forall a, a ∈ blobmsg_attrs msg ->
     ~ (blobmsg_type a = BLOBMSG_TYPE_STRING /\ blobmsg_name a = "name")) ->
  exists r w',
    service_handle_set msg w = Some (r, w') /\
    services w' = services w /\
    heap w' = heap w /\
    trace w' = trace w /\
    r <> UBUS_STATUS_OK /\
    (hd false (oom w) = false -> r = UBUS_STATUS_INVALID_ARGUMENT).
Proof.
  intros Hno.
  assert (Htb : tb_at (blobmsg_parse service_attrs (blobmsg_attrs msg))
                  SERVICE_ATTR_NAME = None).
  { rewrite blobmsg_parse_find. simpl. apply find_none_iff. intros a Ha.
    apply blobmsg_parsed_elem in Ha.
    destruct (policy_match _ a) eqn:E; [|reflexivity].
    apply policy_match_spec in E; [|discriminate].
    exfalso. apply (Hno a Ha). exact E. }
  unfold service_handle_set, bind, out_of_memory.
  destruct (oom w) as [|[] rest]; simpl.
  - rewrite Htb. unfold ret. eexists _, _. split; [reflexivity|].
    repeat split; try discriminate.
  - unfold ret. eexists _, _. split; [reflexivity|].
    repeat split; try discriminate.
  - rewrite Htb. unfold ret. eexists _, _. split; [reflexivity|].
    repeat split; try discriminate.
Qed.

(** ** Running the instance operations *)

Lemma start_instance_run w i inst :
  heap w !! i = Some inst ->
  start_instance i w =
  Some (tt, set_heap (<[i := set_restart false inst]> (heap w))
              (set_trace (trace w ++ [CallStart i]) w)).
Proof. intros H. run. rewrite H. reflexivity. Qed.

Lemma free_instance_run w i inst :
  heap w !! i = Some inst ->
  free_instance i w =
  Some (tt, set_heap (delete i (heap w))
              (set_trace (trace w ++ [CallFree i]) w)).
Proof.
  intros H. unfold free_instance, free. run_with H.
  unfold set_heap, set_trace; simpl.
  rewrite !delete_insert_eq. reflexivity.
Qed.

Lemma calloc_instance_run w :
  hd false (oom w) = false ->
  calloc_instance w =
  Some (Some (brk w),
        {| heap := <[brk w := zero_instance]> (heap w);
           brk := Pos.succ (brk w); oom := tl (oom w);
           trace := trace w; services := services w |}).
Proof.
  intros H. unfold calloc_instance, bind, out_of_memory.
  destruct (oom w) as [|[] rest] eqn:E; simpl in *; try discriminate;
    rewrite ?E; reflexivity.
Qed.

Lemma init_instance_run w i cfg :
  heap w !! i = Some zero_instance ->
  init_instance i cfg w =
  Some (tt, set_heap (<[i := set_node_key None (new_instance 0 cfg)]>
                        (heap w)) w).
Proof.
  intros H. unfold init_instance. run_with H. reflexivity.
Qed.

Lemma no_oom_hd w : no_oom w -> hd false (oom w) = false.
Proof.
  unfold no_oom. destruct (oom w) as [|b rest]; [reflexivity|].
  intros H. inversion H; subst. reflexivity.
Qed.

Lemma no_oom_tl w : no_oom w -> Forall (fun b => b = false) (tl (oom w)).
Proof.
  unfold no_oom. destruct (oom w) as [|b rest]; [constructor|].
  intros H. inversion H; subst. assumption.
Qed.

Lemma heap_ok_fresh w : heap_ok w -> heap w !! brk w = None.
Proof.
  intros H. destruct (heap w !! brk w) eqn:E; [|reflexivity].
  assert (brk w < brk w)%positive by (apply H; rewrite E; eauto). lia.
Qed.

Lemma bind_run {A B} (m : M A) (k : A -> M B) w a w' :
  m w = Some (a, w') -> bind m k w = k a w'.
Proof. intros H. unfold bind. rewrite H. reflexivity. Qed.

Lemma store_run w i inst f :
  heap w !! i = Some inst ->
  store i f w = Some (tt, set_heap (<[i := f inst]> (heap w)) w).
Proof. intros H. unfold store. rewrite H. reflexivity. Qed.

(** ** Adding one submitted instance *)

Lemma service_instance_add_skip w t attr :
  blobmsg_type attr <> BLOBMSG_TYPE_TABLE ->
  service_instance_add t attr w = Some (t, w).
Proof.
  intros H. unfold service_instance_add.
  apply Z.eqb_neq in H. rewrite H. reflexivity.
Qed.

Lemma service_instance_add_new w t attr :
  blobmsg_type attr = BLOBMSG_TYPE_TABLE ->
  hd false (oom w) = false ->
  avl_find (avl t) (blobmsg_name attr) = None ->
  service_instance_add t attr w =
  Some (set_avl (avl_insert (avl t) (blobmsg_name attr) (brk w)) t,
        {| heap := <[brk w := new_instance (version t) attr]> (heap w);
           brk := Pos.succ (brk w); oom := tl (oom w);
           trace := trace w ++ [CallStart (brk w)];
           services := services w |}).
Proof.
  intros Hty Hoom Hfind. unfold service_instance_add.
  rewrite Hty. simpl.
  rewrite (bind_run _ _ _ _ _ (calloc_instance_run w Hoom)).
  erewrite bind_run
    by (apply init_instance_run; simpl; apply lookup_insert_eq).
  unfold vlist_add. simpl.
  erewrite bind_run by (apply store_run; simpl; apply lookup_insert_eq).
  erewrite bind_run by (apply store_run; simpl; apply lookup_insert_eq).
  rewrite Hfind. simpl.
  erewrite bind_run
    by (apply start_instance_run; simpl; apply lookup_insert_eq).
  unfold ret, set_heap, set_trace, new_instance, set_restart,
    set_node_version, set_node_key; simpl.
  rewrite !insert_insert_eq. reflexivity.
Qed.

Lemma service_instance_add_kept w t attr old inst c :
  blobmsg_type attr = BLOBMSG_TYPE_TABLE ->
  hd false (oom w) = false ->
  heap_ok w ->
  keep_old t = true ->
  avl_find (avl t) (blobmsg_name attr) = Some old ->
  heap w !! old = Some inst ->
  node_key inst <> None ->
  config inst = Some c ->
  blob_valid c = true ->
  blob_valid attr = true ->
  exists changed,
    (changed = false <-> blob_image c = blob_image attr) /\
    service_instance_add t attr w =
    Some (t,
          {| heap := <[old := set_config (Some attr)
                                (set_node_version (version t) inst)]> (heap w);
             brk := Pos.succ (brk w); oom := tl (oom w);
             trace := trace w ++ CallUpdate old (brk w) ::
               (if changed
                then CallStop old true ::
                     (if proc_pending (proc inst)
                      then [SysKill (proc_pid (proc inst)) SIGTERM] else [])
                else []) ++ [CallFree (brk w)];
             services := services w |}).
Proof.
  intros Hty Hoom Hok Hkeep Hfind Hold Hkey Hc Hv Hva.
  pose proof (heap_ok_fresh w Hok) as Hfresh.
  assert (Hne : old <> brk w) by congruence.
  destruct (node_key inst) as [k|] eqn:Hk; [clear Hkey|congruence].
  unfold service_instance_add. rewrite Hty. simpl.
  rewrite (bind_run _ _ _ _ _ (calloc_instance_run w Hoom)).
  erewrite bind_run
    by (apply init_instance_run; simpl; apply lookup_insert_eq).
  unfold vlist_add. simpl.
  erewrite bind_run by (apply store_run; simpl; apply lookup_insert_eq).
  erewrite bind_run by (apply store_run; simpl; apply lookup_insert_eq).
  rewrite Hfind, Hkeep. simpl.
  erewrite bind_run
    by (unfold avl_key, bind, load; simpl;
        rewrite !lookup_insert_ne by congruence; rewrite Hold, Hk;
        reflexivity).
  erewrite bind_run
    by (apply store_run; simpl; rewrite !lookup_insert_ne by congruence;
        exact Hold).
  simpl. rewrite !insert_insert_eq.
  match goal with
  | |- context [bind _ _ ?w1 = _] =>
      destruct (update_instance_run w1 old (brk w)
                  (set_node_version (version t) inst)
                  (new_instance (version t) attr) c attr)
        as [changed [Hiff Hrun]];
      [ simpl; apply lookup_insert_eq
      | simpl; rewrite lookup_insert_ne by congruence; apply lookup_insert_eq
      | exact Hc | reflexivity | exact Hv | exact Hva | ]
  end.
  exists changed. split; [exact Hiff|].
  unfold bind. rewrite Hrun.
  erewrite free_instance_run with (inst := new_instance (version t) attr).
  2:{ simpl. rewrite lookup_insert_ne by congruence.
      rewrite lookup_insert_ne by congruence. apply lookup_insert_eq. }
  unfold ret, set_heap, set_trace; simpl.
  rewrite insert_insert_eq.
  rewrite delete_insert_ne by congruence.
  rewrite delete_insert_eq, (delete_id _ _ Hfresh).
  rewrite <- !app_assoc. reflexivity.
Qed.

Lemma service_instance_add_dangling w t attr old inst :
  blobmsg_type attr = BLOBMSG_TYPE_TABLE ->
  hd false (oom w) = false ->
  heap_ok w ->
  avl_find (avl t) (blobmsg_name attr) = Some old ->
  heap w !! old = Some inst ->
  node_key inst = None ->
  service_instance_add t attr w = None.
Proof.
  intros Hty Hoom Hok Hfind Hold Hk.
  pose proof (heap_ok_fresh w Hok) as Hfresh.
  assert (Hne : old <> brk w) by congruence.
  unfold service_instance_add. rewrite Hty. simpl.
  rewrite (bind_run _ _ _ _ _ (calloc_instance_run w Hoom)).
  erewrite bind_run
    by (apply init_instance_run; simpl; apply lookup_insert_eq).
  unfold vlist_add. simpl.
  erewrite bind_run by (apply store_run; simpl; apply lookup_insert_eq).
  erewrite bind_run by (apply store_run; simpl; apply lookup_insert_eq).
  rewrite Hfind.
  unfold bind at 1, avl_key, bind, load. simpl.
  rewrite !lookup_insert_ne by congruence. rewrite Hold, Hk. reflexivity.
Qed.

(** ** The loop over the submitted instances *)

Lemma followed_by_app_r a b l1 l2 :
  followed_by a b l2 -> followed_by a b (l1 ++ l2).
Proof.
  intros (x & y & z & ->). exists (l1 ++ x), y, z.
  rewrite <- app_assoc. reflexivity.
Qed.

Lemma followed_by_app_l a b l1 l2 :
  followed_by a b l1 -> followed_by a b (l1 ++ l2).
Proof.
  intros (x & y & z & ->). exists x, y, (z ++ l2).
  rewrite <- !app_assoc. simpl. rewrite <- !app_assoc. reflexivity.
Qed.

Lemma submitted_snoc done a :
  submitted (done ++ [a]) =
  submitted done ++
    (if blobmsg_type a =? BLOBMSG_TYPE_TABLE then [blobmsg_name a] else []).
Proof.
  unfold submitted. rewrite List.filter_app, map_app. simpl.
  destruct (blobmsg_type a =? BLOBMSG_TYPE_TABLE); reflexivity.
Qed.

Lemma elem_of_submitted_snoc done a k :
  k ∈ submitted (done ++ [a]) <->
  k ∈ submitted done \/ (blobmsg_type a = BLOBMSG_TYPE_TABLE /\ k = blobmsg_name a).
Proof.
  rewrite submitted_snoc, elem_of_app.
  destruct (blobmsg_type a =? BLOBMSG_TYPE_TABLE) eqn:E.
  - apply Z.eqb_eq in E. rewrite list_elem_of_singleton. tauto.
  - apply Z.eqb_neq in E. split; [intros [H | H]; [tauto | inversion H]|].
    intros [H | [H _]]; [tauto | contradiction].
Qed.

Lemma adding_start w t :
  tree_ok w t -> heap_ok w -> no_oom w ->
  adding w (set_version (version t + 1) t) [] w
    (set_version (version t + 1) t) [].
Proof.
  intros (Hk & Hp & Hv & Hko & Hnd & Hn) Hh Ho.
  constructor; simpl; try assumption; try reflexivity.
  - lia.
  - symmetry. apply app_nil_r.
  - auto.
  - intros k Hk'. inversion Hk'.
  - intros k i Hin. destruct (Hn k i Hin) as [inst [Hi [Hnv Hc]]].
    exists inst. repeat split; try assumption; try lia.
    intros Hk'. inversion Hk'.
  - intros k i Hin. destruct (Hn k i Hin) as [inst [Hi [Hnv Hc]]].
    exists inst, inst. repeat split; try assumption.
    intros Hk'. inversion Hk'.
  - intros q Hq. inversion Hq.
  - intros k i Hin Hk'. exfalso. apply Hk'.
    apply (list_elem_of_fmap_2 fst) in Hin. exact Hin.
  - intros k i inst Hin Hi. right. exists inst. auto.
  - intros k i inst0 inst Hin H0 Hi. congruence.
Qed.

Lemma NoDup_fst_inj {A B} (l : list (A * B)) k i j :
  NoDup (map fst l) -> (k, i) ∈ l -> (k, j) ∈ l -> i = j.
Proof.
  induction l as [|[k' v] l IH]; simpl; intros Hnd Hi Hj.
  - inversion Hi.
  - apply NoDup_cons in Hnd as [Hk Hnd].
    apply elem_of_cons in Hi as [[= -> ->] | Hi];
      apply elem_of_cons in Hj as [[= <-] | Hj]; subst.
    + reflexivity.
    + exfalso. apply Hk. apply (list_elem_of_fmap_2 fst) in Hj. exact Hj.
    + exfalso. apply Hk. apply (list_elem_of_fmap_2 fst) in Hi. exact Hi.
    + apply IH; assumption.
Qed.

Lemma NoDup_snd_inj {A B} (l : list (A * B)) k k' i :
  NoDup (map snd l) -> (k, i) ∈ l -> (k', i) ∈ l -> k = k'.
Proof.
  induction l as [|[k0 v] l IH]; simpl; intros Hnd Hi Hj.
  - inversion Hi.
  - apply NoDup_cons in Hnd as [Hk Hnd].
    apply elem_of_cons in Hi as [[= -> ->] | Hi];
      apply elem_of_cons in Hj as [[= <-] | Hj]; subst.
    + reflexivity.
    + exfalso. apply Hk. apply (list_elem_of_fmap_2 snd) in Hj. exact Hj.
    + exfalso. apply Hk. apply (list_elem_of_fmap_2 snd) in Hi. exact Hi.
    + apply IH; assumption.
Qed.

Lemma elem_of_fst {A B} (l : list (A * B)) k :
  k ∈ map fst l <-> exists i, (k, i) ∈ l.
Proof.
  split.
  - intros H. apply list_elem_of_fmap in H as [[k' i] [-> H]]. eauto.
  - intros [i H]. apply (list_elem_of_fmap_2 fst) in H. exact H.
Qed.

Lemma elem_of_snd {A B} (l : list (A * B)) i :
  i ∈ map snd l <-> exists k, (k, i) ∈ l.
Proof.
  split.
  - intros H. apply list_elem_of_fmap in H as [[k i'] [-> H]]. eauto.
  - intros [k H]. apply (list_elem_of_fmap_2 snd) in H. exact H.
Qed.

Lemma adding_skip w0 t0 done w t ev attr :
  adding w0 t0 done w t ev ->
  blobmsg_type attr <> BLOBMSG_TYPE_TABLE ->
  adding w0 t0 (done ++ [attr]) w t ev.
Proof.
  intros A Hty.
  assert (Hsub : forall k,
            k ∈ submitted (done ++ [attr]) <-> k ∈ submitted done).
  { intros k. rewrite elem_of_submitted_snoc. tauto. }
  destruct A as [Av Apos Ak And Akeys Aptrs Ah Ab Ao As At Af Aold Asub
                   Alive Akept Afreed Anew Akey Asame].
  constructor; try assumption.
  - intros k Hk. apply Asub, Hsub, Hk.
  - intros k i Hin.
    destruct (Alive k i Hin) as (inst & H1 & H2 & H3 & H4 & H5).
    exists inst. rewrite Hsub. auto.
  - intros k i Hin.
    destruct (Akept k i Hin) as (inst0 & inst & H1 & H2 & H3 & H4 & H5 & H6).
    exists inst0, inst. rewrite Hsub. auto 10.
Qed.

Lemma adding_new w0 t0 done w t ev attr :
  adding w0 t0 done w t ev ->
  blobmsg_type attr = BLOBMSG_TYPE_TABLE ->
  blob_valid attr = true ->
  avl_find (avl t) (blobmsg_name attr) = None ->
  exists t' w',
    service_instance_add t attr w = Some (t', w') /\
    adding w0 t0 (done ++ [attr]) w' t' (ev ++ [CallStart (brk w)]).
Proof.
  intros A Hty Hva Hfind.
  destruct A as [Av Apos Ak And Akeys Aptrs Ah Ab Ao As At Af Aold Asub
                   Alive Akept Afreed Anew Akey Asame].
  eexists _, _. split.
  { apply service_instance_add_new; [exact Hty | apply no_oom_hd, Ao | exact Hfind]. }
  pose proof (heap_ok_fresh w Ah) as Hfresh.
  apply avl_find_None in Hfind.
  assert (Hnp : brk w ∉ map snd (avl t)).
  { intros Hin. apply elem_of_snd in Hin as [k Hin].
    destruct (Alive k _ Hin) as (inst & H1 & _). congruence. }
  assert (Hin' : forall k i,
            (k, i) ∈ avl_insert (avl t) (blobmsg_name attr) (brk w) <->
            (k, i) ∈ avl t \/ (k = blobmsg_name attr /\ i = brk w)).
  { intros k i. apply elem_of_avl_insert. exact Hfind. }
  assert (Hperm := avl_insert_perm (avl t) (blobmsg_name attr) (brk w) Hfind).
  constructor; simpl; try assumption.
  - rewrite Hperm. simpl. apply NoDup_cons. split; assumption.
  - rewrite Hperm. simpl. apply NoDup_cons. split; assumption.
  - unfold heap_ok; simpl. intros i [x Hi].
    destruct (decide (i = brk w)) as [-> | Hne]; [lia|].
    rewrite lookup_insert_ne in Hi by congruence.
    assert (i < brk w)%positive by (apply Ah; eauto). lia.
  - lia.
  - unfold no_oom; simpl. apply no_oom_tl, Ao.
  - rewrite At, app_assoc. reflexivity.
  - intros i Hi Hlt. rewrite lookup_insert_ne by lia. apply Af; assumption.
  - intros k i Hin. apply Hin'. left. apply Aold, Hin.
  - intros k Hk. apply elem_of_submitted_snoc in Hk as [Hk | [_ ->]].
    + apply elem_of_fst. apply Asub, elem_of_fst in Hk as [i Hi].
      exists i. apply Hin'. left. exact Hi.
    + apply elem_of_fst. exists (brk w). apply Hin'. right. tauto.
  - intros k i Hin. apply Hin' in Hin as [Hin | [-> ->]].
    + destruct (Alive k i Hin) as (inst & H1 & H2 & H3 & H4 & H5).
      assert (i <> brk w) by congruence.
      assert (k <> blobmsg_name attr).
      { intros ->. apply Hfind. apply elem_of_fst. eauto. }
      exists inst. rewrite lookup_insert_ne by congruence.
      rewrite elem_of_submitted_snoc. repeat split; try assumption; try lia.
      * intros [Hk | [_ Hk]]; [auto | contradiction].
      * intros Hk. apply H5. tauto.
    + exists (new_instance (version t) attr). rewrite lookup_insert_eq.
      repeat split; simpl; try lia.
      * unfold config_ok. simpl. exact Hva.
      * intros Hk. exfalso. apply Hk. apply elem_of_submitted_snoc. tauto.
  - intros k i Hin.
    destruct (Akept k i Hin) as (inst0 & inst & H1 & H2 & H3 & H4 & H5 & H6).
    assert (i <> brk w) by congruence.
    exists inst0, inst. rewrite lookup_insert_ne by congruence.
    repeat split; try assumption.
    intros Hk. apply elem_of_submitted_snoc in Hk as [Hk | [_ ->]].
    + destruct (H6 Hk) as [q Hq]. exists q. apply followed_by_app_l, Hq.
    + exfalso. apply Hfind. apply elem_of_fst. exists i. apply Aold, Hin.
  - intros q Hq. apply elem_of_app in Hq as [Hq | Hq].
    + destruct (Afreed q Hq) as [H1 H2].
      split; [lia|]. rewrite lookup_insert_ne by lia. exact H2.
    + apply list_elem_of_singleton in Hq. discriminate.
  - intros k i Hin Hk. apply Hin' in Hin as [Hin | [-> ->]].
    + destruct (Anew k i Hin Hk) as [H1 H2]. split; [exact H1|].
      apply elem_of_app. tauto.
    + split; [exact Ab|]. apply elem_of_app. right. left.
  - intros k i inst Hin Hi. apply Hin' in Hin as [Hin | [-> ->]].
    + assert (i <> brk w).
      { destruct (Alive k i Hin) as (x & H1 & _). congruence. }
      rewrite lookup_insert_ne in Hi by congruence.
      apply (Akey k i inst Hin Hi).
    + rewrite lookup_insert_eq in Hi. injection Hi as <-. left. reflexivity.
  - intros k i inst0 inst Hin H0 Hi.
    assert (i <> brk w).
    { destruct (Alive k i (Aold k i Hin)) as (x & H1 & _). congruence. }
    rewrite lookup_insert_ne in Hi by congruence.
    apply (Asame k i inst0 inst Hin H0 Hi).
Qed.

Lemma adding_kept w0 t0 done w t ev attr old :
  adding w0 t0 done w t ev ->
  blobmsg_type attr = BLOBMSG_TYPE_TABLE ->
  blob_valid attr = true ->
  avl_find (avl t) (blobmsg_name attr) = Some old ->
  (forall inst, heap w !! old = Some inst -> node_key inst <> None) ->
  exists w' evs,
    service_instance_add t attr w = Some (t, w') /\
    adding w0 t0 (done ++ [attr]) w' t (ev ++ evs).
Proof.
  intros A Hty Hva Hfind Hread.
  destruct A as [Av Apos Ak And Akeys Aptrs Ah Ab Ao As At Af Aold Asub
                   Alive Akept Afreed Anew Akey Asame].
  pose proof (avl_find_Some _ _ _ Hfind) as Hold.
  destruct (Alive _ _ Hold) as (inst & Hi & Hcfg & Hnv & _).
  unfold config_ok in Hcfg.
  destruct (config inst) as [c|] eqn:Hc; [|contradiction].
  destruct (service_instance_add_kept w t attr old inst c Hty
              (no_oom_hd w Ao) Ah Ak Hfind Hi (Hread inst Hi) Hc Hcfg Hva)
    as [changed [_ Hrun]].
  match type of Hrun with
  | _ = Some (_, {| trace := _ ++ ?l |}) => set (evs := l) in *
  end.
  assert (Hfb : followed_by (CallUpdate old (brk w)) (CallFree (brk w)) evs).
  { unfold evs. eexists [], _, []. reflexivity. }
  assert (Hfr : forall q, CallFree q ∈ evs -> q = brk w).
  { unfold evs. intros q Hq.
    apply elem_of_cons in Hq as [Hq | Hq]; [discriminate|].
    apply elem_of_app in Hq as [Hq | Hq].
    - destruct changed; [|inversion Hq].
      apply elem_of_cons in Hq as [Hq | Hq]; [discriminate|].
      destruct (proc_pending (proc inst)); [|inversion Hq].
      apply list_elem_of_singleton in Hq. discriminate.
    - apply list_elem_of_singleton in Hq. congruence. }
  clearbody evs.
  eexists _, _. split; [exact Hrun|].
  pose proof (heap_ok_fresh w Ah) as Hfresh.
  assert (Hne : old <> brk w) by congruence.
  assert (Hkeq : forall k i, (k, i) ∈ avl t ->
            (i = old <-> k = blobmsg_name attr)).
  { intros k i Hin. split; intros ->.
    - eapply NoDup_snd_inj; eassumption.
    - eapply NoDup_fst_inj; eassumption. }
  constructor; simpl; try assumption.
  - unfold heap_ok; simpl. intros i [x Hx].
    destruct (decide (i = old)) as [-> | Hio].
    + assert (old < brk w)%positive by (apply Ah; eauto). lia.
    + rewrite lookup_insert_ne in Hx by congruence.
      assert (i < brk w)%positive by (apply Ah; eauto). lia.
  - lia.
  - unfold no_oom; simpl. apply no_oom_tl, Ao.
  - rewrite At, app_assoc. reflexivity.
  - intros i Hi0 Hlt. rewrite lookup_insert_ne; [apply Af; assumption|].
    intros <-.
    destruct (decide (blobmsg_name attr ∈ map fst (avl t0))) as [Hk | Hk].
    + apply elem_of_fst in Hk as [i0 Hk].
      assert (i0 = old)
        by (eapply NoDup_fst_inj; [exact Akeys | apply Aold, Hk | exact Hold]).
      subst i0. apply Hi0. apply elem_of_snd. eauto.
    + destruct (Anew _ _ Hold Hk) as [Hge _]. lia.
  - intros k Hk. apply elem_of_submitted_snoc in Hk as [Hk | [_ ->]].
    + apply Asub, Hk.
    + apply elem_of_fst. eauto.
  - intros k i Hin. destruct (decide (i = old)) as [-> | Hio].
    + assert (k = blobmsg_name attr) by (apply (Hkeq k old Hin); reflexivity).
      subst k. eexists. rewrite lookup_insert_eq. split; [reflexivity|].
      simpl. split; [unfold config_ok; simpl; exact Hva|].
      split; [lia|]. split; [reflexivity|].
      intros Hk. exfalso. apply Hk. apply elem_of_submitted_snoc. tauto.
    + assert (k <> blobmsg_name attr).
      { intros Hk. apply Hio. apply (Hkeq k i Hin). exact Hk. }
      destruct (Alive k i Hin) as (inst' & H1 & H2 & H3 & H4 & H5).
      exists inst'. rewrite lookup_insert_ne by congruence.
      rewrite elem_of_submitted_snoc. repeat split; try assumption; try lia.
      * intros [Hk | [_ Hk]]; [auto | contradiction].
      * intros Hk. apply H5. tauto.
  - intros k i Hin.
    destruct (Akept k i Hin) as (inst0 & inst' & H1 & H2 & H3 & H4 & H5 & H6).
    destruct (decide (i = old)) as [-> | Hio].
    + assert (inst' = inst) by congruence. subst inst'.
      eexists inst0, _. rewrite lookup_insert_eq.
      split; [exact H1|]. split; [reflexivity|]. simpl.
      repeat split; try assumption.
      intros _. exists (brk w). apply followed_by_app_r, Hfb.
    + assert (k <> blobmsg_name attr).
      { intros Hk. apply Hio. apply (Hkeq k i (Aold _ _ Hin)). exact Hk. }
      exists inst0, inst'. rewrite lookup_insert_ne by congruence.
      repeat split; try assumption.
      intros Hk. apply elem_of_submitted_snoc in Hk as [Hk | [_ Hk]];
        [|contradiction].
      destruct (H6 Hk) as [q Hq]. exists q. apply followed_by_app_l, Hq.
  - intros q Hq. apply elem_of_app in Hq as [Hq | Hq].
    + destruct (Afreed q Hq) as [H1 H2].
      split; [lia|]. rewrite lookup_insert_ne by congruence. exact H2.
    + apply Hfr in Hq. subst q. split; [lia|].
      rewrite lookup_insert_ne by congruence. exact Hfresh.
  - intros k i Hin Hk. destruct (Anew k i Hin Hk) as [H1 H2].
    split; [exact H1|]. apply elem_of_app. tauto.
  - intros k i inst' Hin Hi'. destruct (decide (i = old)) as [-> | Hio].
    + rewrite lookup_insert_eq in Hi'. injection Hi' as <-. simpl.
      apply (Akey k old inst Hin Hi).
    + rewrite lookup_insert_ne in Hi' by congruence.
      apply (Akey k i inst' Hin Hi').
  - intros k i inst0 inst' Hin H0 Hi'.
    destruct (decide (i = old)) as [-> | Hio].
    + rewrite lookup_insert_eq in Hi'. injection Hi' as <-. simpl.
      apply (Asame k old inst0 inst Hin H0 Hi).
    + rewrite lookup_insert_ne in Hi' by congruence.
      apply (Asame k i inst0 inst' Hin H0 Hi').
Qed.

(** An entry either makes [vlist_add] read the key of a tracked instance
    that cannot be read, which the tree had before the loop, or it is
    added. *)
Lemma adding_step_cases w0 t0 done w t ev a :
  adding w0 t0 done w t ev ->
  (blobmsg_type a = BLOBMSG_TYPE_TABLE -> blob_valid a = true) ->
  (service_instance_add t a w = None /\ ~ keys_ok w0 t0) \/
  exists t1 w1 ev1,
    service_instance_add t a w = Some (t1, w1) /\
    adding w0 t0 (done ++ [a]) w1 t1 ev1.
Proof.
  intros A Hva.
  destruct (Z.eq_dec (blobmsg_type a) BLOBMSG_TYPE_TABLE) as [Hty | Hty].
  - assert (Hv : blob_valid a = true) by (apply Hva; exact Hty).
    destruct (avl_find (avl t) (blobmsg_name a)) as [old|] eqn:Hfind.
    + pose proof (avl_find_Some _ _ _ Hfind) as Hold.
      destruct (ad_live _ _ _ _ _ _ A _ _ Hold) as (inst & Hi & _).
      destruct (node_key inst) as [key|] eqn:Hkey.
      * right.
        destruct (adding_kept _ _ _ _ _ _ _ _ A Hty Hv Hfind)
          as (w1 & evs & Hrun & A1); [|eauto].
        intros inst' Hi'. congruence.
      * left. split.
        -- eapply service_instance_add_dangling; try eassumption.
           ++ apply no_oom_hd, (ad_oom _ _ _ _ _ _ A).
           ++ apply (ad_heap _ _ _ _ _ _ A).
        -- destruct (ad_key _ _ _ _ _ _ A _ _ _ Hold Hi)
             as [E | (inst0 & Hin0 & Hi0 & E)]; [congruence|].
           intros Hkeys. apply (Hkeys _ _ _ Hin0 Hi0). congruence.
    + right. destruct (adding_new _ _ _ _ _ _ _ A Hty Hv Hfind)
        as (t1 & w1 & Hrun & A1).
      eauto.
  - right. exists t, w, ev. split.
    + apply service_instance_add_skip, Hty.
    + apply adding_skip; assumption.
Qed.

(** The loop either stops at such an entry or runs to its end. *)
Lemma adding_loop_cases w0 t0 rest : forall done w t ev,
  adding w0 t0 done w t ev ->
  (forall a, a ∈ rest -> blobmsg_type a = BLOBMSG_TYPE_TABLE ->
     blob_valid a = true) ->
  (for_each rest service_instance_add t w = None /\ ~ keys_ok w0 t0) \/
  exists t' w' ev',
    for_each rest service_instance_add t w = Some (t', w') /\
    adding w0 t0 (done ++ rest) w' t' ev'.
Proof.
  induction rest as [|a rest IH]; intros done w t ev A Hva; simpl.
  - right. exists t, w, ev. rewrite app_nil_r.
    split; [reflexivity | exact A].
  - destruct (adding_step_cases w0 t0 done w t ev a A)
      as [[Hnone Hbad] | (t1 & w1 & ev1 & Hrun & A1)].
    { apply Hva. left. }
    { left. unfold bind. rewrite Hnone. auto. }
    unfold bind. rewrite Hrun.
    destruct (IH (done ++ [a]) w1 t1 ev1 A1)
      as [[Hnone Hbad] | (t' & w' & ev' & Hloop & A')].
    { intros x Hx. apply Hva. right. exact Hx. }
    { left. auto. }
    right. exists t', w', ev'.
    split; [exact Hloop|]. rewrite <- app_assoc in A'. exact A'.
Qed.

Lemma adding_loop w0 t0 rest done w t ev :
  adding w0 t0 done w t ev ->
  keys_ok w0 t0 ->
  (forall a, a ∈ rest -> blobmsg_type a = BLOBMSG_TYPE_TABLE ->
     blob_valid a = true) ->
  exists t' w' ev',
    for_each rest service_instance_add t w = Some (t', w') /\
    adding w0 t0 (done ++ rest) w' t' ev'.
Proof.
  intros A Hkeys Hva.
  destruct (adding_loop_cases w0 t0 rest done w t ev A Hva)
    as [[_ Hbad] | H]; [contradiction | exact H].
Qed.

(** ** Flushing a tree *)

Lemma avl_delete_app {V} (pre l : list (string * V)) k v :
  k ∉ map fst pre -> avl_delete (pre ++ (k, v) :: l) k = pre ++ l.
Proof.
  induction pre as [|[k' v'] pre IH]; simpl; intros Hk.
  - rewrite avl_strcmp_refl. reflexivity.
  - apply not_elem_of_cons in Hk as [Hne Hk].
    destruct (avl_strcmp k k' =? 0) eqn:E.
    + apply avl_strcmp_eq in E. congruence.
    + rewrite IH by exact Hk. reflexivity.
Qed.

Lemma remove_instance_run w t i inst :
  heap w !! i = Some inst ->
  service_instance_update t None (Some i) w =
  Some (tt, set_heap (delete i (heap w))
              (set_trace
                 (trace w ++ CallStop i false ::
                    (if proc_pending (proc inst)
                     then [SysKill (proc_pid (proc inst)) SIGTERM] else []) ++
                    [CallFree i])
                 w)).
Proof.
  intros H. unfold service_instance_update.
  erewrite bind_run by (apply stop_instance_run; exact H).
  erewrite free_instance_run by (simpl; exact H).
  unfold set_heap, set_trace; simpl. rewrite <- app_assoc. reflexivity.
Qed.

Lemma flush_body_keep w t k i :
  keeps (heap w) (version t) i = true ->
  flush_body t (k, i) w = Some (t, w).
Proof.
  unfold keeps. intros H. unfold bind, load.
  destruct (heap w !! i) as [inst|]; [|discriminate].
  rewrite H. reflexivity.
Qed.

Lemma flush_body_drop w t k i inst :
  heap w !! i = Some inst ->
  keeps (heap w) (version t) i = false ->
  no_delete t = false ->
  flush_body t (k, i) w =
  Some (set_avl (avl_delete (avl t) k) t,
        set_heap (delete i (heap w))
          (set_trace
             (trace w ++ CallStop i false ::
                (if proc_pending (proc inst)
                 then [SysKill (proc_pid (proc inst)) SIGTERM] else []) ++
                [CallFree i])
             w)).
Proof.
  unfold keeps. intros Hi H Hnd. unfold bind at 1. unfold load.
  rewrite Hi in H |- *. rewrite H.
  unfold vlist_delete. rewrite Hnd.
  erewrite bind_run by (apply remove_instance_run; exact Hi).
  reflexivity.
Qed.

Lemma vlist_flush_loop t :
  no_delete t = false ->
  forall l pre w,
  NoDup (map fst (pre ++ l)) ->
  NoDup (map snd l) ->
  (forall k i, (k, i) ∈ l -> is_Some (heap w !! i)) ->
  exists w' ev,
    for_each l flush_body (set_avl (pre ++ l) t) w =
    Some (set_avl
            (pre ++ List.filter (fun e => keeps (heap w) (version t) (snd e)) l)
            t, w') /\
    trace w' = trace w ++ ev /\
    brk w' = brk w /\ oom w' = oom w /\ services w' = services w /\
    (forall i, heap w' !! i = None \/ heap w' !! i = heap w !! i) /\
    (forall k i, (k, i) ∈ l ->
       if keeps (heap w) (version t) i
       then heap w' !! i = heap w !! i
       else heap w' !! i = None /\
            followed_by (CallStop i false) (CallFree i) ev) /\
    (forall i, i ∉ map snd l -> heap w' !! i = heap w !! i).
Proof.
  intros Hnd. induction l as [|[k i] l IH]; intros pre w Hkeys Hptrs Hlive.
  - exists w, []. simpl. rewrite !app_nil_r.
    split; [reflexivity|]. do 4 (split; [reflexivity|]).
    split; [intros i; right; reflexivity|].
    split; [intros k i Hin; inversion Hin | reflexivity].
  - simpl in Hptrs. apply NoDup_cons in Hptrs as [Hi Hptrs].
    destruct (Hlive k i) as [inst Hinst]; [left|].
    destruct (keeps (heap w) (version t) i) eqn:Ekeep.
    + (* the node stays *)
      destruct (IH (pre ++ [(k, i)]) w)
        as (w' & ev & Hrun & Ht & Hb & Ho & Hs & Hh & Hn & Hf).
      { rewrite <- app_assoc. exact Hkeys. }
      { exact Hptrs. }
      { intros k' i' Hin. apply (Hlive k' i'). right. exact Hin. }
      exists w', ev.
      rewrite <- app_assoc in Hrun. simpl in Hrun.
      cbn [for_each List.filter snd]. rewrite Ekeep.
      erewrite bind_run by (apply flush_body_keep; exact Ekeep).
      split; [rewrite Hrun, <- app_assoc; reflexivity|].
      split; [exact Ht|]. split; [exact Hb|]. split; [exact Ho|].
      split; [exact Hs|]. split; [exact Hh|]. split.
      * intros k' i' Hin. apply elem_of_cons in Hin as [[= -> ->] | Hin].
        -- rewrite Ekeep. apply Hf. exact Hi.
        -- apply (Hn k' i' Hin).
      * intros i' Hi'. apply Hf. simpl in Hi'.
        apply not_elem_of_cons in Hi' as [_ Hi']. exact Hi'.
    + (* the node goes *)
      assert (Hkpre : k ∉ map fst pre).
      { rewrite map_app in Hkeys. simpl in Hkeys.
        apply NoDup_app in Hkeys as (_ & Hdisj & _).
        intros Hk. apply (Hdisj k Hk). left. }
      set (evs := CallStop i false ::
                    (if proc_pending (proc inst)
                     then [SysKill (proc_pid (proc inst)) SIGTERM] else []) ++
                    [CallFree i]).
      set (w1 := set_heap (delete i (heap w)) (set_trace (trace w ++ evs) w)).
      destruct (IH pre w1)
        as (w' & ev & Hrun & Ht & Hb & Ho & Hs & Hh & Hn & Hf).
      { rewrite map_app in Hkeys |- *. simpl in Hkeys.
        apply NoDup_app in Hkeys as (H1 & H2 & H3).
        apply NoDup_cons in H3 as [_ H3].
        apply NoDup_app. split; [exact H1|]. split; [|exact H3].
        intros x Hx Hx'. apply (H2 x Hx). right. exact Hx'. }
      { exact Hptrs. }
      { intros k' i' Hin. simpl.
        rewrite lookup_delete_ne.
        - apply (Hlive k' i'). right. exact Hin.
        - intros <-. apply Hi. apply elem_of_snd. eauto. }
      assert (Hsame : forall e, e ∈ l ->
                keeps (heap w1) (version t) (snd e) =
                keeps (heap w) (version t) (snd e)).
      { intros [k' i'] Hin. simpl. unfold keeps.
        rewrite lookup_delete_ne; [reflexivity|].
        intros <-. apply Hi. apply elem_of_snd. eauto. }
      exists w', (evs ++ ev).
      cbn [for_each List.filter snd]. rewrite Ekeep.
      erewrite bind_run
        by (apply flush_body_drop with (inst := inst); assumption).
      cbn [avl set_avl]. rewrite avl_delete_app by exact Hkpre.
      fold evs. fold w1. split.
      { unfold set_avl in Hrun |- *. simpl in Hrun |- *. rewrite Hrun.
        f_equal. f_equal. f_equal. f_equal.
        apply List.filter_ext_in. intros e He. apply Hsame.
        apply list_elem_of_In. exact He. }
      split; [rewrite Ht; simpl; rewrite <- app_assoc; reflexivity|].
      split; [exact Hb|]. split; [exact Ho|]. split; [exact Hs|].
      split; [|split].
      * intros i'. destruct (Hh i') as [H | H]; [left; exact H|].
        rewrite H. simpl. destruct (decide (i = i')) as [-> | Hne].
        -- left. apply lookup_delete_eq.
        -- right. apply lookup_delete_ne. exact Hne.
      * intros k' i' Hin. apply elem_of_cons in Hin as [[= -> ->] | Hin].
        -- rewrite Ekeep. split.
           ++ rewrite Hf by exact Hi. simpl. apply lookup_delete_eq.
           ++ apply followed_by_app_l. unfold evs.
              exists [], (if proc_pending (proc inst)
                     then [SysKill (proc_pid (proc inst)) SIGTERM] else []), [].
              reflexivity.
        -- specialize (Hn k' i' Hin).
           pose proof (Hsame (k', i') Hin) as Hs'. cbn [snd] in Hs'.
           rewrite Hs' in Hn.
           destruct (keeps (heap w) (version t) i').
           ++ rewrite Hn. simpl. apply lookup_delete_ne.
              intros <-. apply Hi. apply elem_of_snd. eauto.
           ++ destruct Hn as [Hn1 Hn2]. split; [exact Hn1|].
              apply followed_by_app_r. exact Hn2.
      * intros i' Hi'. simpl in Hi'.
        apply not_elem_of_cons in Hi' as [Hne Hi'].
        rewrite Hf by exact Hi'. simpl. apply lookup_delete_ne. congruence.
Qed.

(** ** One reconciliation *)

Lemma list_filter_sublist {A} (f : A -> bool) (l : list A) :
  sublist (List.filter f l) l.
Proof.
  induction l as [|x l IH]; simpl; [constructor|].
  destruct (f x); [apply sublist_skip | apply sublist_cons]; exact IH.
Qed.

Lemma elem_of_list_filter_bool {A} (f : A -> bool) (l : list A) x :
  x ∈ List.filter f l <-> x ∈ l /\ f x = true.
Proof. rewrite !list_elem_of_In. apply List.filter_In. Qed.

Lemma vlist_tree_eta t : set_avl (avl t) t = t.
Proof. destruct t; reflexivity. Qed.

Lemma reconcile_cases w t attrs :
  tree_ok w t -> heap_ok w -> no_oom w ->
  version t < INT_MAX ->
  (forall a, a ∈ attrs -> blobmsg_type a = BLOBMSG_TYPE_TABLE ->
     blob_valid a = true) ->
  (reconcile t attrs w = None /\ ~ keys_ok w t) \/
  exists t' w' ev,
    reconcile t attrs w = Some (t', w') /\
    trace w' = trace w ++ ev /\
    services w' = services w /\
    heap_ok w' /\ no_oom w' /\ (brk w <= brk w')%positive /\
    tree_ok w' t' /\
    version t' = version t + 1 /\
    (forall k, k ∈ tracked t' <-> k ∈ submitted attrs) /\
    (forall k i, (k, i) ∈ avl t -> k ∉ submitted attrs ->
       heap w' !! i = None /\
       followed_by (CallStop i false) (CallFree i) ev) /\
    (forall k, k ∈ submitted attrs -> k ∉ tracked t ->
       exists i, (k, i) ∈ avl t' /\ heap w !! i = None /\ CallStart i ∈ ev) /\
    (forall k i, (k, i) ∈ avl t -> k ∈ submitted attrs ->
       (k, i) ∈ avl t' /\
       (exists q, followed_by (CallUpdate i q) (CallFree q) ev /\
                  heap w !! q = None /\ heap w' !! q = None) /\
       exists inst0 inst, heap w !! i = Some inst0 /\
         heap w' !! i = Some inst /\ proc inst = proc inst0 /\
         timeout inst = timeout inst0 /\ restart inst = restart inst0) /\
    (forall k i, (k, i) ∈ avl t' ->
       (k, i) ∈ avl t \/ (brk w <= i)%positive) /\
    (forall i, i ∉ map snd (avl t) -> (i < brk w)%positive ->
       heap w' !! i = heap w !! i) /\
    (forall k i inst, (k, i) ∈ avl t' -> heap w' !! i = Some inst ->
       node_key inst = Some k \/
       exists inst0, (k, i) ∈ avl t /\ heap w !! i = Some inst0 /\
                     node_key inst = node_key inst0) /\
    (forall k i inst0 inst, (k, i) ∈ avl t ->
       heap w !! i = Some inst0 -> heap w' !! i = Some inst ->
       node_key inst = node_key inst0).
Proof.
  intros Htree Hheap Hoom Hmax Hvalid.
  pose proof (adding_start w t Htree Hheap Hoom) as A0.
  destruct (adding_loop_cases w _ attrs [] w _ [] A0 Hvalid)
    as [[Hnone Hbad] | (t2 & w2 & ev2 & Hloop & A)].
  { left. split; [|exact Hbad]. unfold reconcile, vlist_update.
    apply Z.ltb_lt in Hmax. rewrite Hmax.
    unfold bind, ret. rewrite Hnone. reflexivity. }
  right.
  simpl in A.
  destruct A as [Av Apos Ak And Akeys Aptrs Ah Ab Ao As At Af Aold Asub
                   Alive Akept Afreed Anew Akey Asame].
  simpl in Av, Apos, Af, Aold, Akept, Anew, Akey, Asame.
  destruct (vlist_flush_loop t2 And (avl t2) [] w2)
    as (w' & ev3 & Hflush & Ht & Hb & Ho & Hs & Hh & Hn & Hf).
  { exact Akeys. } { exact Aptrs. }
  { intros k i Hin. destruct (Alive k i Hin) as (inst & Hi & _). eauto. }
  simpl in Hflush. rewrite vlist_tree_eta in Hflush.
  assert (Hkeeps : forall k i, (k, i) ∈ avl t2 ->
            (keeps (heap w2) (version t2) i = true <-> k ∈ submitted attrs)).
  { intros k i Hin.
    destruct (Alive k i Hin) as (inst & Hi & _ & Hnv & Hyes & Hno).
    unfold keeps. rewrite Hi.
    assert (Ev1 : (node_version inst =? -1) = false) by (apply Z.eqb_neq; lia).
    assert (Ev2 : (version t2 =? -1) = false) by (apply Z.eqb_neq; lia).
    rewrite Ev1, Ev2, orb_false_r, andb_true_r, Z.eqb_eq.
    split; [|exact Hyes]. intros E.
    destruct (decide (k ∈ submitted attrs)) as [Hk | Hk]; [exact Hk|].
    specialize (Hno Hk). lia. }
  set (t' := set_avl
               (List.filter (fun e => keeps (heap w2) (version t2) (snd e))
                  (avl t2)) t2) in *.
  assert (Hin' : forall k i, (k, i) ∈ avl t' <->
            (k, i) ∈ avl t2 /\ k ∈ submitted attrs).
  { intros k i. unfold t'. simpl. rewrite elem_of_list_filter_bool. simpl.
    split; intros [H1 H2]; (split; [exact H1|]); apply (Hkeeps k i H1); exact H2. }
  assert (Horigin : forall k i, (k, i) ∈ avl t2 ->
            (k, i) ∈ avl t \/ (brk w <= i)%positive).
  { intros k i Hin.
    destruct (decide (k ∈ map fst (avl t))) as [Hk | Hk].
    - apply elem_of_fst in Hk as [i0 Hk]. left.
      assert (i = i0)
        by (eapply NoDup_fst_inj; [exact Akeys | exact Hin | apply Aold, Hk]).
      subst. exact Hk.
    - right. apply (Anew k i Hin Hk). }
  exists t', w', (ev2 ++ ev3).
  split.
  { unfold reconcile, vlist_update.
    apply Z.ltb_lt in Hmax. rewrite Hmax.
    unfold bind, ret. rewrite Hloop. exact Hflush. }
  split; [rewrite Ht, At, app_assoc; reflexivity|].
  split; [congruence|].
  assert (Hheap' : heap_ok w').
  { intros i Hi. rewrite Hb. apply Ah.
    destruct (Hh i) as [E | E]; rewrite E in Hi; [|exact Hi].
    destruct Hi as [? Hi]. discriminate. }
  split; [exact Hheap'|].
  split; [unfold no_oom; rewrite Ho; exact Ao|].
  split; [rewrite Hb; exact Ab|].
  split.
  { (* the new tree is well formed *)
    unfold tree_ok, t'. simpl.
    split; [eapply sublist_NoDup; [exact Akeys|];
            apply (fmap_sublist fst), list_filter_sublist|].
    split; [eapply sublist_NoDup; [exact Aptrs|];
            apply (fmap_sublist snd), list_filter_sublist|].
    split; [lia|]. split; [exact Ak|]. split; [exact And|].
    intros k i Hin. apply (proj1 (Hin' k i)) in Hin as [Hin Hk].
    destruct (Alive k i Hin) as (inst & Hi & Hc & Hnv & Hyes & _).
    exists inst. specialize (Hn k i Hin).
    rewrite (proj2 (Hkeeps k i Hin) Hk) in Hn. rewrite Hn.
    split; [exact Hi|]. split; [exact Hnv | exact Hc]. }
  split; [unfold t'; simpl; exact Av|].
  split.
  { intros k. unfold tracked. rewrite elem_of_fst. split.
    - intros [i Hin]. apply (proj1 (Hin' k i)) in Hin.
      destruct Hin as [_ Hk]. exact Hk.
    - intros Hk. pose proof (Asub k Hk) as Hk'.
      apply elem_of_fst in Hk' as [i Hin]. exists i.
      apply (proj2 (Hin' k i)). split; assumption. }
  split.
  { intros k i Hin Hk. apply Aold in Hin. specialize (Hn k i Hin).
    destruct (keeps (heap w2) (version t2) i) eqn:E.
    - exfalso. apply Hk. apply (Hkeeps k i Hin). exact E.
    - destruct Hn as [Hn1 Hn2]. split; [exact Hn1|].
      apply followed_by_app_r. exact Hn2. }
  split.
  { intros k Hk Hnk. pose proof (Asub k Hk) as Hk'.
    apply elem_of_fst in Hk' as [i Hin]. exists i.
    destruct (Anew k i Hin Hnk) as [Hge Hstart].
    split; [apply (proj2 (Hin' k i)); split; assumption|]. split.
    - destruct (heap w !! i) eqn:E; [|reflexivity].
      assert (i < brk w)%positive by (apply Hheap; rewrite E; eauto). lia.
    - apply elem_of_app. tauto. }
  split.
  { intros k i Hin Hk.
    destruct (Akept k i Hin) as (inst0 & inst & H1 & H2 & H3 & H4 & H5 & H6).
    apply Aold in Hin.
    split; [apply (proj2 (Hin' k i)); split; assumption|]. split.
    - destruct (H6 Hk) as [q Hq]. exists q.
      split; [apply followed_by_app_l, Hq|].
      assert (Hq' : CallFree q ∈ ev2).
      { destruct Hq as (l1 & l2 & l3 & ->). rewrite elem_of_app. right.
        right. rewrite elem_of_app. right. left. }
      destruct (Afreed q Hq') as [Hrange Hnone]. split.
      + destruct (heap w !! q) eqn:E; [|reflexivity].
        assert (q < brk w)%positive by (apply Hheap; rewrite E; eauto). lia.
      + destruct (Hh q) as [E | E]; [exact E | congruence].
    - exists inst0, inst. specialize (Hn k i Hin).
      rewrite (proj2 (Hkeeps k i Hin) Hk) in Hn. rewrite Hn. auto. }
  split.
  { intros k i Hin. apply (proj1 (Hin' k i)) in Hin as [Hin _].
    apply (Horigin k i Hin). }
  split.
  { intros i Hi Hlt. rewrite <- (Af i Hi Hlt). apply Hf.
    intros Hin. apply elem_of_snd in Hin as [k Hin].
    destruct (Horigin k i Hin) as [H | H]; [|lia].
    apply Hi. apply elem_of_snd. eauto. }
  split.
  { intros k i inst Hin Hi. apply (proj1 (Hin' k i)) in Hin as [Hin Hk].
    specialize (Hn k i Hin).
    rewrite (proj2 (Hkeeps k i Hin) Hk) in Hn. rewrite Hn in Hi.
    apply (Akey k i inst Hin Hi). }
  intros k i inst0 inst Hin H0 Hi.
  destruct (Hh i) as [E | E]; [congruence|]. rewrite E in Hi.
  apply (Asame k i inst0 inst Hin H0 Hi).
Qed.

Lemma reconcile_run w t attrs :
  tree_ok w t -> heap_ok w -> no_oom w ->
  version t < INT_MAX ->
  keys_ok w t ->
  (forall a, a ∈ attrs -> blobmsg_type a = BLOBMSG_TYPE_TABLE ->
     blob_valid a = true) ->
  exists t' w' ev,
    reconcile t attrs w = Some (t', w') /\
    trace w' = trace w ++ ev /\
    services w' = services w /\
    heap_ok w' /\ no_oom w' /\ (brk w <= brk w')%positive /\
    tree_ok w' t' /\
    version t' = version t + 1 /\
    (forall k, k ∈ tracked t' <-> k ∈ submitted attrs) /\
    (forall k i, (k, i) ∈ avl t -> k ∉ submitted attrs ->
       heap w' !! i = None /\
       followed_by (CallStop i false) (CallFree i) ev) /\
    (forall k, k ∈ submitted attrs -> k ∉ tracked t ->
       exists i, (k, i) ∈ avl t' /\ heap w !! i = None /\ CallStart i ∈ ev) /\
    (forall k i, (k, i) ∈ avl t -> k ∈ submitted attrs ->
       (k, i) ∈ avl t' /\
       (exists q, followed_by (CallUpdate i q) (CallFree q) ev /\
                  heap w !! q = None /\ heap w' !! q = None) /\
       exists inst0 inst, heap w !! i = Some inst0 /\
         heap w' !! i = Some inst /\ proc inst = proc inst0 /\
         timeout inst = timeout inst0 /\ restart inst = restart inst0) /\
    (forall k i, (k, i) ∈ avl t' ->
       (k, i) ∈ avl t \/ (brk w <= i)%positive) /\
    (forall i, i ∉ map snd (avl t) -> (i < brk w)%positive ->
       heap w' !! i = heap w !! i) /\
    (forall k i inst, (k, i) ∈ avl t' -> heap w' !! i = Some inst ->
       node_key inst = Some k \/
       exists inst0, (k, i) ∈ avl t /\ heap w !! i = Some inst0 /\
                     node_key inst = node_key inst0) /\
    (forall k i inst0 inst, (k, i) ∈ avl t ->
       heap w !! i = Some inst0 -> heap w' !! i = Some inst ->
       node_key inst = node_key inst0).
Proof.
  intros Htree Hheap Hoom Hmax Hkeys Hvalid.
  destruct (reconcile_cases w t attrs Htree Hheap Hoom Hmax Hvalid)
    as [[_ Hbad] | H]; [contradiction | exact H].
Qed.

Lemma reconcile_given w t attrs t' w' :
  tree_ok w t -> heap_ok w -> no_oom w ->
  version t < INT_MAX ->
  (forall a, a ∈ attrs -> blobmsg_type a = BLOBMSG_TYPE_TABLE ->
     blob_valid a = true) ->
  reconcile t attrs w = Some (t', w') ->
  exists ev,
    trace w' = trace w ++ ev /\
    services w' = services w /\
    heap_ok w' /\ no_oom w' /\ (brk w <= brk w')%positive /\
    tree_ok w' t' /\
    version t' = version t + 1 /\
    (forall k, k ∈ tracked t' <-> k ∈ submitted attrs) /\
    (forall k i, (k, i) ∈ avl t -> k ∉ submitted attrs ->
       heap w' !! i = None /\
       followed_by (CallStop i false) (CallFree i) ev) /\
    (forall k, k ∈ submitted attrs -> k ∉ tracked t ->
       exists i, (k, i) ∈ avl t' /\ heap w !! i = None /\ CallStart i ∈ ev) /\
    (forall k i, (k, i) ∈ avl t -> k ∈ submitted attrs ->
       (k, i) ∈ avl t' /\
       (exists q, followed_by (CallUpdate i q) (CallFree q) ev /\
                  heap w !! q = None /\ heap w' !! q = None) /\
       exists inst0 inst, heap w !! i = Some inst0 /\
         heap w' !! i = Some inst /\ proc inst = proc inst0 /\
         timeout inst = timeout inst0 /\ restart inst = restart inst0) /\
    (forall k i, (k, i) ∈ avl t' ->
       (k, i) ∈ avl t \/ (brk w <= i)%positive) /\
    (forall i, i ∉ map snd (avl t) -> (i < brk w)%positive ->
       heap w' !! i = heap w !! i) /\
    (forall k i inst, (k, i) ∈ avl t' -> heap w' !! i = Some inst ->
       node_key inst = Some k \/
       exists inst0, (k, i) ∈ avl t /\ heap w !! i = Some inst0 /\
                     node_key inst = node_key inst0) /\
    (forall k i inst0 inst, (k, i) ∈ avl t ->
       heap w !! i = Some inst0 -> heap w' !! i = Some inst ->
       node_key inst = node_key inst0).
Proof.
  intros Htree Hheap Hoom Hmax Hvalid Hrun.
  destruct (reconcile_cases w t attrs Htree Hheap Hoom Hmax Hvalid)
    as [[Hnone _] | (t2 & w2 & ev & Hrun' & H)]; [congruence|].
  assert (t2 = t' /\ w2 = w') as [-> ->] by (split; congruence).
  exists ev. exact H.
Qed.

(** ** The release of the old configuration *)

Lemma leave_dangling_idem r inst :
  leave_dangling r (leave_dangling r inst) = leave_dangling r inst.
Proof. destruct r, inst; reflexivity. Qed.

Lemma dangle_lookup r lb nodes h i :
  dangle r lb nodes h !! i =
  if bool_decide (i ∈ lb /\ i ∈ nodes)
  then leave_dangling r <$> h !! i else h !! i.
Proof.
  induction nodes as [|n nodes IH]; simpl.
  - rewrite bool_decide_eq_false_2; [reflexivity|].
    intros [_ H]. inversion H.
  - destruct (bool_decide (n ∈ lb)) eqn:En.
    + apply bool_decide_eq_true in En.
      destruct (decide (i = n)) as [-> | Hne].
      * rewrite lookup_alter_eq, IH.
        rewrite (bool_decide_eq_true_2 (n ∈ lb /\ n ∈ n :: nodes))
          by (split; [exact En | left]).
        destruct (bool_decide (n ∈ lb /\ n ∈ nodes)); [|reflexivity].
        destruct (h !! n); simpl; [|reflexivity].
        rewrite leave_dangling_idem. reflexivity.
      * rewrite lookup_alter_ne by congruence. rewrite IH.
        apply (f_equal (fun b : bool =>
                 if b then leave_dangling r <$> h !! i else h !! i)).
        apply bool_decide_ext. rewrite elem_of_cons. tauto.
    + apply bool_decide_eq_false in En. rewrite IH.
      apply (f_equal (fun b : bool =>
               if b then leave_dangling r <$> h !! i else h !! i)).
      apply bool_decide_ext. rewrite elem_of_cons.
      split; [tauto|]. intros [H1 [-> | H2]]; [contradiction | tauto].
Qed.

Lemma freed_brk oc lb r t w : brk (freed oc lb r t w) = brk w.
Proof. destruct oc; reflexivity. Qed.

Lemma freed_oom oc lb r t w : oom (freed oc lb r t w) = oom w.
Proof. destruct oc; reflexivity. Qed.

Lemma freed_trace oc lb r t w : trace (freed oc lb r t w) = trace w.
Proof. destruct oc; reflexivity. Qed.

Lemma freed_services oc lb r t w :
  services (freed oc lb r t w) = services w.
Proof. destruct oc; reflexivity. Qed.

Lemma freed_None lb r t w : freed None lb r t w = w.
Proof. reflexivity. Qed.

(** What the release leaves of an object: nothing changes but the
    readability of its key and of its configuration. *)
Lemma freed_lookup oc lb r t w i :
  heap (freed oc lb r t w) !! i = heap w !! i \/
  exists inst c,
    oc = Some c /\ i ∈ lb /\ i ∈ map snd (avl t) /\
    heap w !! i = Some inst /\
    heap (freed oc lb r t w) !! i = Some (leave_dangling r inst).
Proof.
  destruct oc as [c|]; [|left; reflexivity]. simpl.
  rewrite dangle_lookup.
  destruct (bool_decide (i ∈ lb /\ i ∈ map snd (avl t))) eqn:E;
    [|left; reflexivity].
  apply bool_decide_eq_true in E as [H1 H2].
  destruct (heap w !! i) as [inst|] eqn:Hi; [|left; reflexivity].
  right. exists inst, c. auto.
Qed.

Lemma freed_kept c lb r t w i inst :
  i ∈ lb -> i ∈ map snd (avl t) -> heap w !! i = Some inst ->
  heap (freed (Some c) lb r t w) !! i = Some (leave_dangling r inst).
Proof.
  intros H1 H2 Hi. simpl. rewrite dangle_lookup.
  rewrite bool_decide_eq_true_2 by auto. rewrite Hi. reflexivity.
Qed.

Lemma freed_frame oc lb r t w i :
  i ∉ lb -> heap (freed oc lb r t w) !! i = heap w !! i.
Proof.
  intros Hi. destruct (freed_lookup oc lb r t w i)
    as [E | (inst & c & _ & H & _)]; [exact E | contradiction].
Qed.

Lemma freed_live oc lb r t w i :
  is_Some (heap (freed oc lb r t w) !! i) <-> is_Some (heap w !! i).
Proof.
  destruct (freed_lookup oc lb r t w i)
    as [E | (inst & c & _ & _ & _ & E1 & E2)].
  - rewrite E. reflexivity.
  - rewrite E1, E2. split; eauto.
Qed.

Lemma freed_gone oc lb r t w i :
  heap (freed oc lb r t w) !! i = None <-> heap w !! i = None.
Proof.
  rewrite !eq_None_not_Some. rewrite freed_live. reflexivity.
Qed.

Lemma freed_fields oc lb r t w i inst' :
  heap (freed oc lb r t w) !! i = Some inst' ->
  exists inst,
    heap w !! i = Some inst /\
    node_version inst' = node_version inst /\ name inst' = name inst /\
    restart inst' = restart inst /\ proc inst' = proc inst /\
    timeout inst' = timeout inst /\
    (config inst' = config inst \/ (r = false /\ config inst' = None)).
Proof.
  intros H. destruct (freed_lookup oc lb r t w i)
    as [E | (inst & c & _ & _ & _ & E1 & E2)].
  - exists inst'. rewrite <- E. auto 10.
  - rewrite E2 in H. injection H as <-. exists inst.
    split; [exact E1|]. destruct r, inst; simpl; auto 10.
Qed.

Lemma freed_heap_ok oc lb r t w : heap_ok w -> heap_ok (freed oc lb r t w).
Proof.
  intros H i Hi. rewrite freed_brk. apply H. apply freed_live in Hi. exact Hi.
Qed.

Lemma service_update_reconcile w s cfg tb cur tbl t' w' :
  tb_at tb SERVICE_ATTR_NAME = Some cur ->
  tb_at tb SERVICE_ATTR_INSTANCES = Some tbl ->
  reconcile (instances s) (blobmsg_attrs tbl) w = Some (t', w') ->
  service_update s cfg tb w =
  Some ((0, {| svc_name := Some (blobmsg_data cur); svc_config := Some cfg;
               instances := t' |}),
        freed (svc_config s) (map snd (avl (instances s))) true t' w').
Proof.
  intros Hname Hinst. unfold service_update, reconcile, bind, deref, ret.
  rewrite Hname, Hinst. simpl.
  destruct (vlist_update (instances s) w) as [[t1 w1]|]; [|discriminate].
  destruct (for_each (blobmsg_attrs tbl) service_instance_add t1 w1)
    as [[t2 w2]|]; [|discriminate].
  intros ->. reflexivity.
Qed.

Lemma service_update_undefined w s cfg tb cur tbl :
  tb_at tb SERVICE_ATTR_NAME = Some cur ->
  tb_at tb SERVICE_ATTR_INSTANCES = Some tbl ->
  reconcile (instances s) (blobmsg_attrs tbl) w = None ->
  service_update s cfg tb w = None.
Proof.
  intros Hname Hinst. unfold service_update, reconcile, bind, deref, ret.
  rewrite Hname, Hinst. simpl.
  destruct (vlist_update (instances s) w) as [[t1 w1]|]; [|reflexivity].
  destruct (for_each (blobmsg_attrs tbl) service_instance_add t1 w1)
    as [[t2 w2]|]; [|reflexivity].
  intros ->. reflexivity.
Qed.

Lemma service_update_plain w s cfg tb cur :
  tb_at tb SERVICE_ATTR_NAME = Some cur ->
  tb_at tb SERVICE_ATTR_INSTANCES = None ->
  service_update s cfg tb w =
  Some ((0, {| svc_name := Some (blobmsg_data cur); svc_config := Some cfg;
               instances := instances s |}),
        freed (svc_config s) (map snd (avl (instances s))) false
          (instances s) w).
Proof.
  intros Hname Hinst. unfold service_update, bind, deref, ret.
  rewrite Hname, Hinst. reflexivity.
Qed.

Lemma keeps_flush_all h i : keeps h (-1) i = false.
Proof.
  unfold keeps. destruct (h !! i); [|reflexivity].
  simpl. apply andb_false_r.
Qed.

Lemma tree_ok_frame w w' t :
  (forall i, i ∈ map snd (avl t) -> heap w' !! i = heap w !! i) ->
  tree_ok w t -> tree_ok w' t.
Proof.
  intros Hsame (H1 & H2 & H3 & H4 & H5 & H6).
  repeat (split; [assumption|]).
  intros k i Hin. destruct (H6 k i Hin) as (inst & Hi & Hrest).
  exists inst. rewrite Hsame; [tauto|]. apply elem_of_snd. eauto.
Qed.

Lemma service_delete_run w key s :
  tree_ok w (instances s) ->
  exists w' ev,
    service_delete key s w = Some (tt, w') /\
    trace w' = trace w ++ ev /\
    services w' = avl_delete (services w) key /\
    brk w' = brk w /\ oom w' = oom w /\
    (forall i, heap w' !! i = None \/ heap w' !! i = heap w !! i) /\
    (forall k i, (k, i) ∈ avl (instances s) ->
       heap w' !! i = None /\
       followed_by (CallStop i false) (CallFree i) ev) /\
    (forall i, i ∉ map snd (avl (instances s)) ->
       heap w' !! i = heap w !! i).
Proof.
  intros (Hk & Hp & Hv & Hko & Hnd & Hn).
  destruct (vlist_flush_loop (set_version (-1) (instances s)) Hnd
              (avl (instances s)) [] w)
    as (w' & ev & Hrun & Ht & Hb & Ho & Hs & Hh & Hgone & Hf).
  { exact Hk. } { exact Hp. }
  { intros k i Hin. destruct (Hn k i Hin) as (inst & Hi & _). eauto. }
  simpl in Hrun.
  exists (set_services (avl_delete (services w') key) w'), ev.
  split.
  { unfold service_delete, vlist_flush_all, vlist_flush.
    erewrite bind_run by exact Hrun. reflexivity. }
  simpl. split; [exact Ht|]. split; [rewrite Hs; reflexivity|].
  split; [exact Hb|]. split; [exact Ho|]. split; [exact Hh|].
  split; [|exact Hf].
  intros k i Hin. specialize (Hgone k i Hin). simpl in Hgone.
  rewrite keeps_flush_all in Hgone. exact Hgone.
Qed.

Lemma all_nodes_cons k s l :
  all_nodes ((k, s) :: l) = map snd (avl (instances s)) ++ all_nodes l.
Proof. reflexivity. Qed.

Lemma elem_of_all_nodes l i :
  i ∈ all_nodes l <->
  exists k s, (k, s) ∈ l /\ i ∈ map snd (avl (instances s)).
Proof.
  induction l as [|[k s] l IH].
  - split; [inversion 1 | intros (k & s & H & _); inversion H].
  - rewrite all_nodes_cons, elem_of_app, IH. split.
    + intros [H | (k' & s' & H1 & H2)].
      * exists k, s. split; [left | exact H].
      * exists k', s'. split; [right; exact H1 | exact H2].
    + intros (k' & s' & H1 & H2).
      apply elem_of_cons in H1 as [[= -> ->] | H1]; [left; exact H2|].
      right. eauto.
Qed.

Lemma delete_all_loop : forall l w,
  services w = l ->
  NoDup (map fst l) ->
  NoDup (all_nodes l) ->
  (forall k s, (k, s) ∈ l -> tree_ok w (instances s)) ->
  exists w' ev,
    for_each l (fun _ e => service_delete (fst e) (snd e)) tt w
      = Some (tt, w') /\
    trace w' = trace w ++ ev /\
    services w' = [] /\
    brk w' = brk w /\ oom w' = oom w /\
    (forall i, heap w' !! i = None \/ heap w' !! i = heap w !! i) /\
    (forall k s n i, (k, s) ∈ l -> (n, i) ∈ avl (instances s) ->
       heap w' !! i = None /\
       followed_by (CallStop i false) (CallFree i) ev) /\
    (forall i, i ∉ all_nodes l -> heap w' !! i = heap w !! i).
Proof.
  induction l as [|[k s] l IH]; intros w Hsv Hkeys Hnodes Htrees.
  - exists w, []. simpl. rewrite app_nil_r.
    split; [reflexivity|]. split; [reflexivity|]. split; [exact Hsv|].
    do 2 (split; [reflexivity|]). split; [intros i; right; reflexivity|].
    split; [|reflexivity]. intros k s n i Hin. inversion Hin.
  - simpl in Hkeys. apply NoDup_cons in Hkeys as [Hk Hkeys].
    rewrite all_nodes_cons in Hnodes.
    apply NoDup_app in Hnodes as (Hn1 & Hdisj & Hn2).
    destruct (service_delete_run w k s)
      as (w1 & ev1 & Hrun & Ht & Hs & Hb & Ho & Hh & Hgone & Hf).
    { apply (Htrees k s). left. }
    assert (Hs1 : services w1 = l).
    { rewrite Hs, Hsv. simpl. rewrite avl_strcmp_refl. reflexivity. }
    destruct (IH w1 Hs1 Hkeys Hn2)
      as (w' & ev & Hloop & Ht' & Hs' & Hb' & Ho' & Hh' & Hgone' & Hf').
    { intros k' s' Hin. apply (tree_ok_frame w).
      - intros i Hi. apply Hf. intros Hi'. apply (Hdisj i Hi').
        apply elem_of_all_nodes. eauto.
      - apply (Htrees k' s'). right. exact Hin. }
    exists w', (ev1 ++ ev). simpl.
    erewrite bind_run by exact Hrun.
    split; [exact Hloop|].
    split; [rewrite Ht', Ht, app_assoc; reflexivity|].
    split; [exact Hs'|]. split; [congruence|]. split; [congruence|].
    split.
    { intros i. destruct (Hh' i) as [E | E]; [left; exact E|].
      rewrite E. apply Hh. }
    split.
    { intros k' s' n i Hin Hi.
      apply elem_of_cons in Hin as [[= -> ->] | Hin].
      - destruct (Hgone n i Hi) as [H1 H2]. split.
        + destruct (Hh' i) as [E | E]; [exact E | congruence].
        + apply followed_by_app_l, H2.
      - destruct (Hgone' k' s' n i Hin Hi) as [H1 H2].
        split; [exact H1 | apply followed_by_app_r, H2]. }
    intros i Hi. rewrite all_nodes_cons in Hi.
    apply not_elem_of_app in Hi as [Hi1 Hi2].
    rewrite Hf' by exact Hi2. apply Hf, Hi1.
Qed.

(** C7: a delete request that names an unregistered service is answered
    with UBUS_STATUS_NOT_FOUND and changes nothing; one that names a
    registered service unlinks that service only, after every instance of
    it received [stop_instance] with [restart = false] and
    [free_instance], and the same request is then answered with
    UBUS_STATUS_NOT_FOUND; one without a name does so for every service,
    succeeds, and leaves a registry whose listing is empty. *)
Theorem service_handle_delete_spec w msg :
  registry_ok w ->
  match tb_at (blobmsg_parse service_del_attrs (blobmsg_attrs msg))
          SERVICE_DEL_NAME with
  | Some cur =>
      match avl_find (services w) (blobmsg_data cur) with
      | None =>
          service_handle_delete msg w = Some (UBUS_STATUS_NOT_FOUND, w)
      | Some s =>
          exists w' ev,
            service_handle_delete msg w = Some (UBUS_STATUS_OK, w') /\
            trace w' = trace w ++ ev /\
            services w' = avl_delete (services w) (blobmsg_data cur) /\
            avl_find (services w') (blobmsg_data cur) = None /\
            (forall k, k <> blobmsg_data cur ->
               avl_find (services w') k = avl_find (services w) k) /\
            (forall n i, (n, i) ∈ avl (instances s) ->
               heap w' !! i = None /\
               followed_by (CallStop i false) (CallFree i) ev) /\
            (forall i, i ∉ map snd (avl (instances s)) ->
               heap w' !! i = heap w !! i) /\
            service_handle_delete msg w' = Some (UBUS_STATUS_NOT_FOUND, w')
      end
  | None =>
      exists w' ev,
        service_handle_delete msg w = Some (UBUS_STATUS_OK, w') /\
        trace w' = trace w ++ ev /\
        services w' = [] /\
        service_handle_list w' = Some ((UBUS_STATUS_OK, []), w') /\
        (forall k s n i, (k, s) ∈ services w -> (n, i) ∈ avl (instances s) ->
           heap w' !! i = None /\
           followed_by (CallStop i false) (CallFree i) ev)
  end.
Proof.
  intros (Hheap & Hkeys & Hnodes & Htrees).
  unfold service_handle_delete.
  change SERVICE_ATTR_NAME with SERVICE_DEL_NAME.
  destruct (tb_at (blobmsg_parse service_del_attrs (blobmsg_attrs msg))
              SERVICE_DEL_NAME) as [cur|] eqn:Etb.
  - unfold bind, get_services; simpl.
    destruct (avl_find (services w) (blobmsg_data cur)) as [s|] eqn:Efind.
    + destruct (service_delete_run w (blobmsg_data cur) s)
        as (w' & ev & Hrun & Ht & Hs & Hb & Ho & Hh & Hgone & Hf).
      { apply (Htrees (blobmsg_data cur) s). apply avl_find_Some, Efind. }
      assert (Hnone : avl_find (services w') (blobmsg_data cur) = None).
      { rewrite Hs. apply avl_find_delete_eq, Hkeys. }
      exists w', ev. rewrite Hrun.
      split; [reflexivity|]. split; [exact Ht|]. split; [exact Hs|].
      split; [exact Hnone|].
      split; [intros k Hk; rewrite Hs; apply avl_find_delete_ne, Hk|].
      split; [exact Hgone|]. split; [exact Hf|].
      rewrite Hnone. reflexivity.
    + reflexivity.
  - destruct (delete_all_loop (services w) w eq_refl Hkeys Hnodes Htrees)
      as (w' & ev & Hloop & Ht & Hs & _ & _ & _ & Hgone & _).
    exists w', ev. unfold bind at 1 2, get_services at 1.
    rewrite Hloop.
    split; [reflexivity|]. split; [exact Ht|]. split; [exact Hs|].
    split; [|exact Hgone].
    unfold service_handle_list, bind, get_services, ret. rewrite Hs.
    reflexivity.
Qed.

(** ** The restart flag *)

Lemma preserves_ret {A} (a : A) : preserves (ret a).
Proof. intros w a' w' H [= <- <-]. exact H. Qed.

Lemma preserves_undefined {A} : preserves (@undefined A).
Proof. intros w a w' _ H. discriminate. Qed.

Lemma preserves_bind {A B} (m : M A) (k : A -> M B) :
  preserves m -> (forall a, preserves (k a)) -> preserves (bind m k).
Proof.
  intros Hm Hk w b w' Hw. unfold bind.
  destruct (m w) as [[a w1]|] eqn:E; [|discriminate].
  intros H. eapply Hk; [|exact H]. eapply Hm; eassumption.
Qed.

Lemma preserves_emit e : preserves (emit e).
Proof. intros w a w' H [= <- <-]. exact H. Qed.

Lemma preserves_load i : preserves (load i).
Proof.
  intros w a w' H. unfold load. destruct (heap w !! i); [|discriminate].
  intros [= <- <-]. exact H.
Qed.

Lemma preserves_deref {A} (o : option A) : preserves (deref o).
Proof. destruct o; [apply preserves_ret | apply preserves_undefined]. Qed.

Lemma preserves_store i f :
  (forall inst, restart inst = false -> restart (f inst) = false) ->
  preserves (store i f).
Proof.
  intros Hf w a w' H. unfold store.
  destruct (heap w !! i) as [inst|] eqn:E; [|discriminate].
  intros [= <- <-] j instj. simpl.
  destruct (decide (i = j)) as [<- | Hne].
  - rewrite lookup_insert_eq. intros [= <-]. apply Hf. eapply H, E.
  - rewrite lookup_insert_ne by exact Hne. apply H.
Qed.

Lemma preserves_free i : preserves (free i).
Proof.
  intros w a w' H. unfold free.
  destruct (heap w !! i) as [inst|] eqn:E; [|discriminate].
  intros [= <- <-] j instj. simpl. intros Hj.
  apply lookup_delete_Some in Hj as [_ Hj]. eapply H, Hj.
Qed.

Lemma preserves_out_of_memory : preserves out_of_memory.
Proof.
  intros w a w' H. unfold out_of_memory.
  destruct (oom w); intros [= <- <-]; exact H.
Qed.

Lemma preserves_calloc_instance : preserves calloc_instance.
Proof.
  unfold calloc_instance. apply preserves_bind;
    [apply preserves_out_of_memory|].
  intros [|]; [apply preserves_ret|].
  intros w a w' H [= <- <-] j instj. simpl.
  destruct (decide (brk w = j)) as [<- | Hne].
  - rewrite lookup_insert_eq. intros [= <-]. reflexivity.
  - rewrite lookup_insert_ne by exact Hne. apply H.
Qed.

Lemma preserves_get_services : preserves get_services.
Proof. intros w a w' H [= <- <-]. exact H. Qed.

Lemma preserves_put_services l : preserves (put_services l).
Proof. intros w a w' H [= <- <-]. exact H. Qed.

Lemma preserves_for_each {A S} (l : list A) (body : S -> A -> M S) :
  (forall s x, preserves (body s x)) -> forall s, preserves (for_each l body s).
Proof.
  intros Hb. induction l as [|x l IH]; intros s; simpl.
  - apply preserves_ret.
  - apply preserves_bind; [apply Hb | intros s'; apply IH].
Qed.

Lemma preserves_free_config oc lb r t : preserves (free_config oc lb r t).
Proof.
  intros w a w' H [= <- <-] j instj Hj.
  apply freed_fields in Hj as (inst & Hi & _ & _ & Hr & _).
  rewrite Hr. eapply H, Hi.
Qed.

Create HintDb pres.
#[local] Hint Resolve preserves_emit preserves_load preserves_free
  preserves_out_of_memory preserves_calloc_instance preserves_get_services
  preserves_put_services preserves_free_config : pres.

Ltac pres_store :=
  apply preserves_store; intros [? ? ? ? ? [? ? ?] [? ?]] ?; simpl in *;
  repeat match goal with
         | |- context [if ?b then _ else _] => destruct b; simpl
         end;
  first [assumption | reflexivity].

Ltac pres :=
  repeat first
    [ apply preserves_ret
    | apply preserves_undefined
    | apply preserves_deref
    | solve [auto with pres nocore]
    | apply preserves_bind; [|intros ?]
    | pres_store
    | progress cbv beta zeta
    | match goal with
      | |- preserves (if ?b then _ else _) => destruct b
      | |- preserves (match ?o with Some _ => _ | None => _ end) =>
          destruct o
      | |- preserves (match ?o with instance_exit_cb => _ end) => destruct o
      | |- preserves (match ?o with instance_timeout_cb => _ end) =>
          destruct o
      end ].

Lemma preserves_start_instance i : preserves (start_instance i).
Proof. unfold start_instance. pres. Qed.

Lemma preserves_uloop_timeout_cancel i : preserves (uloop_timeout_cancel i).
Proof. unfold uloop_timeout_cancel. pres. Qed.

Lemma preserves_uloop_process_delete i : preserves (uloop_process_delete i).
Proof. unfold uloop_process_delete. pres. Qed.

#[local] Hint Resolve preserves_start_instance preserves_uloop_timeout_cancel
  preserves_uloop_process_delete : pres.

Lemma preserves_instance_exit i r : preserves (instance_exit i r).
Proof. unfold instance_exit. pres. Qed.

#[local] Hint Resolve preserves_instance_exit : pres.

Lemma preserves_instance_timeout i : preserves (instance_timeout i).
Proof. unfold instance_timeout, call_proc_cb, kill. pres. Qed.

Lemma preserves_stop_instance i r : preserves (stop_instance i r).
Proof. unfold stop_instance, kill. pres. Qed.

#[local] Hint Resolve preserves_instance_timeout preserves_stop_instance : pres.

Lemma preserves_instance_config_changed i j :
  preserves (instance_config_changed i j).
Proof. unfold instance_config_changed. pres. Qed.

#[local] Hint Resolve preserves_instance_config_changed : pres.

Lemma preserves_update_instance i j : preserves (update_instance i j).
Proof. unfold update_instance. pres. Qed.

Lemma preserves_free_instance i : preserves (free_instance i).
Proof. unfold free_instance. pres. Qed.

Lemma preserves_init_instance i c : preserves (init_instance i c).
Proof. unfold init_instance. pres. Qed.

#[local] Hint Resolve preserves_update_instance preserves_free_instance
  preserves_init_instance : pres.

Lemma preserves_service_instance_update t n o :
  preserves (service_instance_update t n o).
Proof. unfold service_instance_update. destruct o, n; pres. Qed.

#[local] Hint Resolve preserves_service_instance_update : pres.

Lemma preserves_vlist_add t i k :
  preserves (vlist_add service_instance_update t i k).
Proof. unfold vlist_add, avl_key. pres. Qed.

Lemma preserves_vlist_delete t k i :
  preserves (vlist_delete service_instance_update t k i).
Proof. unfold vlist_delete. pres. Qed.

#[local] Hint Resolve preserves_vlist_add preserves_vlist_delete : pres.

Lemma preserves_vlist_flush t :
  preserves (vlist_flush service_instance_update t).
Proof.
  unfold vlist_flush. apply preserves_for_each. intros s [k i]. pres.
Qed.

Lemma preserves_service_instance_add t a :
  preserves (service_instance_add t a).
Proof. unfold service_instance_add. pres. Qed.

#[local] Hint Resolve preserves_vlist_flush preserves_service_instance_add
  : pres.

Lemma preserves_service_update s c tb : preserves (service_update s c tb).
Proof.
  unfold service_update, vlist_update. pres.
  apply preserves_for_each. intros; pres.
Qed.

Lemma preserves_service_delete k s : preserves (service_delete k s).
Proof. unfold service_delete, vlist_flush_all. pres. Qed.

#[local] Hint Resolve preserves_service_update preserves_service_delete : pres.

Lemma preserves_service_handle_set msg : preserves (service_handle_set msg).
Proof. unfold service_handle_set, service_alloc. pres. Qed.

Lemma preserves_service_handle_delete msg :
  preserves (service_handle_delete msg).
Proof.
  unfold service_handle_delete. pres.
  apply preserves_for_each. intros; pres.
Qed.

Lemma preserves_service_handle_list : preserves service_handle_list.
Proof. unfold service_handle_list. pres. Qed.

Lemma preserves_uloop_handle_process i r :
  preserves (uloop_handle_process i r).
Proof. unfold uloop_handle_process, call_proc_cb. pres. Qed.

Lemma preserves_uloop_process_timeout i :
  preserves (uloop_process_timeout i).
Proof. unfold uloop_process_timeout, call_timeout_cb. pres. Qed.

Lemma step_restart_clear w e w' :
  restart_clear w -> step w e w' -> restart_clear w'.
Proof.
  intros Hw Hs. inversion Hs; subst.
  - eapply preserves_service_handle_set; eassumption.
  - eapply preserves_service_handle_list; eassumption.
  - eapply preserves_service_handle_delete; eassumption.
  - eapply preserves_uloop_handle_process; eassumption.
  - eapply preserves_uloop_process_timeout; eassumption.
Qed.

Lemma reachable_restart_clear w : reachable w -> restart_clear w.
Proof.
  induction 1 as [answers | w e w' _ IH Hs].
  - intros i inst H. simpl in H. rewrite lookup_empty in H. discriminate.
  - eapply step_restart_clear; eassumption.
Qed.

Lemma instance_exit_idle w i r w' :
  restart_clear w ->
  instance_exit i r w = Some (tt, w') ->
  trace w' = trace w.
Proof.
  intros Hw. run.
  destruct (heap w !! i) as [[nv nk nm rs cf pr [tp tc]]|] eqn:E;
    [|discriminate].
  assert (rs = false) by (apply (Hw i _ E)). subst rs.
  hsimpl. destruct tp; hsimpl; intros [= <-]; reflexivity.
Qed.

Lemma uloop_handle_process_idle w i r w' :
  restart_clear w ->
  uloop_handle_process i r w = Some (tt, w') ->
  trace w' = trace w.
Proof.
  intros Hw. unfold uloop_handle_process, bind.
  destruct (uloop_process_delete i w) as [[[] w1]|] eqn:E1; [|discriminate].
  assert (Hw1 : restart_clear w1)
    by (eapply preserves_uloop_process_delete; eassumption).
  assert (Ht1 : trace w1 = trace w).
  { revert E1. run. destruct (heap w !! i); [|discriminate].
    intros [= <-]. reflexivity. }
  unfold load. destruct (heap w1 !! i) as [inst|]; [|discriminate].
  unfold call_proc_cb. destruct (proc_cb (proc inst)) as [[]|];
    [|discriminate].
  intros H. rewrite <- Ht1. eapply instance_exit_idle; eassumption.
Qed.

Lemma uloop_process_timeout_idle w i w' :
  restart_clear w ->
  uloop_process_timeout i w = Some (tt, w') ->
  forall j, CallStart j ∈ trace w' -> CallStart j ∈ trace w.
Proof.
  intros Hw. unfold uloop_process_timeout, bind.
  destruct (uloop_timeout_cancel i w) as [[[] w1]|] eqn:E1; [|discriminate].
  assert (Hw1 : restart_clear w1)
    by (eapply preserves_uloop_timeout_cancel; eassumption).
  assert (Ht1 : trace w1 = trace w).
  { revert E1. run. destruct (heap w !! i); [|discriminate].
    intros [= <-]. reflexivity. }
  unfold load at 1. destruct (heap w1 !! i) as [inst|]; [|discriminate].
  unfold call_timeout_cb. destruct (timeout_cb (timeout inst)) as [[]|].
  2:{ intros [= <-]. rewrite Ht1. auto. }
  unfold instance_timeout, bind.
  unfold load at 1. destruct (heap w1 !! i) as [inst1|]; [|discriminate].
  unfold kill, emit.
  set (w2 := set_trace (trace w1 ++ [SysKill (proc_pid (proc inst1)) SIGKILL]) w1).
  assert (Hw2 : restart_clear w2) by exact Hw1.
  destruct (uloop_process_delete i w2) as [[[] w3]|] eqn:E3; [|discriminate].
  assert (Hw3 : restart_clear w3)
    by (eapply preserves_uloop_process_delete; eassumption).
  assert (Ht3 : trace w3 = trace w2).
  { revert E3. run. destruct (heap w1 !! i); [|discriminate].
    intros [= <-]. reflexivity. }
  unfold load. destruct (heap w3 !! i) as [inst3|]; [|discriminate].
  unfold call_proc_cb. destruct (proc_cb (proc inst3)) as [[]|];
    [|discriminate].
  intros H j. rewrite (instance_exit_idle _ _ _ _ Hw3 H), Ht3.
  unfold w2. simpl. rewrite Ht1, elem_of_app, list_elem_of_singleton.
  intros [Hj | Hj]; [exact Hj | discriminate].
Qed.

(** C9: in every reachable state the restart flag of every instance is
    clear; hence the exit handler never calls [start_instance] there, and
    no delivery of a process exit or of a timer expiry adds a start to
    the trace. *)
Theorem restart_flag_stays_clear w :
  reachable w ->
  (forall i inst, heap w !! i = Some inst -> restart inst = false) /\
  (forall i r w', instance_exit i r w = Some (tt, w') ->
     trace w' = trace w) /\
  (forall i r w', step w (ProcessExit i r) w' -> trace w' = trace w) /\
  (forall i w' j, step w (TimerExpiry i) w' ->
     CallStart j ∈ trace w' -> CallStart j ∈ trace w).
Proof.
  intros Hr. pose proof (reachable_restart_clear w Hr) as Hw.
  split; [exact Hw|].
  split; [intros i r w'; apply instance_exit_idle, Hw|].
  split.
  - intros i r w' Hs. inversion Hs; subst.
    eapply uloop_handle_process_idle; eassumption.
  - intros i w' j Hs. inversion Hs; subst.
    eapply uloop_process_timeout_idle; eassumption.
Qed.

(** ** The registry stays well formed *)

Lemma elem_of_all_nodes_store l k s' i :
  i ∈ all_nodes (avl_store l k s') ->
  i ∈ all_nodes l \/ i ∈ map snd (avl (instances s')).
Proof.
  induction l as [|[k1 s1] l IH]; simpl; [inversion 1|].
  destruct (avl_strcmp k k1 =? 0); rewrite !all_nodes_cons, !elem_of_app.
  - tauto.
  - intros [H | H]; [tauto|]. destruct (IH H); tauto.
Qed.

Lemma NoDup_all_nodes_store l k s s' :
  NoDup (map fst l) -> NoDup (all_nodes l) -> (k, s) ∈ l ->
  NoDup (map snd (avl (instances s'))) ->
  (forall i, i ∈ map snd (avl (instances s')) ->
     i ∈ map snd (avl (instances s)) \/ i ∉ all_nodes l) ->
  NoDup (all_nodes (avl_store l k s')).
Proof.
  induction l as [|[k1 s1] l IH]; simpl; intros Hkeys Hnd Hin Hs' Horigin;
    [inversion Hin|].
  apply NoDup_cons in Hkeys as [Hk1 Hkeys].
  rewrite all_nodes_cons in Hnd.
  apply NoDup_app in Hnd as (Hn1 & Hdisj & Hn2).
  destruct (avl_strcmp k k1 =? 0) eqn:E.
  - apply avl_strcmp_eq in E. subst k1.
    apply elem_of_cons in Hin as [[= ->] | Hin].
    2:{ exfalso. apply Hk1. apply elem_of_fst. eauto. }
    rewrite all_nodes_cons. apply NoDup_app.
    split; [exact Hs'|]. split; [|exact Hn2].
    intros i Hi Hi'. destruct (Horigin i Hi) as [H | H].
    + apply (Hdisj i H Hi').
    + apply H. rewrite all_nodes_cons, elem_of_app. tauto.
  - apply avl_strcmp_neq in E.
    apply elem_of_cons in Hin as [[= -> ->] | Hin]; [congruence|].
    rewrite all_nodes_cons. apply NoDup_app. split; [exact Hn1|].
    split.
    + intros i Hi Hi'. apply elem_of_all_nodes_store in Hi' as [Hi' | Hi'].
      * apply (Hdisj i Hi Hi').
      * destruct (Horigin i Hi') as [H | H].
        -- apply (Hdisj i Hi). apply elem_of_all_nodes. eauto.
        -- apply H. rewrite all_nodes_cons, elem_of_app. tauto.
    + apply IH; try assumption.
      intros i Hi. destruct (Horigin i Hi) as [H | H]; [tauto|].
      right. intros Hi'. apply H. rewrite all_nodes_cons, elem_of_app. tauto.
Qed.

Lemma elem_of_all_nodes_insert l k s' i :
  k ∉ map fst l ->
  i ∈ all_nodes (avl_insert l k s') <->
  i ∈ all_nodes l \/ i ∈ map snd (avl (instances s')).
Proof.
  intros Hk. rewrite !elem_of_all_nodes. split.
  - intros (k1 & s1 & Hin & Hi).
    apply elem_of_avl_insert in Hin as [Hin | [-> ->]]; [|tauto|exact Hk].
    left. eauto.
  - intros [(k1 & s1 & Hin & Hi) | Hi].
    + exists k1, s1. split; [|exact Hi]. apply elem_of_avl_insert; tauto.
    + exists k, s'. split; [|exact Hi]. apply elem_of_avl_insert; tauto.
Qed.

Lemma NoDup_all_nodes_insert l k s' :
  k ∉ map fst l -> NoDup (all_nodes l) ->
  NoDup (map snd (avl (instances s'))) ->
  (forall i, i ∈ map snd (avl (instances s')) -> i ∉ all_nodes l) ->
  NoDup (all_nodes (avl_insert l k s')).
Proof.
  induction l as [|[k1 s1] l IH]; simpl; intros Hk Hnd Hs' Hfresh.
  - rewrite all_nodes_cons. apply NoDup_app.
    split; [exact Hs'|]. split; [exact Hfresh | exact Hnd].
  - apply not_elem_of_cons in Hk as [Hne Hk].
    destruct (avl_strcmp k k1 =? 0) eqn:E.
    { apply avl_strcmp_eq in E. congruence. }
    destruct (avl_strcmp k k1 <? 0).
    + rewrite all_nodes_cons. apply NoDup_app.
      split; [exact Hs'|]. split; [exact Hfresh | exact Hnd].
    + rewrite all_nodes_cons in Hnd |- *.
      apply NoDup_app in Hnd as (Hn1 & Hdisj & Hn2).
      apply NoDup_app. split; [exact Hn1|]. split.
      * intros i Hi Hi'.
        apply (proj1 (elem_of_all_nodes_insert _ _ _ _ Hk)) in Hi'
          as [Hi' | Hi'].
        -- apply (Hdisj i Hi Hi').
        -- apply (Hfresh i Hi'). rewrite all_nodes_cons, elem_of_app. tauto.
      * apply IH; try assumption. intros i Hi Hi'.
        apply (Hfresh i Hi). rewrite all_nodes_cons, elem_of_app. tauto.
Qed.

Lemma all_nodes_disjoint l k1 s1 k2 s2 i :
  NoDup (all_nodes l) -> (k1, s1) ∈ l -> (k2, s2) ∈ l -> k1 <> k2 ->
  i ∈ map snd (avl (instances s1)) -> i ∈ map snd (avl (instances s2)) ->
  False.
Proof.
  induction l as [|[k s] l IH]; intros Hnd H1 H2 Hne Hi1 Hi2;
    [inversion H1|].
  rewrite all_nodes_cons in Hnd. apply NoDup_app in Hnd as (_ & Hdisj & Hnd).
  apply elem_of_cons in H1 as [[= -> ->] | H1];
    apply elem_of_cons in H2 as [[= -> ->] | H2].
  - congruence.
  - apply (Hdisj i Hi1). apply elem_of_all_nodes. eauto.
  - apply (Hdisj i Hi2). apply elem_of_all_nodes. eauto.
  - apply IH; assumption.
Qed.

Lemma registry_nodes_below w i :
  registry_ok w -> i ∈ all_nodes (services w) -> (i < brk w)%positive.
Proof.
  intros (Hheap & _ & _ & Htrees) Hi.
  apply elem_of_all_nodes in Hi as (k & s & Hin & Hi).
  apply elem_of_snd in Hi as [n Hi].
  destruct (Htrees k s Hin) as (_ & _ & _ & _ & _ & Hn).
  destruct (Hn n i Hi) as (inst & Hinst & _).
  apply Hheap. rewrite Hinst. eauto.
Qed.

Lemma registry_ok_store w w' k s s' :
  registry_ok w -> (k, s) ∈ services w ->
  services w' = avl_store (services w) k s' ->
  heap_ok w' ->
  tree_ok w' (instances s') ->
  (forall n i, (n, i) ∈ avl (instances s') ->
     (n, i) ∈ avl (instances s) \/ (brk w <= i)%positive) ->
  (forall i, i ∉ map snd (avl (instances s)) -> (i < brk w)%positive ->
     heap w' !! i = heap w !! i) ->
  registry_ok w'.
Proof.
  intros Hok Hin Hsv Hheap' Htree' Horigin Hframe.
  pose proof Hok as (Hheap & Hkeys & Hnodes & Htrees).
  split; [exact Hheap'|]. rewrite Hsv.
  split; [rewrite avl_store_keys; exact Hkeys|].
  split.
  - apply (NoDup_all_nodes_store _ k s s'); try assumption.
    + apply Htree'.
    + intros i Hi. apply elem_of_snd in Hi as [n Hi].
      destruct (Horigin n i Hi) as [H | H].
      * left. apply elem_of_snd. eauto.
      * right. intros Hi'. pose proof (registry_nodes_below w i Hok Hi'). lia.
  - intros k2 s2 H2. apply elem_of_avl_store in H2; [|exact Hkeys].
    destruct H2 as [[H2 Hne] | (-> & -> & _)]; [|exact Htree'].
    apply (tree_ok_frame w); [|apply (Htrees k2 s2 H2)].
    intros i Hi. apply Hframe.
    + intros Hi'. apply (all_nodes_disjoint _ k2 s2 k s i Hnodes H2 Hin Hne Hi Hi').
    + apply (registry_nodes_below w i Hok). apply elem_of_all_nodes. eauto.
Qed.

Lemma registry_ok_insert w w' k s' :
  registry_ok w -> k ∉ map fst (services w) ->
  services w' = avl_insert (services w) k s' ->
  heap_ok w' ->
  tree_ok w' (instances s') ->
  (forall n i, (n, i) ∈ avl (instances s') -> (brk w <= i)%positive) ->
  (forall i, (i < brk w)%positive -> heap w' !! i = heap w !! i) ->
  registry_ok w'.
Proof.
  intros Hok Hk Hsv Hheap' Htree' Hfresh Hframe.
  pose proof Hok as (Hheap & Hkeys & Hnodes & Htrees).
  split; [exact Hheap'|]. rewrite Hsv.
  split.
  { pose proof (avl_insert_perm (services w) k s' Hk) as Hp.
    rewrite Hp. simpl. apply NoDup_cons. split; assumption. }
  split.
  - apply NoDup_all_nodes_insert; try assumption; [apply Htree'|].
    intros i Hi Hi'. apply elem_of_snd in Hi as [n Hi].
    pose proof (Hfresh n i Hi). pose proof (registry_nodes_below w i Hok Hi').
    lia.
  - intros k2 s2 H2. apply elem_of_avl_insert in H2; [|exact Hk].
    destruct H2 as [H2 | [-> ->]]; [|exact Htree'].
    apply (tree_ok_frame w); [|apply (Htrees k2 s2 H2)].
    intros i Hi. apply Hframe.
    apply (registry_nodes_below w i Hok). apply elem_of_all_nodes. eauto.
Qed.

Lemma registry_ok_ext w w' :
  heap w' = heap w -> brk w' = brk w -> services w' = services w ->
  registry_ok w -> registry_ok w'.
Proof.
  intros Hh Hb Hs (Hheap & Hkeys & Hnodes & Htrees).
  split; [intros i Hi; rewrite Hb; apply Hheap; rewrite <- Hh; exact Hi|].
  rewrite Hs. split; [exact Hkeys|]. split; [exact Hnodes|].
  intros k s Hin. apply (tree_ok_frame w); [|apply (Htrees k s Hin)].
  intros i _. rewrite Hh. reflexivity.
Qed.

Lemma out_of_memory_run w :
  no_oom w ->
  exists w0, out_of_memory w = Some (false, w0) /\
             heap w0 = heap w /\ brk w0 = brk w /\ trace w0 = trace w /\
             services w0 = services w /\ no_oom w0.
Proof.
  unfold no_oom, out_of_memory. destruct (oom w) as [|b rest] eqn:E.
  - intros _. exists w. rewrite E. repeat split. constructor.
  - intros H. inversion H; subst. eexists. split; [reflexivity|].
    simpl. repeat split. assumption.
Qed.

Lemma tree_ok_init w : tree_ok w (set_keep_old true vlist_init).
Proof.
  split; [constructor|]. split; [constructor|].
  split; [simpl; lia|]. split; [reflexivity|]. split; [reflexivity|].
  intros k i Hin. inversion Hin.
Qed.

Lemma service_alloc_run w nm :
  no_oom w ->
  exists w0, service_alloc nm w =
             Some (Some {| svc_name := None; svc_config := None;
                           instances := set_keep_old true vlist_init |}, w0) /\
             heap w0 = heap w /\ brk w0 = brk w /\ trace w0 = trace w /\
             services w0 = services w /\ no_oom w0.
Proof.
  intros Hoom.
  destruct (out_of_memory_run w Hoom) as (w0 & Hrun & Hrest).
  exists w0. unfold service_alloc. erewrite bind_run by exact Hrun.
  split; [reflexivity | exact Hrest].
Qed.

(** A valid set request, served by the allocator, takes a well-formed
    registry to a well-formed registry. *)
Lemma all_nodes_sublist l1 l2 :
  sublist l1 l2 -> sublist (all_nodes l1) (all_nodes l2).
Proof.
  induction 1 as [|[k s] l1 l2 _ IH|[k s] l1 l2 _ IH].
  - constructor.
  - rewrite !all_nodes_cons. apply sublist_app; [reflexivity | exact IH].
  - rewrite all_nodes_cons. apply sublist_inserts_l, IH.
Qed.

(** A delete request takes a well-formed registry to a well-formed
    registry. *)
Lemma service_handle_delete_registry_ok w msg :
  registry_ok w ->
  exists r w',
    service_handle_delete msg w = Some (r, w') /\ registry_ok w' /\
    oom w' = oom w.
Proof.
  intros Hok. pose proof Hok as (Hheap & Hkeys & Hnodes & Htrees).
  unfold service_handle_delete.
  destruct (tb_at (blobmsg_parse service_del_attrs (blobmsg_attrs msg))
              SERVICE_ATTR_NAME) as [cur|].
  - unfold bind, get_services; simpl.
    destruct (avl_find (services w) (blobmsg_data cur)) as [s|] eqn:Efind.
    2:{ eexists _, w. split; [reflexivity|]. split; [exact Hok | reflexivity]. }
    pose proof (avl_find_Some _ _ _ Efind) as Hin.
    destruct (service_delete_run w (blobmsg_data cur) s)
      as (w' & ev & Hrun & Ht & Hs & Hb & Ho & Hh & Hgone & Hf).
    { apply (Htrees _ _ Hin). }
    rewrite Hrun. eexists _, w'. split; [reflexivity|]. split; [|exact Ho].
    split.
    { intros i Hi. rewrite Hb. apply Hheap.
      destruct (Hh i) as [E | E]; rewrite E in Hi; [|exact Hi].
      destruct Hi as [? Hi]. discriminate. }
    rewrite Hs.
    split.
    { eapply sublist_NoDup; [exact Hkeys|].
      apply (fmap_sublist fst), avl_delete_sublist. }
    split.
    { eapply sublist_NoDup; [exact Hnodes|].
      apply all_nodes_sublist, avl_delete_sublist. }
    intros k2 s2 H2. apply elem_of_avl_delete in H2 as [H2 Hne];
      [|exact Hkeys].
    apply (tree_ok_frame w); [|apply (Htrees k2 s2 H2)].
    intros i Hi. apply Hf. intros Hi'.
    apply (all_nodes_disjoint _ k2 s2 (blobmsg_data cur) s i
             Hnodes H2 Hin Hne Hi Hi').
  - destruct (delete_all_loop (services w) w eq_refl Hkeys Hnodes Htrees)
      as (w' & ev & Hloop & Ht & Hs & Hb & Ho & Hh & _ & _).
    unfold bind at 1 2, get_services at 1. rewrite Hloop.
    eexists _, w'. split; [reflexivity|]. split; [|exact Ho].
    split.
    { intros i Hi. rewrite Hb. apply Hheap.
      destruct (Hh i) as [E | E]; rewrite E in Hi; [|exact Hi].
      destruct Hi as [? Hi]. discriminate. }
    rewrite Hs. split; [constructor|]. split; [constructor|].
    intros k s Hin. inversion Hin.
Qed.

Lemma same_shape_refl w : same_shape w w.
Proof.
  repeat split. intros i. destruct (heap w !! i); [split; reflexivity | exact I].
Qed.

Lemma same_shape_trans w1 w2 w3 :
  same_shape w1 w2 -> same_shape w2 w3 -> same_shape w1 w3.
Proof.
  intros (Hb & Hs & Ho & Hh) (Hb' & Hs' & Ho' & Hh').
  split; [congruence|]. split; [congruence|]. split; [congruence|].
  intros i. specialize (Hh i). specialize (Hh' i).
  destruct (heap w1 !! i), (heap w2 !! i), (heap w3 !! i);
    try contradiction; try exact I.
  destruct Hh, Hh'. split; congruence.
Qed.

Lemma keeps_shape_ret {A} (a : A) : keeps_shape (ret a).
Proof. intros w a' w' [= <- <-]. apply same_shape_refl. Qed.

Lemma keeps_shape_undefined {A} : keeps_shape (@undefined A).
Proof. intros w a w' H. discriminate. Qed.

Lemma keeps_shape_bind {A B} (m : M A) (k : A -> M B) :
  keeps_shape m -> (forall a, keeps_shape (k a)) -> keeps_shape (bind m k).
Proof.
  intros Hm Hk w b w'. unfold bind.
  destruct (m w) as [[a w1]|] eqn:E; [|discriminate].
  intros H. eapply same_shape_trans; [eapply Hm, E | eapply Hk, H].
Qed.

Lemma keeps_shape_emit e : keeps_shape (emit e).
Proof.
  intros w a w' [= <- <-]. repeat split. intros i. simpl.
  destruct (heap w !! i); [split; reflexivity | exact I].
Qed.

Lemma keeps_shape_load i : keeps_shape (load i).
Proof.
  intros w a w'. unfold load. destruct (heap w !! i); [|discriminate].
  intros [= <- <-]. apply same_shape_refl.
Qed.

Lemma keeps_shape_store i f :
  (forall inst, node_version (f inst) = node_version inst /\
                config (f inst) = config inst) ->
  keeps_shape (store i f).
Proof.
  intros Hf w a w'. unfold store.
  destruct (heap w !! i) as [inst|] eqn:E; [|discriminate].
  intros [= <- <-]. repeat split. intros j. simpl.
  destruct (decide (i = j)) as [<- | Hne].
  - rewrite E, lookup_insert_eq. apply Hf.
  - rewrite lookup_insert_ne by exact Hne.
    destruct (heap w !! j); [split; reflexivity | exact I].
Qed.

Ltac shape_store :=
  apply keeps_shape_store; intros [? ? ? ? ? [? ? ?] [? ?]]; simpl;
  repeat match goal with
         | |- context [if ?b then _ else _] => destruct b; simpl
         end;
  split; reflexivity.

Ltac shape :=
  repeat first
    [ apply keeps_shape_ret
    | apply keeps_shape_undefined
    | apply keeps_shape_emit
    | apply keeps_shape_load
    | shape_store
    | apply keeps_shape_bind; [|intros ?]
    | match goal with
      | |- keeps_shape (if ?b then _ else _) => destruct b
      | |- keeps_shape (match ?o with Some _ => _ | None => _ end) =>
          destruct o
      | |- keeps_shape (match ?o with instance_exit_cb => _ end) =>
          destruct o
      | |- keeps_shape (match ?o with instance_timeout_cb => _ end) =>
          destruct o
      end ].

Lemma keeps_shape_uloop_handle_process i r :
  keeps_shape (uloop_handle_process i r).
Proof.
  unfold uloop_handle_process, call_proc_cb, instance_exit, start_instance,
    uloop_process_delete, uloop_timeout_cancel.
  shape.
Qed.

Lemma keeps_shape_uloop_process_timeout i :
  keeps_shape (uloop_process_timeout i).
Proof.
  unfold uloop_process_timeout, call_timeout_cb, instance_timeout,
    call_proc_cb, instance_exit, start_instance, kill,
    uloop_process_delete, uloop_timeout_cancel.
  shape.
Qed.

Lemma registry_ok_same_shape w w' :
  same_shape w w' -> registry_ok w -> registry_ok w'.
Proof.
  intros (Hb & Hs & _ & Hh) (Hheap & Hkeys & Hnodes & Htrees).
  split.
  { intros i Hi. rewrite Hb. apply Hheap. specialize (Hh i).
    destruct (heap w !! i); [eauto|].
    destruct (heap w' !! i); [contradiction|]. exact Hi. }
  rewrite Hs. split; [exact Hkeys|]. split; [exact Hnodes|].
  intros k s Hin.
  destruct (Htrees k s Hin) as (H1 & H2 & H3 & H4 & H5 & H6).
  repeat (split; [assumption|]).
  intros n i Hi. destruct (H6 n i Hi) as (inst & Hinst & Hnv & Hc).
  specialize (Hh i). rewrite Hinst in Hh.
  destruct (heap w' !! i) as [inst'|]; [|contradiction].
  destruct Hh as [Ev Ec]. exists inst'. split; [reflexivity|].
  unfold config_ok in *. rewrite Ev, Ec. split; assumption.
Qed.

Lemma registry_ok_init answers : registry_ok (procd_init_service answers).
Proof.
  split.
  { intros i [x Hx]. simpl in Hx. rewrite lookup_empty in Hx. discriminate. }
  split; [constructor|]. split; [constructor|].
  intros k s Hin. inversion Hin.
Qed.

(** ** The sample requests, run *)

Example set_v1_from_init :
  service_handle_set msg_set_v1 (procd_init_service []) =
  Some (UBUS_STATUS_OK, world_v1).
Proof. vm_compute. reflexivity. Qed.

Example set_v2_after_v1 :
  service_handle_set msg_set_v2 world_v1 = Some (UBUS_STATUS_OK, world_v2).
Proof. vm_compute. reflexivity. Qed.

Example delete_net_after_v2 :
  exists w, service_handle_delete msg_del_net world_v2
            = Some (UBUS_STATUS_OK, w) /\
            services w = [] /\ heap w = ∅ /\
            trace w = trace world_v2 ++
                      [CallStop 4 false; CallFree 4;
                       CallStop 1 false; CallFree 1].
Proof. eexists. vm_compute. repeat split. Qed.

(** ** Facts about the sample states *)

Ltac decide_nodup := refine (bool_decide_unpack _ _); vm_compute; exact I.

Ltac each_elem H :=
  repeat (apply elem_of_cons in H as [? | H]; [simplify_eq|]);
  [..|inversion H].

Lemma world_v1_heap_ok : heap_ok world_v1.
Proof.
  intros i [x Hx]. simpl in *.
  destruct (decide (i = 1%positive)) as [-> | H1]; [lia|].
  rewrite lookup_insert_ne in Hx by congruence.
  destruct (decide (i = 2%positive)) as [-> | H2]; [lia|].
  rewrite lookup_insert_ne in Hx by congruence.
  rewrite lookup_empty in Hx. discriminate.
Qed.

Lemma world_v1_tree_ok : tree_ok world_v1 tree_v1.
Proof.
  split; [decide_nodup|]. split; [decide_nodup|].
  split; [simpl; lia|]. split; [reflexivity|]. split; [reflexivity|].
  intros k i Hin. simpl in Hin. each_elem Hin.
  - eexists. split; [reflexivity|]. split; [simpl; lia | reflexivity].
  - eexists. split; [reflexivity|]. split; [simpl; lia | reflexivity].
Qed.

Lemma world_v1_keys_ok : keys_ok world_v1 tree_v1.
Proof.
  intros k i inst Hin Hi. each_elem Hin; vm_compute in Hi;
    injection Hi as <-; discriminate.
Qed.

Lemma world_v1_no_oom : no_oom world_v1.
Proof. constructor. Qed.

Lemma world_v1_registry_ok : registry_ok world_v1.
Proof.
  split; [apply world_v1_heap_ok|]. split; [decide_nodup|].
  split; [decide_nodup|].
  intros k s Hin. simpl in Hin. each_elem Hin. apply world_v1_tree_ok.
Qed.

Lemma tbl_v2_valid a :
  a ∈ blobmsg_attrs tbl_v2 -> blobmsg_type a = BLOBMSG_TYPE_TABLE ->
  blob_valid a = true.
Proof. intros Hin _. simpl in Hin. each_elem Hin; reflexivity. Qed.

Lemma world_v1_reachable : reachable world_v1.
Proof.
  eapply reachable_step; [apply (reachable_init [])|].
  eapply step_set. apply set_v1_from_init.
Qed.

(** ** The theorems at the sample states *)

Lemma update_instance_restarts_iff_config_differs_witness :
  exists changed w',
    update_instance 1 2 world_v1 = Some (changed, w') /\
    (changed = false <-> blob_image cfg_main_empty = blob_image cfg_aux) /\
    (blob_image cfg_main_empty = blob_image cfg_aux <->
       blob_pad_len cfg_main_empty = blob_pad_len cfg_aux /\
       forall n, blob_pad_len cfg_main_empty = Some n ->
         take (Z.to_nat n) (blob_mem cfg_main_empty)
         = take (Z.to_nat n) (blob_mem cfg_aux)) /\
    heap w' = <[1%positive := set_config (Some cfg_aux)
                                (idle_instance cfg_main_empty)]>
                (heap world_v1) /\
    services w' = services world_v1 /\
    trace w' =
      trace world_v1 ++ CallUpdate 1 2 ::
        (if changed
         then CallStop 1 true ::
              (if proc_pending (proc (idle_instance cfg_main_empty))
               then [SysKill (proc_pid (proc (idle_instance cfg_main_empty)))
                       SIGTERM]
               else [])
         else []).
Proof.
  apply (update_instance_restarts_iff_config_differs world_v1 1 2
           (idle_instance cfg_main_empty) (idle_instance cfg_aux)
           cfg_main_empty cfg_aux); reflexivity.
Defined.

Lemma instance_exit_restart_or_stay_witness :
  exists w' inst',
    instance_exit 1 0 (world_stopping true) = Some (tt, w') /\
    heap w' = <[1%positive := inst']> (heap (world_stopping true)) /\
    timeout_pending (timeout inst') = false /\
    timeout_cb (timeout inst') = Some instance_timeout_cb /\
    restart inst' = false /\
    proc inst' = proc (watched_instance true true cfg_main_empty) /\
    config inst' = Some cfg_main_empty /\
    node_version inst' = 2 /\
    trace w' = [CallStart 1] /\
    services w' = [] /\
    (forall ret_code',
       instance_exit 1 ret_code' (world_stopping true)
       = instance_exit 1 0 (world_stopping true)).
Proof.
  apply (instance_exit_restart_or_stay (world_stopping true) 1
           (watched_instance true true cfg_main_empty) 0).
  reflexivity.
Defined.

Lemma timeout_and_exit_converge_witness :
  instance_timeout 1 (world_stopping true) =
    (kill 42 SIGKILL ;; uloop_process_delete 1 ;; instance_exit 1 (-1))
      (world_stopping true) /\
  exists w1 w2,
    step (world_stopping true) (ProcessExit 1 0) w1 /\
    step (world_stopping true) (TimerExpiry 1) w2 /\
    (forall w', step (world_stopping true) (ProcessExit 1 0) w' -> w' = w1) /\
    (forall w', step (world_stopping true) (TimerExpiry 1) w' -> w' = w2) /\
    heap w1 = <[1%positive := settled (watched_instance true true cfg_main_empty)]>
                (heap (world_stopping true)) /\
    heap w2 = <[1%positive := settled (watched_instance true true cfg_main_empty)]>
                (heap (world_stopping true)) /\
    trace w1 = [CallStart 1] /\
    trace w2 = [SysKill 42 SIGKILL; CallStart 1] /\
    starts_of 1 [CallStart 1] = 1%nat /\
    (forall w0 e w', (w0 = w1 \/ w0 = w2) ->
       (e = TimerExpiry 1 \/ exists r, e = ProcessExit 1 r) ->
       ~ step w0 e w').
Proof.
  apply (timeout_and_exit_converge (world_stopping true) 1
           (watched_instance true true cfg_main_empty) 0); reflexivity.
Defined.

Lemma set_without_name_is_rejected_witness :
  exists r w',
    service_handle_set msg_set_noname world_v1 = Some (r, w') /\
    services w' = services world_v1 /\
    heap w' = heap world_v1 /\
    trace w' = trace world_v1 /\
    r <> UBUS_STATUS_OK /\
    (hd false (oom world_v1) = false -> r = UBUS_STATUS_INVALID_ARGUMENT).
Proof.
  apply (set_without_name_is_rejected world_v1 msg_set_noname).
  intros a Ha [Hty _]. simpl in Ha.
  apply list_elem_of_singleton in Ha. subst a. discriminate.
Defined.

Lemma service_handle_delete_spec_witness :
  (exists w' ev,
     service_handle_delete msg_del_net world_v1 = Some (UBUS_STATUS_OK, w') /\
     trace w' = trace world_v1 ++ ev /\
     services w' = avl_delete (services world_v1) (blobmsg_data attr_name_net) /\
     avl_find (services w') (blobmsg_data attr_name_net) = None /\
     (forall k, k <> blobmsg_data attr_name_net ->
        avl_find (services w') k = avl_find (services world_v1) k) /\
     (forall n i, (n, i) ∈ avl (instances svc_v1) ->
        heap w' !! i = None /\
        followed_by (CallStop i false) (CallFree i) ev) /\
     (forall i, i ∉ map snd (avl (instances svc_v1)) ->
        heap w' !! i = heap world_v1 !! i) /\
     service_handle_delete msg_del_net w' = Some (UBUS_STATUS_NOT_FOUND, w')) /\
  service_handle_delete msg_del_nope world_v1
    = Some (UBUS_STATUS_NOT_FOUND, world_v1) /\
  (exists w' ev,
     service_handle_delete msg_del_all world_v1 = Some (UBUS_STATUS_OK, w') /\
     trace w' = trace world_v1 ++ ev /\
     services w' = [] /\
     service_handle_list w' = Some ((UBUS_STATUS_OK, []), w') /\
     (forall k s n i, (k, s) ∈ services world_v1 ->
        (n, i) ∈ avl (instances s) ->
        heap w' !! i = None /\
        followed_by (CallStop i false) (CallFree i) ev)).
Proof.
  split; [|split].
  - exact (service_handle_delete_spec world_v1 msg_del_net
             world_v1_registry_ok).
  - exact (service_handle_delete_spec world_v1 msg_del_nope
             world_v1_registry_ok).
  - exact (service_handle_delete_spec world_v1 msg_del_all
             world_v1_registry_ok).
Defined.

Lemma restart_flag_stays_clear_witness :
  (forall i inst, heap world_v1 !! i = Some inst -> restart inst = false) /\
  (forall i r w', instance_exit i r world_v1 = Some (tt, w') ->
     trace w' = trace world_v1) /\
  (forall i r w', step world_v1 (ProcessExit i r) w' ->
     trace w' = trace world_v1) /\
  (forall i w' j, step world_v1 (TimerExpiry i) w' ->
     CallStart j ∈ trace w' -> CallStart j ∈ trace world_v1).
Proof. exact (restart_flag_stays_clear world_v1 world_v1_reachable). Defined.

Lemma world_v2_reachable : reachable world_v2.
Proof.
  eapply reachable_step; [apply world_v1_reachable|].
  eapply step_set. apply set_v2_after_v1.
Qed.

Example set_plain_after_v1 :
  service_handle_set msg_set_plain world_v1 =
  Some (UBUS_STATUS_OK, world_v1_plain).
Proof. vm_compute. reflexivity. Qed.

Lemma world_v1_plain_reachable : reachable world_v1_plain.
Proof.
  eapply reachable_step; [apply world_v1_reachable|].
  eapply step_set. apply set_plain_after_v1.
Qed.

(** ** The release of the old configuration under the instances

    [service_update] ends with [free(old_config)] while the keys of the
    instances it keeps, and without an instances table their
    configurations too, still point into that copy. *)

(** C1: the reconciliation is not delivered in every reachable state.
    After the requests [msg_set_v1] and [msg_set_v2] the service "net"
    tracks "main" under a key that points into the freed copy of
    [msg_set_v1]; a third request that submits "main" makes [vlist_add]
    compare against that key, so [service_update] and with it the request
    have no defined result: no tracked set and no calls are delivered. *)
Theorem resubmission_reads_freed_key :
  reachable world_v2 /\
  avl_find (services world_v2) "net" = Some svc_v2 /\
  tracked (instances svc_v2) = ["lan"; "main"]%string /\
  avl_find (avl (instances svc_v2)) "main" = Some 1%positive /\
  (exists inst, heap world_v2 !! 1%positive = Some inst /\
                node_key inst = None) /\
  submitted (blobmsg_attrs tbl_v2) = ["main"; "lan"]%string /\
  service_update svc_v2 msg_set_v2
    (blobmsg_parse service_attrs (blobmsg_attrs msg_set_v2)) world_v2 = None /\
  service_handle_set msg_set_v2 world_v2 = None.
Proof.
  split; [exact world_v2_reachable|].
  split; [reflexivity|]. split; [reflexivity|]. split; [reflexivity|].
  split; [eexists; split; reflexivity|].
  split; [reflexivity|].
  split; vm_compute; reflexivity.
Qed.

(** C8: a set request without an instances table starts, stops, updates
    and removes nothing and leaves the tree as it is, but it frees the
    request copy that holds the names and the configurations of the
    tracked instances: after [msg_set_plain] in [world_v1] neither can be
    read any more, and the next request that submits a tracked name has no
    defined result. *)
Theorem set_without_instances_frees_instance_data :
  reachable world_v1 /\
  service_handle_set msg_set_plain world_v1 =
    Some (UBUS_STATUS_OK, world_v1_plain) /\
  tb_at (blobmsg_parse service_attrs (blobmsg_attrs msg_set_plain))
    SERVICE_ATTR_INSTANCES = None /\
  trace world_v1_plain = trace world_v1 /\
  avl_find (services world_v1) "net" = Some svc_v1 /\
  avl_find (services world_v1_plain) "net" = Some svc_v1_plain /\
  instances svc_v1_plain = instances svc_v1 /\
  (forall k i, (k, i) ∈ avl (instances svc_v1) ->
     exists inst0 inst,
       heap world_v1 !! i = Some inst0 /\ node_key inst0 = Some k /\
       config_ok inst0 /\
       heap world_v1_plain !! i = Some inst /\
       inst = leave_dangling false inst0 /\
       node_key inst = None /\ config inst = None) /\
  service_handle_set msg_set_v1 world_v1_plain = None.
Proof.
  split; [exact world_v1_reachable|].
  split; [exact set_plain_after_v1|].
  split; [reflexivity|]. split; [reflexivity|]. split; [reflexivity|].
  split; [reflexivity|]. split; [reflexivity|].
  split; [|vm_compute; reflexivity].
  intros k i Hin. simpl in Hin.
  apply elem_of_cons in Hin as [[= -> ->] | Hin];
    [|apply list_elem_of_singleton in Hin as [= -> ->]];
    eexists _, _; (split; [reflexivity|]); (split; [reflexivity|]);
    (split; [vm_compute; reflexivity|]); (split; [reflexivity|]);
    repeat split.
Qed.

(** C10: [service_alloc] turns [keep_old] on and the first resubmission of
    a tracked name keeps the object: after [msg_set_v2] in [world_v1] the
    instance "main" is still the object at address 1, with its process and
    timer handles, and the object allocated for the request (address 3) is
    gone.  The key of the kept object is left pointing into the freed copy
    of [msg_set_v1], so the next resubmission of "main" has no defined
    result, whatever it submits for it. *)
Theorem kept_instance_loses_its_key :
  (forall nm w, hd false (oom w) = false ->
     exists s w', service_alloc nm w = Some (Some s, w') /\
                  keep_old (instances s) = true) /\
  reachable world_v1 /\
  service_handle_set msg_set_v2 world_v1 = Some (UBUS_STATUS_OK, world_v2) /\
  ("main"%string, 1%positive) ∈ avl (instances svc_v1) /\
  ("main"%string, 1%positive) ∈ avl (instances svc_v2) /\
  CallUpdate 1 3 ∈ trace world_v2 /\ CallFree 3 ∈ trace world_v2 /\
  heap world_v2 !! 3%positive = None /\
  (exists inst0 inst,
     heap world_v1 !! 1%positive = Some inst0 /\
     heap world_v2 !! 1%positive = Some inst /\
     proc inst = proc inst0 /\ timeout inst = timeout inst0 /\
     node_key inst0 = Some "main"%string /\ node_key inst = None) /\
  service_handle_set msg_set_v1 world_v2 = None /\
  service_handle_set msg_set_v2 world_v2 = None.
Proof.
  split.
  { intros nm w Hoom. unfold service_alloc, bind, out_of_memory.
    destruct (oom w) as [|[|] rest]; try discriminate;
      eexists _, _; split; reflexivity. }
  split; [exact world_v1_reachable|].
  split; [exact set_v2_after_v1|].
  split; [apply list_elem_of_In; vm_compute; auto|].
  split; [apply list_elem_of_In; vm_compute; auto|].
  split; [apply list_elem_of_In; vm_compute; auto|].
  split; [apply list_elem_of_In; vm_compute; auto 10|].
  split; [reflexivity|].
  split; [eexists _, _; repeat split|].
  split; vm_compute; reflexivity.
Qed.

(** * Further properties of the code *)

(** ** Properties kept by the layers of the program

    Whatever the operations on instances keep, the list and service layers
    keep as well. *)

Section Kept.
Variable P : world -> Prop.

Lemma kept_ret {A} (a : A) : kept P (ret a).
Proof. intros w a' w' H [= <- <-]. exact H. Qed.

Lemma kept_undefined {A} : kept P (@undefined A).
Proof. intros w a w' _ H. discriminate. Qed.

Lemma kept_bind {A B} (m : M A) (k : A -> M B) :
  kept P m -> (forall a, kept P (k a)) -> kept P (bind m k).
Proof.
  intros Hm Hk w b w' Hw. unfold bind.
  destruct (m w) as [[a w1]|] eqn:E; [|discriminate].
  intros H. eapply Hk; [|exact H]. eapply Hm; eassumption.
Qed.

Lemma kept_load i : kept P (load i).
Proof.
  intros w a w' H. unfold load. destruct (heap w !! i); [|discriminate].
  intros [= <- <-]. exact H.
Qed.

Lemma kept_for_each {A S} (l : list A) (body : S -> A -> M S) :
  (forall s x, kept P (body s x)) -> forall s, kept P (for_each l body s).
Proof.
  intros Hb. induction l as [|x l IH]; intros s; simpl.
  - apply kept_ret.
  - apply kept_bind; [apply Hb | intros s'; apply IH].
Qed.

Lemma kept_get_services : kept P get_services.
Proof. intros w a w' H [= <- <-]. exact H. Qed.

Hypothesis kept_calloc : kept P calloc_instance.
Hypothesis kept_version : forall i v, kept P (store i (set_node_version v)).
Hypothesis kept_key : forall i k, kept P (store i (set_node_key k)).
Hypothesis kept_init : forall i c, kept P (init_instance i c).
Hypothesis kept_start : forall i, kept P (start_instance i).
Hypothesis kept_stop : forall i r, kept P (stop_instance i r).
Hypothesis kept_update : forall i j, kept P (update_instance i j).
Hypothesis kept_free : forall i, kept P (free_instance i).
Hypothesis kept_free_config :
  forall oc lb r t, kept P (free_config oc lb r t).

Lemma kept_service_instance_update t n o :
  kept P (service_instance_update t n o).
Proof.
  unfold service_instance_update. destruct o, n;
    try apply kept_ret; try apply kept_start;
    apply kept_bind; auto.
Qed.

Lemma kept_vlist_add t i k :
  kept P (vlist_add service_instance_update t i k).
Proof.
  unfold vlist_add. apply kept_bind; [apply kept_key|]. intros _.
  apply kept_bind; [apply kept_version|]. intros _.
  destruct (avl_find (avl t) k).
  - apply kept_bind.
    { unfold avl_key. apply kept_bind; [apply kept_load|]. intros n.
      destruct (node_key n); [apply kept_ret | apply kept_undefined]. }
    intros _.
    destruct (keep_old t || no_delete t).
    + apply kept_bind; [apply kept_version|]. intros _.
      apply kept_bind; [apply kept_service_instance_update|]. intros _.
      apply kept_ret.
    + apply kept_bind; [apply kept_service_instance_update|]. intros _.
      apply kept_ret.
  - apply kept_bind; [apply kept_service_instance_update|]. intros _.
    apply kept_ret.
Qed.

Lemma kept_vlist_flush t : kept P (vlist_flush service_instance_update t).
Proof.
  unfold vlist_flush. apply kept_for_each. intros s [k i].
  apply kept_bind; [apply kept_load|]. intros n.
  destruct (_ && _); [apply kept_ret|].
  unfold vlist_delete.
  apply kept_bind; [apply kept_service_instance_update|]. intros _.
  apply kept_ret.
Qed.

Lemma kept_service_instance_add t a : kept P (service_instance_add t a).
Proof.
  unfold service_instance_add. destruct (negb _); [apply kept_ret|].
  apply kept_bind; [apply kept_calloc|]. intros [i|]; [|apply kept_ret].
  apply kept_bind; [apply kept_init | intros _; apply kept_vlist_add].
Qed.

Lemma kept_reconcile t attrs : kept P (reconcile t attrs).
Proof.
  unfold reconcile, vlist_update.
  apply kept_bind.
  { destruct (_ <? _); [apply kept_ret | apply kept_undefined]. }
  intros t1. apply kept_bind.
  { apply kept_for_each. intros; apply kept_service_instance_add. }
  intros t2. apply kept_vlist_flush.
Qed.

Lemma kept_service_update s cfg tb : kept P (service_update s cfg tb).
Proof.
  unfold service_update. apply kept_bind.
  { destruct (tb_at tb SERVICE_ATTR_NAME);
      [apply kept_ret | apply kept_undefined]. }
  intros cur. apply kept_bind;
    [|intros; apply kept_bind; [apply kept_free_config|];
      intros; apply kept_ret].
  destruct (tb_at tb SERVICE_ATTR_INSTANCES) as [tbl|]; [|apply kept_ret].
  unfold vlist_update. apply kept_bind.
  { destruct (_ <? _); [apply kept_ret | apply kept_undefined]. }
  intros t1. apply kept_bind.
  { apply kept_for_each. intros; apply kept_service_instance_add. }
  intros t2. apply kept_bind; [apply kept_vlist_flush|].
  intros; apply kept_ret.
Qed.

Lemma kept_vlist_flush_all t :
  kept P (vlist_flush_all service_instance_update t).
Proof. unfold vlist_flush_all. apply kept_vlist_flush. Qed.

Hypothesis kept_oom : kept P out_of_memory.
Hypothesis kept_put : forall l, kept P (put_services l).

Lemma kept_service_delete k s : kept P (service_delete k s).
Proof.
  unfold service_delete. apply kept_bind; [apply kept_vlist_flush_all|].
  intros _. apply kept_bind; [apply kept_get_services|]. intros l.
  apply kept_put.
Qed.

Lemma kept_service_handle_delete msg : kept P (service_handle_delete msg).
Proof.
  unfold service_handle_delete.
  destruct (tb_at _ _).
  - apply kept_bind; [apply kept_get_services|]. intros l.
    destruct (avl_find l _); [|apply kept_ret].
    apply kept_bind; [apply kept_service_delete | intros; apply kept_ret].
  - apply kept_bind; [apply kept_get_services|]. intros l.
    apply kept_bind; [|intros; apply kept_ret].
    apply kept_for_each. intros; apply kept_service_delete.
Qed.

Lemma kept_service_handle_set msg : kept P (service_handle_set msg).
Proof.
  unfold service_handle_set.
  apply kept_bind; [apply kept_oom|]. intros [|]; [apply kept_ret|].
  cbv zeta. destruct (tb_at _ _); [|apply kept_ret].
  apply kept_bind; [apply kept_get_services|]. intros l.
  destruct (avl_find l _).
  - apply kept_bind; [apply kept_service_update|]. intros r.
    apply kept_bind; [apply kept_get_services|]. intros l'.
    apply kept_bind; [apply kept_put | intros; apply kept_ret].
  - apply kept_bind.
    { unfold service_alloc. apply kept_bind; [apply kept_oom|].
      intros [|]; [apply kept_undefined | apply kept_ret]. }
    intros [s|]; [|apply kept_ret].
    apply kept_bind; [apply kept_service_update|]. intros r.
    destruct (negb _); [apply kept_ret|].
    apply kept_bind; [apply kept_get_services|]. intros l'.
    apply kept_bind; [apply kept_put | intros; apply kept_ret].
Qed.

Lemma kept_service_handle_list : kept P service_handle_list.
Proof.
  unfold service_handle_list.
  apply kept_bind; [apply kept_get_services | intros; apply kept_ret].
Qed.
End Kept.

(** ** No process is ever watched *)

Lemma idle_emit e :
  (forall pid sig, e <> SysKill pid sig) -> kept idle (emit e).
Proof.
  intros He w a w' [Hh Ht] [= <- <-]. split; [exact Hh|].
  intros pid sig. simpl. rewrite elem_of_app, list_elem_of_singleton.
  intros [H | H]; [apply (Ht pid sig H) | apply (He pid sig); symmetry; exact H].
Qed.

Lemma idle_store i f :
  (forall inst,
     proc_pending (proc inst) = false /\
     timeout_pending (timeout inst) = false ->
     proc_pending (proc (f inst)) = false /\
     timeout_pending (timeout (f inst)) = false) ->
  kept idle (store i f).
Proof.
  intros Hf w a w' [Hh Ht]. unfold store.
  destruct (heap w !! i) as [inst|] eqn:E; [|discriminate].
  intros [= <- <-]. split; [|exact Ht]. intros j instj. simpl.
  destruct (decide (i = j)) as [<- | Hne].
  - rewrite lookup_insert_eq. intros [= <-]. apply Hf. eapply Hh, E.
  - rewrite lookup_insert_ne by exact Hne. apply Hh.
Qed.

Lemma idle_free i : kept idle (free i).
Proof.
  intros w a w' [Hh Ht]. unfold free.
  destruct (heap w !! i) as [inst|] eqn:E; [|discriminate].
  intros [= <- <-]. split; [|exact Ht]. intros j instj. simpl. intros Hj.
  apply lookup_delete_Some in Hj as [_ Hj]. eapply Hh, Hj.
Qed.

Ltac idle_store_tac :=
  apply idle_store; intros [? ? ? ? ? [? ? ?] [? ?]] [? ?]; simpl in *;
  repeat match goal with
         | |- context [if ?b then _ else _] => destruct b; simpl
         end;
  split; first [assumption | reflexivity].

Lemma idle_out_of_memory : kept idle out_of_memory.
Proof.
  intros w a w' H. unfold out_of_memory.
  destruct (oom w); intros [= <- <-]; exact H.
Qed.

Lemma idle_put_services l : kept idle (put_services l).
Proof. intros w a w' H [= <- <-]. exact H. Qed.

Lemma idle_calloc_instance : kept idle calloc_instance.
Proof.
  unfold calloc_instance. apply kept_bind; [apply idle_out_of_memory|].
  intros [|]; [apply kept_ret|].
  intros w a w' [Hh Ht] [= <- <-]. split; [|exact Ht]. intros j instj. simpl.
  destruct (decide (brk w = j)) as [<- | Hne].
  - rewrite lookup_insert_eq. intros [= <-]. split; reflexivity.
  - rewrite lookup_insert_ne by exact Hne. apply Hh.
Qed.

Lemma idle_set_node_version i v : kept idle (store i (set_node_version v)).
Proof. idle_store_tac. Qed.

Lemma idle_set_node_key i k : kept idle (store i (set_node_key k)).
Proof. idle_store_tac. Qed.

Lemma idle_free_config oc lb r t : kept idle (free_config oc lb r t).
Proof.
  intros w a w' [Hh Ht] [= <- <-]. split.
  - intros i inst Hi.
    apply freed_fields in Hi as (inst0 & Hi & _ & _ & _ & Hp & Hq & _).
    rewrite Hp, Hq. apply (Hh i inst0 Hi).
  - rewrite freed_trace. exact Ht.
Qed.

Lemma idle_init_instance i c : kept idle (init_instance i c).
Proof.
  unfold init_instance.
  apply kept_bind; [idle_store_tac|]. intros _.
  apply kept_bind; [idle_store_tac|]. intros _. idle_store_tac.
Qed.

Lemma idle_start_instance i : kept idle (start_instance i).
Proof.
  unfold start_instance.
  apply kept_bind; [apply idle_emit; discriminate|]. intros _. idle_store_tac.
Qed.

Lemma idle_stop_instance i r : kept idle (stop_instance i r).
Proof.
  unfold stop_instance.
  apply kept_bind; [apply idle_emit; discriminate|]. intros _.
  intros w a w' Hw. unfold bind, load.
  destruct (heap w !! i) as [inst|] eqn:E; [|discriminate].
  destruct Hw as [Hh Ht]. destruct (Hh i inst E) as [Hp _]. rewrite Hp.
  simpl. intros [= <- <-]. split; assumption.
Qed.

Lemma instance_config_changed_pure i j w b w' :
  instance_config_changed i j w = Some (b, w') -> w' = w.
Proof.
  unfold instance_config_changed, bind, load, deref, ret, undefined.
  destruct (heap w !! i) as [a|]; [|discriminate].
  destruct (heap w !! j) as [c|]; [|discriminate].
  destruct (config a) as [ca|]; [|discriminate].
  destruct (config c) as [cc|]; [|discriminate].
  destruct (blob_pad_len ca); [|discriminate].
  destruct (blob_pad_len cc); [|discriminate].
  destruct (negb _); [intros [= _ <-]; reflexivity|].
  destruct (memcmp _ _ _); [|discriminate].
  destruct (negb _); intros [= _ <-]; reflexivity.
Qed.

Lemma idle_update_instance i j : kept idle (update_instance i j).
Proof.
  unfold update_instance.
  apply kept_bind; [apply idle_emit; discriminate|]. intros _.
  apply kept_bind.
  { intros w b w' Hw H. apply instance_config_changed_pure in H.
    subst w'. exact Hw. }
  intros changed. apply kept_bind; [apply kept_load|]. intros inst.
  apply kept_bind; [idle_store_tac|]. intros _.
  destruct (negb changed); [apply kept_ret|].
  apply kept_bind; [apply idle_stop_instance | intros; apply kept_ret].
Qed.

Lemma idle_free_instance i : kept idle (free_instance i).
Proof.
  unfold free_instance, uloop_process_delete, uloop_timeout_cancel.
  apply kept_bind; [apply idle_emit; discriminate|]. intros _.
  apply kept_bind; [idle_store_tac|]. intros _.
  apply kept_bind; [idle_store_tac|]. intros _. apply idle_free.
Qed.

Lemma idle_not_watched w i : idle w -> process_watched w i = false.
Proof.
  intros [Hh _]. unfold process_watched.
  destruct (heap w !! i) as [inst|] eqn:E; [|reflexivity].
  apply (Hh i inst E).
Qed.

Lemma idle_not_armed w i : idle w -> timer_armed w i = false.
Proof.
  intros [Hh _]. unfold timer_armed.
  destruct (heap w !! i) as [inst|] eqn:E; [|reflexivity].
  apply (Hh i inst E).
Qed.

Lemma step_idle w e w' : idle w -> step w e w' -> idle w'.
Proof.
  intros Hw Hs. inversion Hs; subst.
  - exact (kept_service_handle_set idle idle_calloc_instance
             idle_set_node_version idle_set_node_key idle_init_instance
             idle_start_instance idle_stop_instance idle_update_instance
             idle_free_instance idle_free_config
             idle_out_of_memory idle_put_services msg w r w' Hw H).
  - exact (kept_service_handle_list idle w r w' Hw H).
  - exact (kept_service_handle_delete idle idle_start_instance
             idle_stop_instance idle_update_instance idle_free_instance
             idle_put_services msg w r w' Hw H).
  - rewrite (idle_not_watched w i Hw) in H. discriminate.
  - rewrite (idle_not_armed w i Hw) in H. discriminate.
Qed.

Lemma reachable_idle w : reachable w -> idle w.
Proof.
  induction 1 as [answers | w e w' _ IH Hs].
  - split.
    + intros i inst H. simpl in H. rewrite lookup_empty in H. discriminate.
    + intros pid sig H. inversion H.
  - eapply step_idle; eassumption.
Qed.

(** X1: [start_instance] spawns nothing and nothing else registers a
    process or arms a timer: in every reachable state no process is
    watched and no timer is armed, no signal has been sent, and neither a
    process exit nor a timer expiry can be delivered. *)
Theorem no_process_is_ever_watched w :
  reachable w ->
  (forall i inst, heap w !! i = Some inst ->
     proc_pending (proc inst) = false /\
     timeout_pending (timeout inst) = false) /\
  (forall pid sig, SysKill pid sig ∉ trace w) /\
  (forall i r w', ~ step w (ProcessExit i r) w') /\
  (forall i w', ~ step w (TimerExpiry i) w').
Proof.
  intros Hr. pose proof (reachable_idle w Hr) as Hw.
  destruct Hw as [Hh Ht]. split; [exact Hh|]. split; [exact Ht|].
  split.
  - intros i r w' Hs. apply step_exit_watched in Hs.
    rewrite (idle_not_watched w i (conj Hh Ht)) in Hs. discriminate.
  - intros i w' Hs. apply step_timer_armed in Hs.
    rewrite (idle_not_armed w i (conj Hh Ht)) in Hs. discriminate.
Qed.

Lemma no_process_is_ever_watched_witness :
  (forall i inst, heap world_v2 !! i = Some inst ->
     proc_pending (proc inst) = false /\
     timeout_pending (timeout inst) = false) /\
  (forall pid sig, SysKill pid sig ∉ trace world_v2) /\
  (forall i r w', ~ step world_v2 (ProcessExit i r) w') /\
  (forall i w', ~ step world_v2 (TimerExpiry i) w').
Proof.
  apply (no_process_is_ever_watched world_v2).
  eapply reachable_step; [apply world_v1_reachable|].
  eapply step_set. apply set_v2_after_v1.
Defined.



(** ** The order of the registry and the listing *)

Lemma ascii_compare_refl (c : Ascii.ascii) : Ascii.compare c c = Eq.
Proof. unfold Ascii.compare. apply N.compare_refl. Qed.

Lemma ascii_compare_trans (a b c : Ascii.ascii) :
  Ascii.compare a b = Lt -> Ascii.compare b c = Lt -> Ascii.compare a c = Lt.
Proof.
  unfold Ascii.compare. rewrite !N.compare_lt_iff. apply N.lt_trans.
Qed.

Lemma string_compare_trans (s1 : string) : forall s2 s3,
  String.compare s1 s2 = Lt -> String.compare s2 s3 = Lt ->
  String.compare s1 s3 = Lt.
Proof.
  induction s1 as [|c1 s1 IH]; intros [|c2 s2] [|c3 s3]; simpl;
    try discriminate; try reflexivity.
  destruct (Ascii.compare c1 c2) eqn:E12; try discriminate;
    destruct (Ascii.compare c2 c3) eqn:E23; try discriminate.
  - apply Ascii.compare_eq_iff in E12, E23. subst.
    rewrite ascii_compare_refl. apply IH.
  - apply Ascii.compare_eq_iff in E12. subst. rewrite E23. reflexivity.
  - apply Ascii.compare_eq_iff in E23. subst. rewrite E12. reflexivity.
  - rewrite (ascii_compare_trans _ _ _ E12 E23). reflexivity.
Qed.

Lemma avl_strcmp_lt k1 k2 : avl_strcmp k1 k2 < 0 <-> String.compare k1 k2 = Lt.
Proof.
  unfold avl_strcmp. destruct (String.compare k1 k2); split;
    intros H; try reflexivity; try discriminate; lia.
Qed.

Lemma avl_strcmp_trans k1 k2 k3 :
  avl_strcmp k1 k2 < 0 -> avl_strcmp k2 k3 < 0 -> avl_strcmp k1 k3 < 0.
Proof. rewrite !avl_strcmp_lt. apply string_compare_trans. Qed.

Lemma avl_strcmp_flip k1 k2 :
  (avl_strcmp k1 k2 =? 0) = false -> (avl_strcmp k1 k2 <? 0) = false ->
  avl_strcmp k2 k1 < 0.
Proof.
  intros Hne Hge. apply Z.eqb_neq in Hne. apply Z.ltb_ge in Hge.
  apply avl_strcmp_lt. rewrite String.compare_antisym.
  unfold avl_strcmp in Hne, Hge.
  destruct (String.compare k1 k2); simpl; try reflexivity; lia.
Qed.

Lemma avl_ordered_NoDup keys : avl_ordered keys -> NoDup keys.
Proof.
  induction keys as [|k rest IH]; simpl; [constructor|].
  intros [Hall Hrest]. apply NoDup_cons. split; [|apply IH, Hrest].
  intros Hin. rewrite Forall_forall in Hall. specialize (Hall k Hin).
  apply avl_strcmp_lt in Hall. rewrite string_compare_refl in Hall.
  discriminate.
Qed.

Lemma avl_ordered_sublist l1 l2 :
  sublist l1 l2 -> avl_ordered l2 -> avl_ordered l1.
Proof.
  induction 1 as [|k l1 l2 Hsub IH|k l1 l2 Hsub IH]; simpl.
  - trivial.
  - intros [Hall Hrest]. split; [|apply IH, Hrest].
    rewrite Forall_forall in Hall |- *. intros x Hx. apply Hall.
    eapply sublist_submseteq, elem_of_submseteq in Hsub; eassumption.
  - intros [_ Hrest]. apply IH, Hrest.
Qed.

Section AvlOrder.
Context {V : Type}.
Implicit Types (t : list (string * V)).

Lemma avl_insert_keys t key v x :
  x ∈ map fst (avl_insert t key v) -> x = key \/ x ∈ map fst t.
Proof.
  induction t as [|[k u] t IH]; simpl.
  - rewrite list_elem_of_singleton. tauto.
  - destruct (avl_strcmp key k =? 0); [simpl; tauto|].
    destruct (avl_strcmp key k <? 0); simpl; rewrite !elem_of_cons.
    + tauto.
    + intros [H | H]; [tauto|]. destruct (IH H); tauto.
Qed.

Lemma avl_insert_ordered t key v :
  avl_ordered (map fst t) -> avl_ordered (map fst (avl_insert t key v)).
Proof.
  induction t as [|[k u] t IH]; simpl.
  - intros _. split; [constructor | exact I].
  - intros [Hall Hrest].
    destruct (avl_strcmp key k =? 0) eqn:E; [simpl; tauto|].
    destruct (avl_strcmp key k <? 0) eqn:E'; simpl.
    + apply Z.ltb_lt in E'. split; [|tauto].
      constructor; [exact E'|].
      rewrite Forall_forall in Hall |- *. intros x Hx.
      eapply avl_strcmp_trans; [exact E' | apply Hall, Hx].
    + split; [|apply IH, Hrest].
      rewrite Forall_forall in Hall |- *. intros x Hx.
      apply avl_insert_keys in Hx as [-> | Hx]; [|apply Hall, Hx].
      apply avl_strcmp_flip; assumption.
Qed.

Lemma avl_find_insert_eq t key v :
  key ∉ map fst t -> avl_find (avl_insert t key v) key = Some v.
Proof.
  induction t as [|[k u] t IH]; simpl; intros Hk.
  - rewrite avl_strcmp_refl. reflexivity.
  - apply not_elem_of_cons in Hk as [Hne Hk].
    destruct (avl_strcmp key k =? 0) eqn:E.
    { apply avl_strcmp_eq in E. congruence. }
    destruct (avl_strcmp key k <? 0); simpl.
    + rewrite avl_strcmp_refl. reflexivity.
    + rewrite E. apply IH, Hk.
Qed.

Lemma avl_find_insert_ne t key v k' :
  k' <> key -> avl_find (avl_insert t key v) k' = avl_find t k'.
Proof.
  intros Hne. induction t as [|[k u] t IH]; simpl.
  - destruct (avl_strcmp k' key =? 0) eqn:E; [|reflexivity].
    apply avl_strcmp_eq in E. congruence.
  - destruct (avl_strcmp key k =? 0) eqn:E; [reflexivity|].
    destruct (avl_strcmp key k <? 0); simpl.
    + destruct (avl_strcmp k' key =? 0) eqn:E'; [|reflexivity].
      apply avl_strcmp_eq in E'. congruence.
    + rewrite IH. reflexivity.
Qed.
End AvlOrder.

(** The instance, list and update layers do not touch the registry. *)
Lemma services_emit S e : kept (fun w => services w = S) (emit e).
Proof. intros w a w' H [= <- <-]. exact H. Qed.

Lemma services_store S i f : kept (fun w => services w = S) (store i f).
Proof.
  intros w a w' H. unfold store. destruct (heap w !! i); [|discriminate].
  intros [= <- <-]. exact H.
Qed.

Lemma services_free S i : kept (fun w => services w = S) (free i).
Proof.
  intros w a w' H. unfold free. destruct (heap w !! i); [|discriminate].
  intros [= <- <-]. exact H.
Qed.

Lemma services_out_of_memory S : kept (fun w => services w = S) out_of_memory.
Proof.
  intros w a w' H. unfold out_of_memory.
  destruct (oom w); intros [= <- <-]; exact H.
Qed.

Ltac svc_frame :=
  repeat first
    [ apply kept_ret
    | apply kept_undefined
    | apply kept_load
    | apply services_emit
    | apply services_store
    | apply services_free
    | apply services_out_of_memory
    | apply kept_bind; [|intros ?]
    | progress cbv beta zeta
    | match goal with
      | |- kept _ (if ?b then _ else _) => destruct b
      | |- kept _ (match ?o with Some _ => _ | None => _ end) => destruct o
      end ].

Lemma services_calloc S : kept (fun w => services w = S) calloc_instance.
Proof.
  unfold calloc_instance. apply kept_bind; [apply services_out_of_memory|].
  intros [|]; [apply kept_ret|]. intros w a w' H [= <- <-]. exact H.
Qed.

Lemma services_init S i c : kept (fun w => services w = S) (init_instance i c).
Proof. unfold init_instance. svc_frame. Qed.

Lemma services_start S i : kept (fun w => services w = S) (start_instance i).
Proof. unfold start_instance. svc_frame. Qed.

Lemma services_stop S i r :
  kept (fun w => services w = S) (stop_instance i r).
Proof. unfold stop_instance, kill. svc_frame. Qed.

Lemma services_update S i j :
  kept (fun w => services w = S) (update_instance i j).
Proof.
  unfold update_instance.
  apply kept_bind; [apply services_emit|]. intros _.
  apply kept_bind.
  { intros w b w' Hw H. apply instance_config_changed_pure in H.
    subst w'. exact Hw. }
  intros changed. apply kept_bind; [apply kept_load|]. intros inst.
  apply kept_bind; [apply services_store|]. intros _.
  destruct (negb changed); [apply kept_ret|].
  apply kept_bind; [apply services_stop | intros; apply kept_ret].
Qed.

Lemma services_free_instance S i :
  kept (fun w => services w = S) (free_instance i).
Proof.
  unfold free_instance, uloop_process_delete, uloop_timeout_cancel.
  svc_frame.
Qed.

Lemma services_free_config S oc lb r t :
  kept (fun w => services w = S) (free_config oc lb r t).
Proof. intros w a w' H [= <- <-]. rewrite freed_services. exact H. Qed.

Lemma service_update_result w s cfg tb r s' w' :
  service_update s cfg tb w = Some ((r, s'), w') ->
  r = 0 /\ services w' = services w /\ svc_config s' = Some cfg /\
  exists cur, tb_at tb SERVICE_ATTR_NAME = Some cur /\
              svc_name s' = Some (blobmsg_data cur).
Proof.
  intros H.
  assert (Hs : services w' = services w).
  { exact (kept_service_update (fun w0 => services w0 = services w)
             (services_calloc _) (fun i v => services_store _ i _)
             (fun i k => services_store _ i _)
             (services_init _) (services_start _) (services_stop _)
             (services_update _) (services_free_instance _)
             (services_free_config _)
             s cfg tb w (r, s') w' eq_refl H). }
  revert H. unfold service_update, bind, deref.
  destruct (tb_at tb SERVICE_ATTR_NAME) as [cur|]; [|discriminate].
  unfold ret at 1.
  destruct (tb_at tb SERVICE_ATTR_INSTANCES) as [tbl|].
  - destruct (vlist_update _ _) as [[t1 w1]|]; [|discriminate].
    destruct (for_each _ _ _ _) as [[t2 w2]|]; [|discriminate].
    destruct (vlist_flush _ _ _) as [[t3 w3]|]; [|discriminate].
    unfold ret, free_config. intros [= <- <- <-]. eauto 10.
  - unfold ret, free_config. intros [= <- <- <-]. eauto 10.
Qed.

Lemma service_delete_services w k s w' :
  service_delete k s w = Some (tt, w') ->
  services w' = avl_delete (services w) k.
Proof.
  unfold service_delete. unfold bind at 1.
  destruct (vlist_flush_all _ _ _) as [[t1 w1]|] eqn:E; [|discriminate].
  assert (Hs : services w1 = services w).
  { exact (kept_vlist_flush_all (fun w0 => services w0 = services w)
             (services_start _) (services_stop _)
             (services_update _) (services_free_instance _)
             (instances s) w t1 w1 eq_refl E). }
  unfold bind, get_services, put_services. intros [= <-]. simpl.
  rewrite Hs. reflexivity.
Qed.

Lemma delete_all_services : forall l w w',
  for_each l (fun _ e => service_delete (fst e) (snd e)) tt w = Some (tt, w') ->
  sublist (services w') (services w).
Proof.
  induction l as [|[k s] l IH]; intros w w'; simpl.
  - intros [= <-]. reflexivity.
  - unfold bind.
    destruct (service_delete k s w) as [[[] w1]|] eqn:E; [|discriminate].
    intros H. apply IH in H. etransitivity; [exact H|].
    rewrite (service_delete_services _ _ _ _ E). apply avl_delete_sublist.
Qed.

Lemma registry_listed_sublist w w' :
  sublist (services w') (services w) ->
  registry_listed w -> registry_listed w'.
Proof.
  intros Hsub [Hord Hnamed]. split.
  - eapply avl_ordered_sublist; [|exact Hord]. apply (fmap_sublist fst), Hsub.
  - intros k s Hin. apply Hnamed.
    eapply sublist_submseteq, elem_of_submseteq in Hsub; eassumption.
Qed.

Lemma service_handle_delete_listed w msg r w' :
  service_handle_delete msg w = Some (r, w') ->
  sublist (services w') (services w).
Proof.
  unfold service_handle_delete. destruct (tb_at _ _) as [cur|].
  - unfold bind, get_services.
    destruct (avl_find (services w) (blobmsg_data cur)) as [s|].
    + destruct (service_delete _ s w) as [[[] w1]|] eqn:E; [|discriminate].
      intros [= _ <-]. rewrite (service_delete_services _ _ _ _ E).
      apply avl_delete_sublist.
    + intros [= _ <-]. reflexivity.
  - unfold bind at 1 2, get_services at 1.
    destruct (for_each _ _ _ _) as [[[] w1]|] eqn:E; [|discriminate].
    intros [= _ <-]. eapply delete_all_services, E.
Qed.

Lemma service_handle_set_listed w msg r w' :
  registry_listed w ->
  service_handle_set msg w = Some (r, w') ->
  registry_listed w'.
Proof.
  intros [Hord Hnamed]. unfold service_handle_set. unfold bind at 1.
  destruct (out_of_memory w) as [[failed w0]|] eqn:E0; [|discriminate].
  assert (Hs0 : services w0 = services w).
  { exact (services_out_of_memory (services w) w failed w0 eq_refl E0). }
  destruct failed.
  { intros [= _ <-]. unfold registry_listed. rewrite Hs0. tauto. }
  cbv zeta.
  destruct (tb_at _ SERVICE_ATTR_NAME) as [cur|] eqn:Ename.
  2:{ intros [= _ <-]. unfold registry_listed. rewrite Hs0. tauto. }
  unfold bind at 1, get_services at 1. rewrite Hs0.
  destruct (avl_find (services w) (blobmsg_data cur)) as [s|] eqn:Efind.
  - unfold bind at 1.
    destruct (service_update s msg _ w0) as [[[r1 s1] w1]|] eqn:E1;
      [|discriminate].
    destruct (service_update_result _ _ _ _ _ _ _ E1)
      as (_ & Hs1 & _ & cur' & Hcur' & Hname).
    assert (cur' = cur) by congruence. subst cur'.
    unfold bind, get_services, put_services, ret. simpl.
    intros [= _ <-]. unfold registry_listed. simpl. rewrite Hs1, Hs0.
    split; [rewrite avl_store_keys; exact Hord|].
    intros k2 s2 H2.
    apply elem_of_avl_store in H2; [|apply avl_ordered_NoDup, Hord].
    destruct H2 as [[H2 _] | (-> & -> & _)]; [apply Hnamed, H2 | exact Hname].
  - unfold bind at 1.
    destruct (service_alloc _ w0) as [[so w1]|] eqn:Ea; [|discriminate].
    assert (Hs1 : services w1 = services w0).
    { revert Ea. unfold service_alloc, bind.
      destruct (out_of_memory w0) as [[f w00]|] eqn:E00; [|discriminate].
      pose proof (services_out_of_memory (services w0) w0 f w00 eq_refl E00).
      destruct f; [discriminate|]. intros [= _ <-]. assumption. }
    destruct so as [s|].
    2:{ intros [= _ <-]. unfold registry_listed. rewrite Hs1, Hs0. tauto. }
    unfold bind at 1.
    destruct (service_update s msg _ w1) as [[[r1 s1] w2]|] eqn:E1;
      [|discriminate].
    destruct (service_update_result _ _ _ _ _ _ _ E1)
      as (-> & Hs2 & _ & cur' & Hcur' & Hname).
    assert (cur' = cur) by congruence. subst cur'.
    simpl. unfold bind, get_services, put_services, ret. simpl.
    intros [= _ <-]. unfold registry_listed. simpl. rewrite Hs2, Hs1, Hs0.
    split; [apply avl_insert_ordered, Hord|].
    intros k2 s2 H2. apply avl_find_None in Efind.
    apply elem_of_avl_insert in H2; [|exact Efind].
    destruct H2 as [H2 | [-> ->]]; [apply Hnamed, H2 | exact Hname].
Qed.

Lemma step_registry_listed w e w' :
  registry_listed w -> step w e w' -> registry_listed w'.
Proof.
  intros Hw Hs. inversion Hs; subst.
  - eapply service_handle_set_listed; eassumption.
  - unfold service_handle_list, bind, get_services, ret in H.
    injection H as _ <-. exact Hw.
  - eapply registry_listed_sublist; [|exact Hw].
    eapply service_handle_delete_listed; eassumption.
  - pose proof (keeps_shape_uloop_handle_process i ret_code w tt w' H0)
      as (_ & Hsv & _).
    unfold registry_listed. rewrite Hsv. exact Hw.
  - pose proof (keeps_shape_uloop_process_timeout i w tt w' H0)
      as (_ & Hsv & _).
    unfold registry_listed. rewrite Hsv. exact Hw.
Qed.

Lemma reachable_registry_listed w : reachable w -> registry_listed w.
Proof.
  induction 1 as [answers | w e w' _ IH Hs].
  - split; [exact I|]. intros k s Hin. inversion Hin.
  - eapply step_registry_listed; eassumption.
Qed.

(** X2: in every reachable state [service_handle_list] leaves the state
    as it is and replies with the names under which the services are
    linked, in ascending [strcmp] order and without repetition. *)
Theorem list_replies_names_in_order w :
  reachable w ->
  service_handle_list w
    = Some ((UBUS_STATUS_OK, map fst (services w)), w) /\
  avl_ordered (map fst (services w)) /\
  NoDup (map fst (services w)).
Proof.
  intros Hr. destruct (reachable_registry_listed w Hr) as [Hord Hnamed].
  split; [|split; [exact Hord | apply avl_ordered_NoDup, Hord]].
  unfold service_handle_list, bind, get_services, ret. do 3 f_equal.
  apply map_ext_in. intros [k s] Hin. simpl.
  apply list_elem_of_In in Hin. rewrite (Hnamed k s Hin). reflexivity.
Qed.

Lemma list_replies_names_in_order_witness :
  service_handle_list world_v2
    = Some ((UBUS_STATUS_OK, map fst (services world_v2)), world_v2) /\
  avl_ordered (map fst (services world_v2)) /\
  NoDup (map fst (services world_v2)).
Proof.
  apply (list_replies_names_in_order world_v2).
  eapply reachable_step; [apply world_v1_reachable|].
  eapply step_set. apply set_v2_after_v1.
Defined.

(** ** The answers of a set request *)

(** X3: the status of a set request tells what happened.  It is
    UBUS_STATUS_UNKNOWN_ERROR exactly when the copy of the request was
    refused and UBUS_STATUS_INVALID_ARGUMENT exactly when the copy was made
    and [blobmsg_parse] left the name slot empty: the attributes it
    visited, which end where one fails [blobmsg_check_attr], hold no
    string called "name".  In both cases heap, registry and trace are as
    before.  Otherwise it is UBUS_STATUS_OK, the service is registered
    under the submitted name with the request as its configuration, and
    the other names resolve as before. *)
Theorem set_status_tells_the_outcome msg w r w' :
  service_handle_set msg w = Some (r, w') ->
  let tb := blobmsg_parse service_attrs (blobmsg_attrs msg) in
  let unchanged :=
    heap w' = heap w /\ brk w' = brk w /\ trace w' = trace w /\
    services w' = services w in
  (r = UBUS_STATUS_UNKNOWN_ERROR /\ hd false (oom w) = true /\ unchanged) \/
  (r = UBUS_STATUS_INVALID_ARGUMENT /\ hd false (oom w) = false /\
   tb_at tb SERVICE_ATTR_NAME = None /\ unchanged) \/
  (r = UBUS_STATUS_OK /\ hd false (oom w) = false /\
   exists cur s',
     tb_at tb SERVICE_ATTR_NAME = Some cur /\
     avl_find (services w') (blobmsg_data cur) = Some s' /\
     svc_name s' = Some (blobmsg_data cur) /\
     svc_config s' = Some msg /\
     forall k, k <> blobmsg_data cur ->
       avl_find (services w') k = avl_find (services w) k).
Proof.
  intros H tb unchanged. subst tb unchanged. revert H.
  unfold service_handle_set. unfold bind at 1.
  destruct (out_of_memory w) as [[failed w0]|] eqn:E0; [|discriminate].
  assert (H0 : hd false (oom w) = failed /\ heap w0 = heap w /\
               brk w0 = brk w /\ trace w0 = trace w /\
               services w0 = services w).
  { revert E0. unfold out_of_memory.
    destruct (oom w) as [|b rest]; intros [= <- <-]; simpl; tauto. }
  destruct H0 as (Hhd & Hh0 & Hb0 & Ht0 & Hs0).
  destruct failed.
  { intros [= <- <-]. left. tauto. }
  cbv zeta.
  destruct (tb_at _ SERVICE_ATTR_NAME) as [cur|] eqn:Ename.
  2:{ intros [= <- <-]. right. left. tauto. }
  intros H. right. right.
  revert H. unfold bind at 1, get_services at 1. rewrite Hs0.
  destruct (avl_find (services w) (blobmsg_data cur)) as [s|] eqn:Efind.
  - unfold bind at 1.
    destruct (service_update s msg _ w0) as [[[r1 s1] w1]|] eqn:E1;
      [|discriminate].
    destruct (service_update_result _ _ _ _ _ _ _ E1)
      as (-> & Hs1 & Hcfg & cur' & Hcur' & Hname).
    assert (cur' = cur) by congruence. subst cur'.
    unfold bind, get_services, put_services, ret. simpl.
    intros [= <- <-]. simpl. rewrite Hs1, Hs0.
    split; [reflexivity|]. split; [exact Hhd|].
    exists cur, s1. split; [reflexivity|].
    split; [eapply avl_find_store_eq; exact Efind|].
    split; [exact Hname|]. split; [exact Hcfg|].
    intros k Hk. apply avl_find_store_ne, Hk.
  - unfold bind at 1.
    destruct (service_alloc _ w0) as [[so w1]|] eqn:Ea; [|discriminate].
    assert (Hs1 : services w1 = services w0 /\ so <> None).
    { revert Ea. unfold service_alloc, bind.
      destruct (out_of_memory w0) as [[f w00]|] eqn:E00; [|discriminate].
      pose proof (services_out_of_memory (services w0) w0 f w00 eq_refl E00).
      destruct f; [discriminate|]. intros [= <- <-]. split; [assumption|].
      discriminate. }
    destruct Hs1 as [Hs1 Hso].
    destruct so as [s|]; [|contradiction].
    unfold bind at 1.
    destruct (service_update s msg _ w1) as [[[r1 s1] w2]|] eqn:E1;
      [|discriminate].
    destruct (service_update_result _ _ _ _ _ _ _ E1)
      as (-> & Hs2 & Hcfg & cur' & Hcur' & Hname).
    assert (cur' = cur) by congruence. subst cur'.
    simpl. unfold bind, get_services, put_services, ret. simpl.
    intros [= <- <-]. simpl. rewrite Hs2, Hs1, Hs0.
    split; [reflexivity|]. split; [exact Hhd|].
    exists cur, s1. split; [reflexivity|].
    split; [apply avl_find_insert_eq, avl_find_None, Efind|].
    split; [exact Hname|]. split; [exact Hcfg|].
    intros k Hk. apply avl_find_insert_ne, Hk.
Qed.

Lemma set_status_tells_the_outcome_witness :
  let w := procd_init_service [] in
  let tb := blobmsg_parse service_attrs (blobmsg_attrs msg_set_broken) in
  let unchanged :=
    heap w = heap w /\ brk w = brk w /\ trace w = trace w /\
    services w = services w in
  (UBUS_STATUS_INVALID_ARGUMENT = UBUS_STATUS_UNKNOWN_ERROR /\
   hd false (oom w) = true /\ unchanged) \/
  (UBUS_STATUS_INVALID_ARGUMENT = UBUS_STATUS_INVALID_ARGUMENT /\
   hd false (oom w) = false /\
   tb_at tb SERVICE_ATTR_NAME = None /\ unchanged) \/
  (UBUS_STATUS_INVALID_ARGUMENT = UBUS_STATUS_OK /\
   hd false (oom w) = false /\
   exists cur s',
     tb_at tb SERVICE_ATTR_NAME = Some cur /\
     avl_find (services w) (blobmsg_data cur) = Some s' /\
     svc_name s' = Some (blobmsg_data cur) /\
     svc_config s' = Some msg_set_broken /\
     forall k, k <> blobmsg_data cur ->
       avl_find (services w) k = avl_find (services w) k).
Proof.
  apply (set_status_tells_the_outcome msg_set_broken (procd_init_service [])
           UBUS_STATUS_INVALID_ARGUMENT (procd_init_service [])).
  vm_compute. reflexivity.
Defined.

(** X4: [service_alloc] uses the result of [calloc] unchecked: a set
    request for a name that is not registered yet, whose copy could be
    allocated but whose service object is refused, is undefined behaviour
    (the handler never reaches its own test of the result). *)
Theorem refused_service_is_dereferenced msg w cur rest :
  oom w = false :: true :: rest ->
  tb_at (blobmsg_parse service_attrs (blobmsg_attrs msg)) SERVICE_ATTR_NAME
    = Some cur ->
  avl_find (services w) (blobmsg_data cur) = None ->
  service_handle_set msg w = None.
Proof.
  intros Hoom Hname Hfind.
  unfold service_handle_set, bind at 1, out_of_memory. rewrite Hoom.
  cbv zeta. rewrite Hname.
  unfold bind at 1, get_services at 1. simpl. rewrite Hfind.
  unfold bind at 1, service_alloc, bind, out_of_memory. simpl.
  reflexivity.
Qed.

Lemma refused_service_is_dereferenced_witness :
  service_handle_set msg_set_v1 (procd_init_service [false; true]) = None.
Proof.
  apply (refused_service_is_dereferenced msg_set_v1
           (procd_init_service [false; true]) attr_name_net []);
    vm_compute; reflexivity.
Defined.

Lemma msg_set_v2_request_ok : request_ok msg_set_v2.
Proof.
  intros tbl a Htbl Ha Hty.
  assert (E : tb_at (blobmsg_parse service_attrs (blobmsg_attrs msg_set_v2))
                SERVICE_ATTR_INSTANCES = Some tbl_v2)
    by (vm_compute; reflexivity).
  rewrite E in Htbl. injection Htbl as <-.
  apply tbl_v2_valid; assumption.
Qed.

Lemma world_v1_versions_below : versions_below world_v1.
Proof.
  intros k s Hin. each_elem Hin. vm_compute. reflexivity.
Qed.

Lemma last_entry_snoc done a k :
  last_entry (done ++ [a]) k =
  if (blobmsg_type a =? BLOBMSG_TYPE_TABLE) && String.eqb (blobmsg_name a) k
  then Some a else last_entry done k.
Proof. unfold last_entry. rewrite rev_unit. reflexivity. Qed.

Lemma last_entry_Some attrs k a :
  last_entry attrs k = Some a ->
  a ∈ attrs /\ blobmsg_type a = BLOBMSG_TYPE_TABLE /\ blobmsg_name a = k.
Proof.
  unfold last_entry. intros H. apply find_some in H as [Hin Hb].
  apply andb_true_iff in Hb as [Hty Hnm].
  apply Z.eqb_eq in Hty. apply String.eqb_eq in Hnm.
  split; [|tauto]. apply list_elem_of_In, in_rev, Hin.
Qed.

Lemma installing_start w t : heap_ok w -> installing w t [] w t.
Proof.
  intros Hheap. constructor.
  - intros k i Hin Hk. exfalso. apply Hk.
    apply (list_elem_of_fmap_2 fst) in Hin. exact Hin.
  - intros k i _ Hk. inversion Hk.
  - reflexivity.
  - intros i Hge Hi. apply Hheap in Hi. lia.
Qed.

Lemma installing_step w0 t0 done w t ev a t1 w1 :
  adding w0 t0 done w t ev ->
  installing w0 t0 done w t ->
  (blobmsg_type a = BLOBMSG_TYPE_TABLE -> blob_valid a = true) ->
  service_instance_add t a w = Some (t1, w1) ->
  installing w0 t0 (done ++ [a]) w1 t1.
Proof.
  intros A I Hva Hrun.
  destruct A as [Av Apos Ak And Akeys Aptrs Ah Ab Ao As At Af Aold Asub
                   Alive Akept Afreed Anew Akey Asame].
  destruct I as [Inew Isub Irest Ilinked].
  destruct (Z.eq_dec (blobmsg_type a) BLOBMSG_TYPE_TABLE) as [Hty | Hty].
  2:{ rewrite (service_instance_add_skip w t a Hty) in Hrun.
      injection Hrun as <- <-.
      assert (Hsub : forall k,
                k ∈ submitted (done ++ [a]) <-> k ∈ submitted done).
      { intros k. rewrite elem_of_submitted_snoc. tauto. }
      assert (Hlast : forall k,
                last_entry (done ++ [a]) k = last_entry done k).
      { intros k. rewrite last_entry_snoc.
        apply Z.eqb_neq in Hty. rewrite Hty. reflexivity. }
      constructor.
      - intros k i Hin Hk. rewrite Hlast. apply Inew; assumption.
      - intros k i Hin Hk. rewrite Hlast. apply Isub; [exact Hin|].
        apply Hsub, Hk.
      - intros k i Hin Hk. apply (Irest k i Hin).
        intros Hd. apply Hk, Hsub, Hd.
      - exact Ilinked. }
  specialize (Hva Hty).
  assert (Hsub : forall k,
            k ∈ submitted (done ++ [a]) <->
            k ∈ submitted done \/ k = blobmsg_name a).
  { intros k. rewrite elem_of_submitted_snoc. tauto. }
  assert (Hlast : forall k,
            last_entry (done ++ [a]) k =
            if String.eqb (blobmsg_name a) k then Some a
            else last_entry done k).
  { intros k. rewrite last_entry_snoc.
    rewrite (proj2 (Z.eqb_eq _ _) Hty). reflexivity. }
  assert (Hlast_eq : last_entry (done ++ [a]) (blobmsg_name a) = Some a).
  { rewrite Hlast, String.eqb_refl. reflexivity. }
  assert (Hlast_ne : forall k, k <> blobmsg_name a ->
            last_entry (done ++ [a]) k = last_entry done k).
  { intros k Hk. rewrite Hlast.
    rewrite (proj2 (String.eqb_neq _ _)); [reflexivity | congruence]. }
  destruct (avl_find (avl t) (blobmsg_name a)) as [old|] eqn:Hfind.
  - (* the name is tracked: its instance is updated *)
    pose proof (avl_find_Some _ _ _ Hfind) as Hold.
    destruct (Alive _ _ Hold) as (inst & Hi & Hcfg & Hnv & _).
    unfold config_ok in Hcfg.
    destruct (config inst) as [c|] eqn:Hc; [|contradiction].
    assert (Hread : node_key inst <> None).
    { intros Hkey.
      rewrite (service_instance_add_dangling w t a old inst Hty
                 (no_oom_hd w Ao) Ah Hfind Hi Hkey) in Hrun.
      discriminate. }
    destruct (service_instance_add_kept w t a old inst c Hty
                (no_oom_hd w Ao) Ah Ak Hfind Hi Hread Hc Hcfg Hva)
      as [changed [_ Hrun']].
    rewrite Hrun' in Hrun. injection Hrun as <- <-.
    assert (Hother : forall k i, (k, i) ∈ avl t -> k <> blobmsg_name a ->
              i <> old).
    { intros k i Hin Hne ->. apply Hne.
      eapply NoDup_snd_inj; [exact Aptrs | exact Hin | exact Hold]. }
    constructor; simpl.
    + intros k i Hin Hk.
      destruct (decide (k = blobmsg_name a)) as [-> | Hne].
      * assert (i = old)
          by (eapply NoDup_fst_inj; [exact Akeys | exact Hin | exact Hold]).
        subst i. exists a. split; [exact Hlast_eq|].
        rewrite lookup_insert_eq.
        destruct (Inew _ _ Hold Hk) as (a' & Hl & Hh).
        apply last_entry_Some in Hl as (_ & _ & Hnm).
        rewrite Hi in Hh. injection Hh as ->. rewrite Av.
        unfold new_instance, set_config, set_node_version. simpl.
        rewrite Hnm. reflexivity.
      * rewrite lookup_insert_ne by (apply not_eq_sym; eauto).
        rewrite (Hlast_ne k Hne). apply Inew; assumption.
    + intros k i Hin Hk.
      destruct (decide (k = blobmsg_name a)) as [-> | Hne].
      * assert (i = old).
        { eapply NoDup_fst_inj; [exact Akeys | apply Aold, Hin | exact Hold]. }
        subst i. rewrite lookup_insert_eq, Hlast_eq, Av.
        destruct (decide (blobmsg_name a ∈ submitted done)) as [Hd | Hd].
        -- destruct (Isub _ _ Hin Hd) as (a' & inst0 & _ & H0 & Hh).
           rewrite Hi in Hh. injection Hh as ->.
           exists a, inst0. split; [reflexivity|]. split; [exact H0|].
           reflexivity.
        -- pose proof (Irest _ _ Hin Hd) as Hh. rewrite Hi in Hh.
           exists a, inst. split; [reflexivity|]. split; [symmetry; exact Hh|].
           reflexivity.
      * rewrite lookup_insert_ne
          by (apply not_eq_sym; eapply Hother; [apply Aold, Hin | exact Hne]).
        rewrite (Hlast_ne k Hne). apply Isub; [exact Hin|].
        apply Hsub in Hk as [Hk | Hk]; [exact Hk | contradiction].
    + intros k i Hin Hk.
      assert (Hne : k <> blobmsg_name a).
      { intros ->. apply Hk, Hsub. right. reflexivity. }
      rewrite lookup_insert_ne
        by (apply not_eq_sym; eapply Hother; [apply Aold, Hin | exact Hne]).
      apply (Irest k i Hin). intros Hd. apply Hk, Hsub. left. exact Hd.
    + intros i Hge His.
      destruct (decide (i = old)) as [-> | Hne].
      * apply elem_of_snd. eauto.
      * rewrite lookup_insert_ne in His by congruence.
        apply Ilinked; assumption.
  - (* the name is new: an instance is linked and started *)
    rewrite (service_instance_add_new w t a Hty (no_oom_hd w Ao) Hfind)
      in Hrun.
    injection Hrun as <- <-.
    pose proof (heap_ok_fresh w Ah) as Hfresh.
    apply avl_find_None in Hfind.
    assert (Hin' : forall k i,
              (k, i) ∈ avl_insert (avl t) (blobmsg_name a) (brk w) <->
              (k, i) ∈ avl t \/ (k = blobmsg_name a /\ i = brk w)).
    { intros k i. apply elem_of_avl_insert. exact Hfind. }
    assert (Hlive : forall k i, (k, i) ∈ avl t ->
              i <> brk w /\ k <> blobmsg_name a).
    { intros k i Hin. split.
      - destruct (Alive k i Hin) as (inst & H1 & _). congruence.
      - intros ->. apply Hfind. apply elem_of_fst. eauto. }
    constructor; simpl.
    + intros k i Hin Hk. apply (proj1 (Hin' k i)) in Hin.
      destruct Hin as [Hin | [-> ->]].
      * destruct (Hlive k i Hin) as [Hi Hne].
        rewrite lookup_insert_ne by congruence.
        rewrite (Hlast_ne k Hne). apply Inew; assumption.
      * exists a. split; [exact Hlast_eq|].
        rewrite lookup_insert_eq, Av. reflexivity.
    + intros k i Hin Hk.
      destruct (Hlive k i (Aold k i Hin)) as [Hi Hne].
      rewrite lookup_insert_ne by congruence.
      rewrite (Hlast_ne k Hne). apply Isub; [exact Hin|].
      apply Hsub in Hk as [Hk | Hk]; [exact Hk | contradiction].
    + intros k i Hin Hk.
      destruct (Hlive k i (Aold k i Hin)) as [Hi Hne].
      rewrite lookup_insert_ne by congruence.
      apply (Irest k i Hin). intros Hd. apply Hk, Hsub. left. exact Hd.
    + intros i Hge His. apply elem_of_snd.
      destruct (decide (i = brk w)) as [-> | Hne].
      * exists (blobmsg_name a). apply Hin'. right. tauto.
      * rewrite lookup_insert_ne in His by congruence.
        specialize (Ilinked i Hge His).
        apply elem_of_snd in Ilinked as [k Hk]. exists k. apply Hin'.
        left. exact Hk.
Qed.

Lemma installing_loop w0 t0 rest : forall done w t ev,
  adding w0 t0 done w t ev ->
  installing w0 t0 done w t ->
  (forall a, a ∈ rest -> blobmsg_type a = BLOBMSG_TYPE_TABLE ->
     blob_valid a = true) ->
  forall t' w',
    for_each rest service_instance_add t w = Some (t', w') ->
    installing w0 t0 (done ++ rest) w' t'.
Proof.
  induction rest as [|a rest IH]; intros done w t ev A I Hva t' w'; simpl.
  - intros [= <- <-]. rewrite app_nil_r. exact I.
  - destruct (adding_step_cases w0 t0 done w t ev a A)
      as [[Hnone _] | (t1 & w1 & ev1 & Hrun & A1)].
    { apply Hva. left. }
    { unfold bind. rewrite Hnone. discriminate. }
    assert (I1 : installing w0 t0 (done ++ [a]) w1 t1).
    { eapply installing_step; [exact A | exact I | | exact Hrun].
      apply Hva. left. }
    unfold bind. rewrite Hrun. intros Hloop.
    rewrite (app_assoc done [a] rest : done ++ a :: rest = _).
    eapply IH; [exact A1 | exact I1 | | exact Hloop].
    intros x Hx. apply Hva. right. exact Hx.
Qed.

Lemma reconcile_installs w t attrs :
  tree_ok w t -> heap_ok w -> no_oom w ->
  (forall a, a ∈ attrs -> blobmsg_type a = BLOBMSG_TYPE_TABLE ->
     blob_valid a = true) ->
  forall t' w',
    reconcile t attrs w = Some (t', w') ->
    (forall k i, (k, i) ∈ avl t' -> k ∉ tracked t ->
       exists a, last_entry attrs k = Some a /\
                 heap w' !! i = Some (new_instance (version t') a)) /\
    (forall k i, (k, i) ∈ avl t' -> k ∈ tracked t ->
       exists a inst0, last_entry attrs k = Some a /\
         (k, i) ∈ avl t /\ heap w !! i = Some inst0 /\
         heap w' !! i =
           Some (set_config (Some a)
                   (set_node_version (version t') inst0))) /\
    (forall i, is_Some (heap w' !! i) ->
       (i ∈ map snd (avl t')) \/
       ((i ∉ map snd (avl t)) /\ heap w' !! i = heap w !! i)).
Proof.
  intros Htree Hheap Hoom Hvalid t' w' Hrun.
  assert (Hmax : (version t <? INT_MAX) = true).
  { revert Hrun. unfold reconcile, vlist_update, bind.
    destruct (version t <? INT_MAX); [reflexivity | discriminate]. }
  pose proof (adding_start w t Htree Hheap Hoom) as A0.
  pose proof (installing_start w (set_version (version t + 1) t) Hheap) as I0.
  destruct (adding_loop_cases w _ attrs [] w _ [] A0 Hvalid)
    as [[Hnone _] | (t2 & w2 & ev2 & Hloop & A)].
  { revert Hrun. unfold reconcile, vlist_update. rewrite Hmax.
    unfold bind, ret. rewrite Hnone. discriminate. }
  pose proof (installing_loop w _ attrs [] w _ [] A0 I0 Hvalid t2 w2 Hloop)
    as I.
  simpl in A, I.
  destruct A as [Av Apos Ak And Akeys Aptrs Ah Ab Ao As At Af Aold Asub
                   Alive Akept Afreed Anew Akey Asame].
  destruct I as [Inew Isub Irest Ilinked].
  simpl in Av, Apos, Af, Aold, Akept, Anew, Inew, Isub, Irest.
  destruct (vlist_flush_loop t2 And (avl t2) [] w2)
    as (w3 & ev3 & Hflush & Ht & Hb & Ho & Hs & Hh & Hn & Hf).
  { exact Akeys. } { exact Aptrs. }
  { intros k i Hin. destruct (Alive k i Hin) as (inst & Hi & _). eauto. }
  simpl in Hflush. rewrite vlist_tree_eta in Hflush.
  assert (Hkeeps : forall k i, (k, i) ∈ avl t2 ->
            (keeps (heap w2) (version t2) i = true <-> k ∈ submitted attrs)).
  { intros k i Hin.
    destruct (Alive k i Hin) as (inst & Hi & _ & Hnv & Hyes & Hno).
    unfold keeps. rewrite Hi.
    assert (Ev1 : (node_version inst =? -1) = false) by (apply Z.eqb_neq; lia).
    assert (Ev2 : (version t2 =? -1) = false) by (apply Z.eqb_neq; lia).
    rewrite Ev1, Ev2, orb_false_r, andb_true_r, Z.eqb_eq.
    split; [|exact Hyes]. intros E.
    destruct (decide (k ∈ submitted attrs)) as [Hk | Hk]; [exact Hk|].
    specialize (Hno Hk). lia. }
  assert (E : Some (t', w') =
              Some (set_avl
                      (List.filter
                         (fun e => keeps (heap w2) (version t2) (snd e))
                         (avl t2)) t2, w3)).
  { rewrite <- Hrun. unfold reconcile, vlist_update. rewrite Hmax.
    unfold bind, ret. rewrite Hloop. exact Hflush. }
  injection E as -> ->. simpl.
  assert (Hin' : forall k i,
            (k, i) ∈ List.filter
                       (fun e => keeps (heap w2) (version t2) (snd e))
                       (avl t2) <->
            (k, i) ∈ avl t2 /\ k ∈ submitted attrs).
  { intros k i. rewrite elem_of_list_filter_bool. simpl.
    split; intros [H1 H2]; (split; [exact H1|]); apply (Hkeeps k i H1);
      exact H2. }
  assert (Hstay : forall k i, (k, i) ∈ avl t2 -> k ∈ submitted attrs ->
            heap w3 !! i = heap w2 !! i).
  { intros k i Hin Hk. specialize (Hn k i Hin).
    rewrite (proj2 (Hkeeps k i Hin) Hk) in Hn. exact Hn. }
  split; [|split].
  - intros k i Hin Hk. apply (proj1 (Hin' k i)) in Hin as [Hin Hsub].
    rewrite (Hstay k i Hin Hsub), Av. apply Inew; assumption.
  - intros k i Hin Hk. apply (proj1 (Hin' k i)) in Hin as [Hin Hsub].
    rewrite Av. unfold tracked in Hk. apply elem_of_fst in Hk as [i0 Hk].
    assert (i = i0)
      by (eapply NoDup_fst_inj; [exact Akeys | exact Hin | apply Aold, Hk]).
    subst i0. rewrite (Hstay k i Hin Hsub).
    destruct (Isub k i Hk Hsub) as (a & inst0 & H1 & H2 & H3).
    exists a, inst0. auto.
  - intros i Hi.
    destruct (decide (i ∈ map snd (avl t2))) as [Hin | Hout].
    + left. apply elem_of_snd in Hin as [k Hin]. apply elem_of_snd.
      exists k. apply Hin'. split; [exact Hin|].
      apply (Hkeeps k i Hin). specialize (Hn k i Hin).
      destruct (keeps (heap w2) (version t2) i); [reflexivity|].
      destruct Hn as [Hn _]. rewrite Hn in Hi. destruct Hi as [? Hi].
      discriminate.
    + right. rewrite (Hf i Hout) in Hi |- *.
      assert (Hlt : (i < brk w)%positive).
      { destruct (decide (brk w <= i)%positive) as [Hge | Hlt]; [|lia].
        exfalso. apply Hout. apply Ilinked; assumption. }
      assert (Hnt : i ∉ map snd (avl t)).
      { intros Hin. apply Hout. apply elem_of_snd in Hin as [k Hin].
        apply elem_of_snd. exists k. apply Aold, Hin. }
      split; [exact Hnt|]. apply Af; assumption.
Qed.

(** ** A served set request, step by step *)

Lemma bind_undefined {A B} (m : M A) (k : A -> M B) w :
  m w = None -> bind m k w = None.
Proof. intros H. unfold bind. rewrite H. reflexivity. Qed.

Lemma keys_ok_ext w w' t : heap w' = heap w -> keys_ok w t -> keys_ok w' t.
Proof. intros E H k i inst Hin Hi. rewrite E in Hi. eapply H; eassumption. Qed.

(** A set request with a name either makes [vlist_add] read a key of the
    service that cannot be read, or it is served: the request is copied,
    the tree is reconciled with the instances table if there is one, the
    old configuration is freed and the service is registered. *)
Lemma service_handle_set_cases w msg cur :
  registry_ok w -> no_oom w -> request_ok msg ->
  tb_at (blobmsg_parse service_attrs (blobmsg_attrs msg)) SERVICE_ATTR_NAME
    = Some cur ->
  version (tree_of w (blobmsg_data cur)) < INT_MAX ->
  (service_handle_set msg w = None /\
   ~ keys_ok w (tree_of w (blobmsg_data cur))) \/
  exists w0 t' w1,
    heap w0 = heap w /\ brk w0 = brk w /\ trace w0 = trace w /\
    services w0 = services w /\ no_oom w0 /\
    tree_ok w0 (tree_of w (blobmsg_data cur)) /\
    match tb_at (blobmsg_parse service_attrs (blobmsg_attrs msg))
            SERVICE_ATTR_INSTANCES with
    | Some tbl =>
        reconcile (tree_of w (blobmsg_data cur)) (blobmsg_attrs tbl) w0
          = Some (t', w1)
    | None => t' = tree_of w (blobmsg_data cur) /\ w1 = w0
    end /\
    service_handle_set msg w =
    Some (UBUS_STATUS_OK,
          set_services
            (register (services w) (blobmsg_data cur)
               {| svc_name := Some (blobmsg_data cur);
                  svc_config := Some msg; instances := t' |})
            (freed (config_of w (blobmsg_data cur))
               (map snd (avl (tree_of w (blobmsg_data cur))))
               (present
                  (tb_at (blobmsg_parse service_attrs (blobmsg_attrs msg))
                     SERVICE_ATTR_INSTANCES))
               t' w1)).
Proof.
  intros Hok Hoom Hreq Ename Hv.
  destruct (out_of_memory_run w Hoom)
    as (w0 & Hrun0 & Hh0 & Hb0 & Ht0 & Hs0 & Hoom0).
  assert (Hok0 : registry_ok w0) by (apply (registry_ok_ext w); assumption).
  unfold request_ok in Hreq.
  set (tb := blobmsg_parse service_attrs (blobmsg_attrs msg)) in *.
  pose proof Hok0 as (Hheap0 & Hkeys0 & Hnodes0 & Htrees0).
  unfold tree_of, config_of in Hv |- *. unfold register.
  destruct (avl_find (services w) (blobmsg_data cur)) as [s|] eqn:Efind.
  - (* the service exists *)
    pose proof (avl_find_Some _ _ _ Efind) as Hin.
    assert (Htree : tree_ok w0 (instances s)).
    { apply (Htrees0 (blobmsg_data cur)). rewrite Hs0. exact Hin. }
    destruct (tb_at tb SERVICE_ATTR_INSTANCES) as [tbl|] eqn:Einst.
    + destruct (reconcile_cases w0 (instances s) (blobmsg_attrs tbl))
        as [[Hnone Hbad] | (t' & w1 & ev & Hrun & Ht & Hs & _)];
        try assumption.
      { intros a Ha. apply (Hreq tbl a eq_refl Ha). }
      { left. split.
        - unfold service_handle_set. erewrite bind_run by exact Hrun0.
          cbv beta iota zeta. fold tb. rewrite Ename.
          unfold bind at 1, get_services at 1. rewrite Hs0, Efind.
          apply bind_undefined.
          eapply service_update_undefined; eassumption.
        - intros Hk. apply Hbad. apply (keys_ok_ext w); assumption. }
      right. exists w0, t', w1. do 6 (split; [assumption|]).
      split; [exact Hrun|].
      unfold service_handle_set. erewrite bind_run by exact Hrun0.
      cbv beta iota zeta. fold tb. rewrite Ename.
      unfold bind at 1, get_services at 1. rewrite Hs0, Efind.
      erewrite bind_run by (eapply service_update_reconcile; eassumption).
      unfold bind, get_services, put_services, ret. simpl.
      rewrite freed_services, Hs, Hs0. reflexivity.
    + right. exists w0, (instances s), w0. do 6 (split; [assumption|]).
      split; [split; reflexivity|].
      unfold service_handle_set. erewrite bind_run by exact Hrun0.
      cbv beta iota zeta. fold tb. rewrite Ename.
      unfold bind at 1, get_services at 1. rewrite Hs0, Efind.
      erewrite bind_run by (eapply service_update_plain; eassumption).
      unfold bind, get_services, put_services, ret. simpl.
      rewrite freed_services, Hs0. reflexivity.
  - (* a new service *)
    right.
    destruct (service_alloc_run w0 (blobmsg_data cur) Hoom0)
      as (w1 & Hrun1 & Hh1 & Hb1 & Ht1 & Hs1 & Hoom1).
    assert (Hok1 : registry_ok w1) by (apply (registry_ok_ext w0); assumption).
    pose proof Hok1 as (Hheap1 & Hkeys1 & Hnodes1 & Htrees1).
    destruct (tb_at tb SERVICE_ATTR_INSTANCES) as [tbl|] eqn:Einst.
    + destruct (reconcile_run w1 (set_keep_old true vlist_init)
                  (blobmsg_attrs tbl))
        as (t' & w2 & ev & Hrun & Ht & Hs & _); try assumption.
      { apply tree_ok_init. }
      { intros k i inst Hi. inversion Hi. }
      { intros a Ha. apply (Hreq tbl a eq_refl Ha). }
      exists w1, t', w2.
      split; [congruence|]. split; [congruence|]. split; [congruence|].
      split; [congruence|]. split; [assumption|].
      split; [apply tree_ok_init|].
      split; [exact Hrun|].
      unfold service_handle_set. erewrite bind_run by exact Hrun0.
      cbv beta iota zeta. fold tb. rewrite Ename.
      unfold bind at 1, get_services at 1. rewrite Hs0, Efind.
      erewrite bind_run by exact Hrun1. cbv beta iota.
      erewrite bind_run.
      2:{ eapply service_update_reconcile; [exact Ename | exact Einst|].
          exact Hrun. }
      unfold bind, get_services, put_services, ret. simpl.
      rewrite Hs, Hs1, Hs0. reflexivity.
    + exists w1, (set_keep_old true vlist_init), w1.
      split; [congruence|]. split; [congruence|]. split; [congruence|].
      split; [congruence|]. split; [assumption|].
      split; [apply tree_ok_init|].
      split; [split; reflexivity|].
      unfold service_handle_set. erewrite bind_run by exact Hrun0.
      cbv beta iota zeta. fold tb. rewrite Ename.
      unfold bind at 1, get_services at 1. rewrite Hs0, Efind.
      erewrite bind_run by exact Hrun1. cbv beta iota.
      erewrite bind_run.
      2:{ eapply service_update_plain; [exact Ename | exact Einst]. }
      unfold bind, get_services, put_services, ret. simpl.
      rewrite Hs1, Hs0. reflexivity.
Qed.

Lemma service_handle_set_run w msg cur :
  registry_ok w -> no_oom w -> request_ok msg ->
  tb_at (blobmsg_parse service_attrs (blobmsg_attrs msg)) SERVICE_ATTR_NAME
    = Some cur ->
  version (tree_of w (blobmsg_data cur)) < INT_MAX ->
  keys_ok w (tree_of w (blobmsg_data cur)) ->
  exists w0 t' w1,
    heap w0 = heap w /\ brk w0 = brk w /\ trace w0 = trace w /\
    services w0 = services w /\ no_oom w0 /\
    tree_ok w0 (tree_of w (blobmsg_data cur)) /\
    match tb_at (blobmsg_parse service_attrs (blobmsg_attrs msg))
            SERVICE_ATTR_INSTANCES with
    | Some tbl =>
        reconcile (tree_of w (blobmsg_data cur)) (blobmsg_attrs tbl) w0
          = Some (t', w1)
    | None => t' = tree_of w (blobmsg_data cur) /\ w1 = w0
    end /\
    service_handle_set msg w =
    Some (UBUS_STATUS_OK,
          set_services
            (register (services w) (blobmsg_data cur)
               {| svc_name := Some (blobmsg_data cur);
                  svc_config := Some msg; instances := t' |})
            (freed (config_of w (blobmsg_data cur))
               (map snd (avl (tree_of w (blobmsg_data cur))))
               (present
                  (tb_at (blobmsg_parse service_attrs (blobmsg_attrs msg))
                     SERVICE_ATTR_INSTANCES))
               t' w1)).
Proof.
  intros Hok Hoom Hreq Ename Hv Hkeys.
  destruct (service_handle_set_cases w msg cur Hok Hoom Hreq Ename Hv)
    as [[_ Hbad] | H]; [contradiction | exact H].
Qed.

Lemma last_entry_split attrs k a :
  last_entry attrs k = Some a ->
  exists l1 l2,
    attrs = l1 ++ a :: l2 /\
    blobmsg_type a = BLOBMSG_TYPE_TABLE /\ blobmsg_name a = k /\
    forall b, b ∈ l2 ->
      ~ (blobmsg_type b = BLOBMSG_TYPE_TABLE /\ blobmsg_name b = k).
Proof.
  induction attrs as [|x done IH] using rev_ind; [discriminate|].
  rewrite last_entry_snoc.
  destruct ((blobmsg_type x =? BLOBMSG_TYPE_TABLE)
            && String.eqb (blobmsg_name x) k) eqn:E.
  - intros [= <-]. apply andb_true_iff in E as [Hty Hnm].
    apply Z.eqb_eq in Hty. apply String.eqb_eq in Hnm.
    exists done, []. split; [reflexivity|]. split; [exact Hty|].
    split; [exact Hnm|]. intros b Hb. inversion Hb.
  - intros H. destruct (IH H) as (l1 & l2 & -> & Hty & Hnm & Hlater).
    exists l1, (l2 ++ [x]). split; [rewrite <- app_assoc; reflexivity|].
    split; [exact Hty|]. split; [exact Hnm|].
    intros b Hb. apply elem_of_app in Hb as [Hb | Hb]; [apply Hlater, Hb|].
    apply list_elem_of_singleton in Hb. subst b. intros [Hty' Hnm'].
    apply Z.eqb_eq in Hty'. apply String.eqb_eq in Hnm'.
    rewrite Hty', Hnm' in E. discriminate.
Qed.

(** X6: when the keys of the tracked instances can be read,
    [service_update] with an instances table leaves every tracked instance
    with the table submitted under its name, the last one when the name
    was submitted more than once, and with the new version of the tree.
    An instance made for a new name has both handlers installed, nothing
    watched or armed, no restart pending and its key in the new request;
    an instance that was tracked before is otherwise as it was, but its
    key is left pointing into the configuration that the call frees. *)
Theorem update_installs_last_entry w s cfg tb cur tbl :
  tb_at tb SERVICE_ATTR_NAME = Some cur ->
  tb_at tb SERVICE_ATTR_INSTANCES = Some tbl ->
  tree_ok w (instances s) -> keys_ok w (instances s) ->
  heap_ok w -> no_oom w ->
  version (instances s) < INT_MAX ->
  (forall a, a ∈ blobmsg_attrs tbl ->
     blobmsg_type a = BLOBMSG_TYPE_TABLE -> blob_valid a = true) ->
  exists s' w',
    service_update s cfg tb w = Some ((0, s'), w') /\
    version (instances s') = version (instances s) + 1 /\
    forall k i, (k, i) ∈ avl (instances s') ->
      exists a l1 l2 inst,
        blobmsg_attrs tbl = l1 ++ a :: l2 /\
        blobmsg_type a = BLOBMSG_TYPE_TABLE /\ blobmsg_name a = k /\
        (forall b, b ∈ l2 ->
           ~ (blobmsg_type b = BLOBMSG_TYPE_TABLE /\ blobmsg_name b = k)) /\
        heap w' !! i = Some inst /\
        config inst = Some a /\
        node_version inst = version (instances s') /\
        match avl_find (avl (instances s)) k with
        | None => inst = new_instance (version (instances s')) a
        | Some i0 =>
            i0 = i /\
            exists inst0,
              heap w !! i = Some inst0 /\
              inst = match svc_config s with
                     | Some _ => set_node_key None
                     | None => fun kept => kept
                     end
                       (set_config (Some a)
                          (set_node_version (version (instances s')) inst0))
        end.
Proof.
  intros Hname Hinst Htree Hkeys Hheap Hoom Hmax Hvalid.
  destruct (reconcile_run w (instances s) (blobmsg_attrs tbl)
              Htree Hheap Hoom Hmax Hkeys Hvalid)
    as (t' & w' & ev & Hrun & _ & _ & _ & _ & _ & _ & Hver & _ & _ & _ & _ &
        Horigin & _).
  destruct (reconcile_installs w (instances s) (blobmsg_attrs tbl)
              Htree Hheap Hoom Hvalid t' w' Hrun) as (Hnew & Hold & _).
  eexists _, _. split.
  { eapply service_update_reconcile; eassumption. }
  simpl. split; [exact Hver|].
  intros k i Hin.
  destruct (avl_find (avl (instances s)) k) as [i0|] eqn:Efind.
  - assert (Hk : k ∈ tracked (instances s)).
    { apply elem_of_fst. exists i0. apply avl_find_Some, Efind. }
    destruct (Hold k i Hin Hk) as (a & inst0 & Hlast & Hin0 & H0 & H').
    destruct (last_entry_split _ _ _ Hlast) as (l1 & l2 & E & Hty & Hnm & Hl).
    assert (Hlb : i ∈ map snd (avl (instances s)))
      by (apply elem_of_snd; eauto).
    assert (Hnodes : i ∈ map snd (avl t')) by (apply elem_of_snd; eauto).
    exists a, l1, l2.
    destruct (svc_config s) as [c|].
    + eexists. do 4 (split; [assumption|]).
      split; [apply freed_kept; eassumption|].
      split; [reflexivity|]. split; [reflexivity|].
      split; [|exists inst0; split; [exact H0 | reflexivity]].
      destruct Htree as (Hnd & _).
      eapply NoDup_fst_inj;
        [exact Hnd | apply avl_find_Some, Efind | exact Hin0].
    + eexists. do 4 (split; [assumption|]).
      split; [exact H'|].
      split; [reflexivity|]. split; [reflexivity|].
      split; [|exists inst0; split; [exact H0 | reflexivity]].
      destruct Htree as (Hnd & _).
      eapply NoDup_fst_inj;
        [exact Hnd | apply avl_find_Some, Efind | exact Hin0].
  - assert (Hk : k ∉ tracked (instances s)) by (apply avl_find_None, Efind).
    destruct (Hnew k i Hin Hk) as (a & Hlast & H').
    destruct (last_entry_split _ _ _ Hlast) as (l1 & l2 & E & Hty & Hnm & Hl).
    exists a, l1, l2, (new_instance (version t') a).
    do 4 (split; [assumption|]). split.
    { rewrite freed_frame; [exact H'|].
      intros Hlb. apply elem_of_snd in Hlb as [k' Hlb].
      destruct (Horigin k i Hin) as [Ho | Ho].
      - apply Hk. apply elem_of_fst. eauto.
      - destruct Htree as (_ & _ & _ & _ & _ & Hlive).
        destruct (Hlive k' i Hlb) as (x & Hx & _).
        assert (i < brk w)%positive by (apply Hheap; eauto). lia. }
    split; [reflexivity|]. split; reflexivity.
Qed.

Lemma update_installs_last_entry_witness :
  exists s' w',
    service_update svc_v1 msg_set_v2
      (blobmsg_parse service_attrs (blobmsg_attrs msg_set_v2)) world_v1
      = Some ((0, s'), w') /\
    version (instances s') = version (instances svc_v1) + 1 /\
    forall k i, (k, i) ∈ avl (instances s') ->
      exists a l1 l2 inst,
        blobmsg_attrs tbl_v2 = l1 ++ a :: l2 /\
        blobmsg_type a = BLOBMSG_TYPE_TABLE /\ blobmsg_name a = k /\
        (forall b, b ∈ l2 ->
           ~ (blobmsg_type b = BLOBMSG_TYPE_TABLE /\ blobmsg_name b = k)) /\
        heap w' !! i = Some inst /\
        config inst = Some a /\
        node_version inst = version (instances s') /\
        match avl_find (avl (instances svc_v1)) k with
        | None => inst = new_instance (version (instances s')) a
        | Some i0 =>
            i0 = i /\
            exists inst0,
              heap world_v1 !! i = Some inst0 /\
              inst = match svc_config svc_v1 with
                     | Some _ => set_node_key None
                     | None => fun kept => kept
                     end
                       (set_config (Some a)
                          (set_node_version (version (instances s')) inst0))
        end.
Proof.
  apply (update_installs_last_entry world_v1 svc_v1 msg_set_v2 _
           attr_name_net tbl_v2).
  - reflexivity.
  - reflexivity.
  - apply world_v1_tree_ok.
  - apply world_v1_keys_ok.
  - apply world_v1_heap_ok.
  - apply world_v1_no_oom.
  - vm_compute. reflexivity.
  - apply tbl_v2_valid.
Defined.

(** ** No instance is leaked *)

Lemma avl_delete_insert {V} (t : list (string * V)) key v :
  key ∉ map fst t -> avl_delete (avl_insert t key v) key = t.
Proof.
  induction t as [|[k u] t IH]; simpl; intros Hk.
  - rewrite avl_strcmp_refl. reflexivity.
  - apply not_elem_of_cons in Hk as [Hne Hk].
    destruct (avl_strcmp key k =? 0) eqn:E.
    { apply avl_strcmp_eq in E. congruence. }
    destruct (avl_strcmp key k <? 0); simpl.
    + rewrite avl_strcmp_refl. reflexivity.
    + rewrite E, IH by exact Hk. reflexivity.
Qed.

(** Where the live objects are after the update of a set request. *)
Lemma set_update_live w0 t tb_inst t' w1 :
  tree_ok w0 t -> heap_ok w0 -> no_oom w0 ->
  (forall tbl a, tb_inst = Some tbl -> a ∈ blobmsg_attrs tbl ->
     blobmsg_type a = BLOBMSG_TYPE_TABLE -> blob_valid a = true) ->
  match tb_inst with
  | Some tbl => reconcile t (blobmsg_attrs tbl) w0 = Some (t', w1)
  | None => t' = t /\ w1 = w0
  end ->
  heap_ok w1 /\ no_oom w1 /\ tree_ok w1 t' /\
  (forall n i, (n, i) ∈ avl t' -> (n, i) ∈ avl t \/ (brk w0 <= i)%positive) /\
  (forall i, i ∉ map snd (avl t) -> (i < brk w0)%positive ->
     heap w1 !! i = heap w0 !! i) /\
  (forall i, is_Some (heap w1 !! i) ->
     (i ∈ map snd (avl t')) \/
     ((i ∉ map snd (avl t)) /\ heap w1 !! i = heap w0 !! i)).
Proof.
  intros Htree Hheap Hoom Hvalid Hrec.
  destruct tb_inst as [tbl|].
  - assert (Hmax : version t < INT_MAX).
    { revert Hrec. unfold reconcile, vlist_update, bind.
      destruct (version t <? INT_MAX) eqn:E; [|discriminate].
      intros _. apply Z.ltb_lt, E. }
    destruct (reconcile_given w0 t (blobmsg_attrs tbl) t' w1 Htree Hheap
                Hoom Hmax (fun a => Hvalid tbl a eq_refl) Hrec)
      as (ev & _ & _ & Hheap' & Hoom' & _ & Htree' & _ &
          _ & _ & _ & _ & Horigin & Hframe & _).
    destruct (reconcile_installs w0 t (blobmsg_attrs tbl) Htree Hheap Hoom
                (fun a => Hvalid tbl a eq_refl) t' w1 Hrec)
      as (_ & _ & Hlive).
    auto 10.
  - destruct Hrec as [-> ->]. do 3 (split; [assumption|]).
    split; [auto|]. split; [auto|].
    intros i Hi.
    destruct (decide (i ∈ map snd (avl t))); [left | right]; auto.
Qed.

(** ** The structure of the registry through a turn *)

Lemma tree_ok_live w t : tree_ok w t -> tree_live w t.
Proof.
  intros (H1 & H2 & H3 & H4 & H5 & H6). repeat (split; [assumption|]).
  intros k i Hin. destruct (H6 k i Hin) as (inst & Hi & Hnv & _). eauto.
Qed.

Lemma registry_ok_live w : registry_ok w -> registry_live w.
Proof.
  intros (H1 & H2 & H3 & H4). repeat (split; [assumption|]).
  intros k s Hin. apply tree_ok_live, (H4 k s Hin).
Qed.

Lemma tree_live_frame w w' t :
  (forall i, i ∈ map snd (avl t) -> heap w' !! i = heap w !! i) ->
  tree_live w t -> tree_live w' t.
Proof.
  intros Hsame (H1 & H2 & H3 & H4 & H5 & H6).
  repeat (split; [assumption|]).
  intros k i Hin. destruct (H6 k i Hin) as (inst & Hi & Hrest).
  exists inst. rewrite Hsame; [tauto|]. apply elem_of_snd. eauto.
Qed.

Lemma tree_live_freed oc lb r t0 w t :
  tree_live w t -> tree_live (freed oc lb r t0 w) t.
Proof.
  intros (H1 & H2 & H3 & H4 & H5 & H6). repeat (split; [assumption|]).
  intros k i Hin. destruct (H6 k i Hin) as (inst & Hi & Hnv).
  destruct (freed_lookup oc lb r t0 w i)
    as [E | (inst' & c & _ & _ & _ & E1 & E2)].
  - rewrite E. eauto.
  - rewrite E2. eexists. split; [reflexivity|].
    assert (inst' = inst) by congruence. subst inst'.
    destruct r, inst; exact Hnv.
Qed.

Lemma registry_live_nodes_below w i :
  registry_live w -> i ∈ all_nodes (services w) -> (i < brk w)%positive.
Proof.
  intros (Hheap & _ & _ & Htrees) Hi.
  apply elem_of_all_nodes in Hi as (k & s & Hin & Hi).
  apply elem_of_snd in Hi as [n Hi].
  destruct (Htrees k s Hin) as (_ & _ & _ & _ & _ & Hn).
  destruct (Hn n i Hi) as (inst & Hinst & _).
  apply Hheap. rewrite Hinst. eauto.
Qed.

Lemma registry_live_store w w' k s s' :
  registry_live w -> (k, s) ∈ services w ->
  services w' = avl_store (services w) k s' ->
  heap_ok w' ->
  tree_live w' (instances s') ->
  (forall n i, (n, i) ∈ avl (instances s') ->
     (n, i) ∈ avl (instances s) \/ (brk w <= i)%positive) ->
  (forall i, i ∉ map snd (avl (instances s)) -> (i < brk w)%positive ->
     heap w' !! i = heap w !! i) ->
  registry_live w'.
Proof.
  intros Hok Hin Hsv Hheap' Htree' Horigin Hframe.
  pose proof Hok as (Hheap & Hkeys & Hnodes & Htrees).
  split; [exact Hheap'|]. rewrite Hsv.
  split; [rewrite avl_store_keys; exact Hkeys|].
  split.
  - apply (NoDup_all_nodes_store _ k s s'); try assumption.
    + apply Htree'.
    + intros i Hi. apply elem_of_snd in Hi as [n Hi].
      destruct (Horigin n i Hi) as [H | H].
      * left. apply elem_of_snd. eauto.
      * right. intros Hi'.
        pose proof (registry_live_nodes_below w i Hok Hi'). lia.
  - intros k2 s2 H2. apply elem_of_avl_store in H2; [|exact Hkeys].
    destruct H2 as [[H2 Hne] | (-> & -> & _)]; [|exact Htree'].
    apply (tree_live_frame w); [|apply (Htrees k2 s2 H2)].
    intros i Hi. apply Hframe.
    + intros Hi'.
      apply (all_nodes_disjoint _ k2 s2 k s i Hnodes H2 Hin Hne Hi Hi').
    + apply (registry_live_nodes_below w i Hok).
      apply elem_of_all_nodes. eauto.
Qed.

Lemma registry_live_insert w w' k s' :
  registry_live w -> k ∉ map fst (services w) ->
  services w' = avl_insert (services w) k s' ->
  heap_ok w' ->
  tree_live w' (instances s') ->
  (forall n i, (n, i) ∈ avl (instances s') -> (brk w <= i)%positive) ->
  (forall i, (i < brk w)%positive -> heap w' !! i = heap w !! i) ->
  registry_live w'.
Proof.
  intros Hok Hk Hsv Hheap' Htree' Hfresh Hframe.
  pose proof Hok as (Hheap & Hkeys & Hnodes & Htrees).
  split; [exact Hheap'|]. rewrite Hsv.
  split.
  { pose proof (avl_insert_perm (services w) k s' Hk) as Hp.
    rewrite Hp. simpl. apply NoDup_cons. split; assumption. }
  split.
  - apply NoDup_all_nodes_insert; try assumption; [apply Htree'|].
    intros i Hi Hi'. apply elem_of_snd in Hi as [n Hi].
    pose proof (Hfresh n i Hi).
    pose proof (registry_live_nodes_below w i Hok Hi').
    lia.
  - intros k2 s2 H2. apply elem_of_avl_insert in H2; [|exact Hk].
    destruct H2 as [H2 | [-> ->]]; [|exact Htree'].
    apply (tree_live_frame w); [|apply (Htrees k2 s2 H2)].
    intros i Hi. apply Hframe.
    apply (registry_live_nodes_below w i Hok). apply elem_of_all_nodes. eauto.
Qed.

Lemma tree_of_version w name :
  versions_below w -> version (tree_of w name) < INT_MAX.
Proof.
  intros Hver. unfold tree_of.
  destruct (avl_find (services w) name) as [s|] eqn:Efind.
  - apply (Hver name s), avl_find_Some, Efind.
  - vm_compute. reflexivity.
Qed.

(** A served set request leaves the structure of the registry sound. *)
Lemma service_handle_set_live w msg r w' :
  registry_ok w -> no_oom w -> request_ok msg -> versions_below w ->
  service_handle_set msg w = Some (r, w') ->
  registry_live w' /\ no_oom w'.
Proof.
  intros Hok Hoom Hreq Hver Hrun.
  destruct (tb_at (blobmsg_parse service_attrs (blobmsg_attrs msg))
              SERVICE_ATTR_NAME) as [cur|] eqn:Ename.
  2:{ destruct (out_of_memory_run w Hoom)
        as (w0 & Hrun0 & Hh0 & Hb0 & _ & Hs0 & Hoom0).
      revert Hrun. unfold service_handle_set.
      erewrite bind_run by exact Hrun0. cbv zeta. rewrite Ename.
      intros [= _ <-]. split; [|exact Hoom0].
      apply registry_ok_live, (registry_ok_ext w); assumption. }
  pose proof (tree_of_version w (blobmsg_data cur) Hver) as Hv.
  destruct (service_handle_set_cases w msg cur Hok Hoom Hreq Ename Hv)
    as [[Hnone _] | (w0 & t' & w1 & Hh0 & Hb0 & _ & Hs0 & Hoom0 & Htree &
                     Hrec & Hrun')]; [congruence|].
  rewrite Hrun' in Hrun. injection Hrun as _ <-.
  assert (Hok0 : registry_ok w0) by (apply (registry_ok_ext w); assumption).
  pose proof Hok0 as (Hheap0 & Hkeys0 & Hnodes0 & Htrees0).
  destruct (set_update_live w0 _ _ t' w1 Htree Hheap0 Hoom0 Hreq Hrec)
    as (Hheap1 & Hoom1 & Htree1 & Horigin & Hframe & _).
  split; [|unfold no_oom; simpl; rewrite freed_oom; exact Hoom1].
  unfold register, tree_of, config_of in *.
  destruct (avl_find (services w) (blobmsg_data cur)) as [s|] eqn:Efind.
  - pose proof (avl_find_Some _ _ _ Efind) as Hin.
    apply (registry_live_store w0 _ (blobmsg_data cur) s
             {| svc_name := Some (blobmsg_data cur);
                svc_config := Some msg; instances := t' |}).
    + apply registry_ok_live, Hok0.
    + rewrite Hs0. exact Hin.
    + simpl. rewrite Hs0. reflexivity.
    + apply (freed_heap_ok _ _ _ _ w1), Hheap1.
    + simpl. apply (tree_live_freed _ _ _ _ w1), tree_ok_live, Htree1.
    + exact Horigin.
    + intros i Hi Hlt. simpl. rewrite freed_frame by exact Hi.
      apply Hframe; assumption.
  - apply avl_find_None in Efind.
    apply (registry_live_insert w0 _ (blobmsg_data cur)
             {| svc_name := Some (blobmsg_data cur);
                svc_config := Some msg; instances := t' |}).
    + apply registry_ok_live, Hok0.
    + rewrite Hs0. exact Efind.
    + simpl. rewrite Hs0. reflexivity.
    + exact Hheap1.
    + simpl. apply tree_ok_live, Htree1.
    + intros n i Hi. destruct (Horigin n i Hi) as [H | H];
        [inversion H | exact H].
    + intros i Hlt. simpl. apply Hframe; [|exact Hlt].
      simpl. apply not_elem_of_nil.
Qed.

Lemma step_registry_live w e w' :
  registry_ok w -> no_oom w -> versions_below w ->
  (forall msg, e = RpcSet msg -> request_ok msg) ->
  step w e w' ->
  registry_live w' /\ no_oom w'.
Proof.
  intros Hok Hoom Hver Hreq Hs. inversion Hs; subst.
  - exact (service_handle_set_live w msg r w' Hok Hoom (Hreq msg eq_refl)
             Hver H).
  - unfold service_handle_list, bind, get_services, ret in H.
    injection H as _ <-. split; [apply registry_ok_live|]; assumption.
  - destruct (service_handle_delete_registry_ok w msg Hok)
      as (r' & w2 & Hrun & Hok' & Ho).
    assert (w2 = w') by congruence. subst.
    split; [apply registry_ok_live, Hok'|].
    unfold no_oom. rewrite Ho. exact Hoom.
  - pose proof (keeps_shape_uloop_handle_process i ret_code w tt w' H0)
      as Hsh.
    split; [eapply registry_ok_live, registry_ok_same_shape; eassumption|].
    destruct Hsh as (_ & _ & Ho & _). unfold no_oom. rewrite Ho. exact Hoom.
  - pose proof (keeps_shape_uloop_process_timeout i w tt w' H0) as Hsh.
    split; [eapply registry_ok_live, registry_ok_same_shape; eassumption|].
    destruct Hsh as (_ & _ & Ho & _). unfold no_oom. rewrite Ho. exact Hoom.
Qed.

Lemma service_handle_set_leak_free w msg r w' :
  registry_ok w -> leak_free w -> no_oom w -> request_ok msg ->
  versions_below w ->
  service_handle_set msg w = Some (r, w') ->
  leak_free w'.
Proof.
  intros Hok Hleak Hoom Hreq Hver Hrun.
  destruct (tb_at (blobmsg_parse service_attrs (blobmsg_attrs msg))
              SERVICE_ATTR_NAME) as [cur|] eqn:Ename.
  2:{ destruct (out_of_memory_run w Hoom)
        as (w0 & Hrun0 & Hh0 & _ & _ & Hs0 & _).
      revert Hrun. unfold service_handle_set.
      erewrite bind_run by exact Hrun0. cbv zeta. rewrite Ename.
      intros [= _ <-]. unfold leak_free. rewrite Hh0, Hs0. exact Hleak. }
  pose proof Hok as (Hheap & Hkeys & Hnodes & Htrees).
  assert (Hv : version (tree_of w (blobmsg_data cur)) < INT_MAX).
  { unfold tree_of.
    destruct (avl_find (services w) (blobmsg_data cur)) as [s|] eqn:Efind.
    - apply (Hver (blobmsg_data cur) s), avl_find_Some, Efind.
    - vm_compute. reflexivity. }
  destruct (service_handle_set_cases w msg cur Hok Hoom Hreq Ename Hv)
    as [[Hnone _] | (w0 & t' & w1 & Hh0 & Hb0 & _ & Hs0 & Hoom0 & Htree &
                     Hrec & Hrun')]; [congruence|].
  rewrite Hrun' in Hrun. injection Hrun as _ <-.
  assert (Hheap0 : heap_ok w0).
  { intros i Hi. rewrite Hb0. apply Hheap. rewrite <- Hh0. exact Hi. }
  destruct (set_update_live w0 _ _ t' w1 Htree Hheap0 Hoom0 Hreq Hrec)
    as (_ & _ & _ & _ & _ & Hlive).
  intros i Hi. apply freed_live in Hi. simpl.
  apply elem_of_all_nodes.
  unfold register, tree_of in *.
  destruct (avl_find (services w) (blobmsg_data cur)) as [s|] eqn:Efind.
  - pose proof (avl_find_Some _ _ _ Efind) as Hin.
    destruct (Hlive i Hi) as [Hi' | [Hout Hsame]].
    + exists (blobmsg_data cur),
        {| svc_name := Some (blobmsg_data cur); svc_config := Some msg;
           instances := t' |}.
      split; [|exact Hi'].
      apply elem_of_avl_store; [exact Hkeys|]. right.
      split; [reflexivity|]. split; [reflexivity|].
      apply elem_of_fst. eauto.
    + rewrite Hsame, Hh0 in Hi.
      apply Hleak, elem_of_all_nodes in Hi as (k2 & s2 & H2 & Hi2).
      exists k2, s2. split; [|exact Hi2].
      apply elem_of_avl_store; [exact Hkeys|]. left.
      split; [exact H2|]. intros ->.
      assert (s2 = s)
        by (eapply NoDup_fst_inj; [exact Hkeys | exact H2 | exact Hin]).
      subst s2. contradiction.
  - apply avl_find_None in Efind.
    destruct (Hlive i Hi) as [Hi' | [Hout Hsame]].
    + exists (blobmsg_data cur),
        {| svc_name := Some (blobmsg_data cur); svc_config := Some msg;
           instances := t' |}.
      split; [|exact Hi'].
      apply elem_of_avl_insert; [exact Efind|]. right. split; reflexivity.
    + rewrite Hsame, Hh0 in Hi.
      apply Hleak, elem_of_all_nodes in Hi as (k2 & s2 & H2 & Hi2).
      exists k2, s2. split; [|exact Hi2].
      apply elem_of_avl_insert; [exact Efind|]. left. exact H2.
Qed.

Lemma service_handle_delete_leak_free w msg r w' :
  registry_ok w -> leak_free w ->
  service_handle_delete msg w = Some (r, w') ->
  leak_free w'.
Proof.
  intros Hok Hleak. pose proof Hok as (Hheap & Hkeys & Hnodes & Htrees).
  unfold service_handle_delete.
  destruct (tb_at (blobmsg_parse service_del_attrs (blobmsg_attrs msg))
              SERVICE_ATTR_NAME) as [cur|].
  - unfold bind, get_services; simpl.
    destruct (avl_find (services w) (blobmsg_data cur)) as [s|] eqn:Efind.
    2:{ intros [= _ <-]. exact Hleak. }
    pose proof (avl_find_Some _ _ _ Efind) as Hin.
    destruct (service_delete_run w (blobmsg_data cur) s)
      as (w1 & ev & Hrun & Ht & Hs & Hb & Ho & Hh & Hgone & Hf).
    { apply (Htrees _ _ Hin). }
    rewrite Hrun. intros [= _ <-]. intros i Hi.
    assert (Hout : i ∉ map snd (avl (instances s))).
    { intros Hi'. apply elem_of_snd in Hi' as [n Hi'].
      destruct (Hgone n i Hi') as [E _]. rewrite E in Hi.
      destruct Hi as [? Hi]. discriminate. }
    rewrite (Hf i Hout) in Hi.
    apply Hleak, elem_of_all_nodes in Hi as (k2 & s2 & H2 & Hi2).
    apply elem_of_all_nodes. exists k2, s2. split; [|exact Hi2].
    rewrite Hs. apply elem_of_avl_delete; [exact Hkeys|].
    split; [exact H2|]. intros ->.
    assert (s2 = s)
      by (eapply NoDup_fst_inj; [exact Hkeys | exact H2 | exact Hin]).
    subst s2. contradiction.
  - destruct (delete_all_loop (services w) w eq_refl Hkeys Hnodes Htrees)
      as (w1 & ev & Hloop & Ht & Hs & Hb & Ho & Hh & Hgone & Hf).
    unfold bind at 1 2, get_services at 1. rewrite Hloop.
    intros [= _ <-]. intros i Hi. exfalso.
    assert (Hout : i ∉ all_nodes (services w)).
    { intros Hi'. apply elem_of_all_nodes in Hi' as (k & s & Hin & Hi').
      apply elem_of_snd in Hi' as [n Hi'].
      destruct (Hgone k s n i Hin Hi') as [E _]. rewrite E in Hi.
      destruct Hi as [? Hi]. discriminate. }
    rewrite (Hf i Hout) in Hi. apply Hout, Hleak, Hi.
Qed.

Lemma leak_free_same_shape w w' :
  same_shape w w' -> leak_free w -> leak_free w'.
Proof.
  intros (_ & Hs & _ & Hh) Hleak i Hi. rewrite Hs. apply Hleak.
  specialize (Hh i). destruct (heap w !! i); [eauto|].
  destruct (heap w' !! i); [contradiction | exact Hi].
Qed.

(** X5: on a well-formed registry (distinct service names, no instance
    shared between services, every linked instance live with a valid
    configuration) whose instance keys can all be read, every valid
    request is answered when the allocations are served: no handler runs
    into undefined behaviour.  Whatever turn is taken from it leaves the
    structure of the registry sound: distinct names, no shared instance,
    every linked instance live.  The configurations and the keys need not
    be readable afterwards. *)
Theorem valid_turn_is_answered w e :
  registry_ok w -> registry_keys_ok w -> no_oom w -> versions_below w ->
  (forall msg, e = RpcSet msg -> request_ok msg) ->
  match e with
  | ProcessExit _ _ | TimerExpiry _ => True
  | _ => exists w', step w e w'
  end /\
  forall w', step w e w' -> registry_live w' /\ no_oom w'.
Proof.
  intros Hok Hread Hoom Hver Hreq. split.
  - destruct e as [msg | | msg | |]; try exact I.
    + destruct (tb_at (blobmsg_parse service_attrs (blobmsg_attrs msg))
                  SERVICE_ATTR_NAME) as [cur|] eqn:Ename.
      * destruct (service_handle_set_run w msg cur Hok Hoom
                    (Hreq msg eq_refl) Ename)
          as (w0 & t' & w1 & _ & _ & _ & _ & _ & _ & _ & Hrun).
        { apply tree_of_version, Hver. }
        { unfold tree_of.
          destruct (avl_find (services w) (blobmsg_data cur)) as [s|] eqn:E.
          - apply (Hread (blobmsg_data cur)), avl_find_Some, E.
          - intros k i inst Hin. inversion Hin. }
        eexists. eapply step_set, Hrun.
      * destruct (out_of_memory_run w Hoom) as (w0 & Hrun0 & _).
        exists w0. eapply step_set. unfold service_handle_set.
        erewrite bind_run by exact Hrun0. cbv zeta. rewrite Ename.
        reflexivity.
    + eexists. eapply step_list. reflexivity.
    + destruct (service_handle_delete_registry_ok w msg Hok)
        as (r & w' & Hrun & _).
      exists w'. eapply step_delete, Hrun.
  - intros w' Hs. eapply step_registry_live; eassumption.
Qed.

Lemma world_v1_registry_keys_ok : registry_keys_ok world_v1.
Proof. intros k s Hin. each_elem Hin. apply world_v1_keys_ok. Qed.

Lemma valid_turn_is_answered_witness :
  (exists w', step world_v1 (RpcSet msg_set_v2) w') /\
  forall w', step world_v1 (RpcSet msg_set_v2) w' ->
    registry_live w' /\ no_oom w'.
Proof.
  apply (valid_turn_is_answered world_v1 (RpcSet msg_set_v2)
           world_v1_registry_ok world_v1_registry_keys_ok world_v1_no_oom
           world_v1_versions_below).
  intros msg [= <-]. exact msg_set_v2_request_ok.
Defined.

(** X7: along turns of the event loop whose requests are valid and whose
    allocations are served, the live objects are exactly the instances
    linked in the trees of the registered services: nothing allocated is
    left behind unlinked, and nothing linked has been freed. *)
Theorem no_instance_is_leaked w e w' :
  registry_ok w -> leak_free w -> no_oom w -> versions_below w ->
  (forall msg, e = RpcSet msg -> request_ok msg) ->
  step w e w' ->
  forall i, is_Some (heap w' !! i) <-> i ∈ all_nodes (services w').
Proof.
  intros Hok Hleak Hoom Hver Hreq Hs.
  destruct (step_registry_live w e w' Hok Hoom Hver Hreq Hs) as [Hok' _].
  assert (Hleak' : leak_free w').
  { inversion Hs; subst.
    - exact (service_handle_set_leak_free w msg r w' Hok Hleak Hoom
               (Hreq msg eq_refl) Hver H).
    - unfold service_handle_list, bind, get_services, ret in H.
      injection H as _ <-. exact Hleak.
    - exact (service_handle_delete_leak_free w msg r w' Hok Hleak H).
    - eapply leak_free_same_shape; [|exact Hleak].
      eapply keeps_shape_uloop_handle_process; eassumption.
    - eapply leak_free_same_shape; [|exact Hleak].
      eapply keeps_shape_uloop_process_timeout; eassumption. }
  intros i. split; [apply Hleak'|].
  intros Hi. destruct Hok' as (_ & _ & _ & Htrees).
  apply elem_of_all_nodes in Hi as (k & s & Hin & Hi).
  apply elem_of_snd in Hi as [n Hi].
  destruct (Htrees k s Hin) as (_ & _ & _ & _ & _ & Hlive).
  destruct (Hlive n i Hi) as (inst & Hinst & _). rewrite Hinst. eauto.
Qed.

Lemma world_v1_leak_free : leak_free world_v1.
Proof.
  intros i [inst Hi]. simpl in Hi |- *.
  destruct (decide (i = 1%positive)) as [-> | H1].
  { vm_compute. right. left. }
  destruct (decide (i = 2%positive)) as [-> | H2].
  { vm_compute. left. }
  rewrite lookup_insert_ne in Hi by congruence.
  rewrite lookup_insert_ne in Hi by congruence.
  rewrite lookup_empty in Hi. discriminate.
Qed.

Lemma no_instance_is_leaked_witness :
  step world_v1 (RpcSet msg_set_v2) world_v2 /\
  forall i, is_Some (heap world_v2 !! i) <-> i ∈ all_nodes (services world_v2).
Proof.
  assert (Hs : step world_v1 (RpcSet msg_set_v2) world_v2)
    by (eapply step_set; apply set_v2_after_v1).
  split; [exact Hs|].
  apply (no_instance_is_leaked world_v1 (RpcSet msg_set_v2) world_v2
           world_v1_registry_ok world_v1_leak_free world_v1_no_oom
           world_v1_versions_below).
  - intros msg [= <-]. exact msg_set_v2_request_ok.
  - exact Hs.
Defined.

Lemma msg_set_v1_request_ok : request_ok msg_set_v1.
Proof.
  intros tbl a Htbl Ha Hty.
  assert (E : tb_at (blobmsg_parse service_attrs (blobmsg_attrs msg_set_v1))
                SERVICE_ATTR_INSTANCES = Some tbl_v1)
    by (vm_compute; reflexivity).
  rewrite E in Htbl. injection Htbl as <-.
  simpl in Ha. each_elem Ha; reflexivity.
Qed.

(** X8: registering a service and deleting it again is a round trip: a
    served, valid set request for a name that is not registered, followed
    by a delete request for that name, leaves the heap and the registry
    exactly as they were; every instance allocated for the service has
    been freed. *)
Theorem set_then_delete_restores w msg del cur dcur :
  registry_ok w -> no_oom w -> request_ok msg ->
  tb_at (blobmsg_parse service_attrs (blobmsg_attrs msg)) SERVICE_ATTR_NAME
    = Some cur ->
  avl_find (services w) (blobmsg_data cur) = None ->
  tb_at (blobmsg_parse service_del_attrs (blobmsg_attrs del)) SERVICE_DEL_NAME
    = Some dcur ->
  blobmsg_data dcur = blobmsg_data cur ->
  exists w1 w2,
    service_handle_set msg w = Some (UBUS_STATUS_OK, w1) /\
    avl_find (services w1) (blobmsg_data cur) <> None /\
    service_handle_delete del w1 = Some (UBUS_STATUS_OK, w2) /\
    heap w2 = heap w /\
    services w2 = services w.
Proof.
  intros Hok Hoom Hreq Ename Efind Hdel Hd.
  pose proof Hok as (Hheap & Hkeys & Hnodes & Htrees).
  assert (Hv : version (tree_of w (blobmsg_data cur)) < INT_MAX).
  { unfold tree_of. rewrite Efind. vm_compute. reflexivity. }
  destruct (service_handle_set_run w msg cur Hok Hoom Hreq Ename Hv)
    as (w0 & t' & w1 & Hh0 & Hb0 & _ & Hs0 & Hoom0 & Htree & Hrec & Hrun).
  { unfold tree_of. rewrite Efind. intros k i inst Hin. inversion Hin. }
  unfold tree_of, register, config_of in *. rewrite Efind in *.
  rewrite freed_None in Hrun.
  assert (Hheap0 : heap_ok w0).
  { intros i Hi. rewrite Hb0. apply Hheap. rewrite <- Hh0. exact Hi. }
  destruct (set_update_live w0 _ _ t' w1 Htree Hheap0 Hoom0 Hreq Hrec)
    as (_ & _ & Htree' & Horigin & Hframe & Hlive).
  apply avl_find_None in Efind.
  match type of Hrun with
  | _ = Some (_, ?x) => set (w1' := x) in *
  end.
  set (s' := {| svc_name := Some (blobmsg_data cur); svc_config := Some msg;
                instances := t' |}) in *.
  assert (Hfound : avl_find (services w1') (blobmsg_data cur) = Some s').
  { unfold w1'. simpl. apply avl_find_insert_eq, Efind. }
  destruct (service_delete_run w1' (blobmsg_data cur) s')
    as (w2 & ev & Hrun2 & _ & Hs2 & _ & _ & _ & Hgone & Hf).
  { apply (tree_ok_frame w1); [reflexivity | exact Htree']. }
  exists w1', w2. split; [exact Hrun|].
  split; [rewrite Hfound; discriminate|].
  split.
  { unfold service_handle_delete.
    change SERVICE_DEL_NAME with SERVICE_ATTR_NAME in Hdel.
    rewrite Hdel, Hd. unfold bind at 1, get_services at 1.
    rewrite Hfound. unfold bind. rewrite Hrun2. reflexivity. }
  split.
  - apply map_eq. intros i.
    assert (Hnone : (brk w <= i)%positive -> heap w !! i = None).
    { intros Hge. destruct (heap w !! i) eqn:E; [|reflexivity].
      assert (i < brk w)%positive by (apply Hheap; rewrite E; eauto). lia. }
    destruct (decide (i ∈ map snd (avl t'))) as [Hin | Hout].
    + apply elem_of_snd in Hin as [n Hin].
      destruct (Hgone n i Hin) as [-> _]. symmetry. apply Hnone.
      destruct (Horigin n i Hin) as [H | H]; [inversion H | lia].
    + rewrite (Hf i Hout). unfold w1'. simpl.
      destruct (heap w1 !! i) as [inst|] eqn:E.
      * destruct (Hlive i) as [H | [_ H]]; [rewrite E; eauto | contradiction|].
        rewrite <- E, H, Hh0. reflexivity.
      * symmetry. destruct (decide (i < brk w)%positive) as [Hlt | Hge].
        -- rewrite <- Hh0, <- (Hframe i); [exact E | | lia].
           simpl. apply not_elem_of_nil.
        -- apply Hnone. lia.
  - rewrite Hs2. unfold w1'. simpl. apply avl_delete_insert, Efind.
Qed.

Lemma set_then_delete_restores_witness :
  exists w1 w2,
    service_handle_set msg_set_v1 (procd_init_service [])
      = Some (UBUS_STATUS_OK, w1) /\
    avl_find (services w1) (blobmsg_data attr_name_net) <> None /\
    service_handle_delete msg_del_net w1 = Some (UBUS_STATUS_OK, w2) /\
    heap w2 = heap (procd_init_service []) /\
    services w2 = services (procd_init_service []).
Proof.
  apply (set_then_delete_restores (procd_init_service []) msg_set_v1
           msg_del_net attr_name_net attr_name_net).
  - apply registry_ok_init.
  - constructor.
  - exact msg_set_v1_request_ok.
  - reflexivity.
  - reflexivity.
  - reflexivity.
  - reflexivity.
Defined.

(** ** Submitting the same instances again *)

Lemma submitted_cons a rest :
  submitted (a :: rest) =
  (if blobmsg_type a =? BLOBMSG_TYPE_TABLE then [blobmsg_name a] else [])
  ++ submitted rest.
Proof.
  unfold submitted. simpl.
  destruct (blobmsg_type a =? BLOBMSG_TYPE_TABLE); reflexivity.
Qed.

Lemma elem_of_submitted attrs k :
  k ∈ submitted attrs <->
  exists a, a ∈ attrs /\ blobmsg_type a = BLOBMSG_TYPE_TABLE /\
            blobmsg_name a = k.
Proof.
  unfold submitted. rewrite list_elem_of_fmap. split.
  - intros (a & -> & Ha). apply elem_of_list_filter_bool in Ha as [Ha Hty].
    apply Z.eqb_eq in Hty. eauto.
  - intros (a & Ha & Hty & <-). exists a. split; [reflexivity|].
    apply elem_of_list_filter_bool. split; [exact Ha|].
    apply Z.eqb_eq, Hty.
Qed.

Lemma quiet_loop t :
  keep_old t = true -> NoDup (map fst (avl t)) -> NoDup (map snd (avl t)) ->
  forall rest w,
  heap_ok w -> no_oom w -> NoDup (submitted rest) ->
  (forall i, i ∈ map snd (avl t) -> exists inst c,
     heap w !! i = Some inst /\ node_key inst <> None /\
     config inst = Some c /\ blob_valid c = true) ->
  in_sync w t rest ->
  exists w' ev,
    for_each rest service_instance_add t w = Some (t, w') /\
    trace w' = trace w ++ ev /\
    Forall (fun e => quiet_event e = true) ev.
Proof.
  intros Hkeep Hkeys Hptrs.
  induction rest as [|a rest IH]; intros w Hheap Hoom Hnd Hlive Hsync.
  - exists w, []. simpl. rewrite app_nil_r. auto.
  - simpl.
    destruct (Z.eq_dec (blobmsg_type a) BLOBMSG_TYPE_TABLE) as [Hty | Hty].
    + destruct (Hsync a) as (Hva & i & inst & c & Hin & Hi & Hc & Him);
        [left | exact Hty |].
      destruct (Hlive i) as (inst' & c' & Hi' & Hkey & Hc' & Hvc).
      { apply elem_of_snd. eauto. }
      assert (inst' = inst) by congruence. subst inst'.
      assert (c' = c) by congruence. subst c'.
      pose proof (avl_find_elem _ _ _ Hkeys Hin) as Hfind.
      destruct (service_instance_add_kept w t a i inst c Hty
                  (no_oom_hd w Hoom) Hheap Hkeep Hfind Hi Hkey Hc Hvc Hva)
        as [changed [Hiff Hrun]].
      assert (changed = false) by (apply Hiff, Him). subst changed.
      simpl in Hrun.
      match type of Hrun with
      | _ = Some (_, ?x) => set (w1 := x) in *
      end.
      rewrite submitted_cons, (proj2 (Z.eqb_eq _ _) Hty) in Hnd.
      simpl in Hnd. apply NoDup_cons in Hnd as [Hfresh Hnd].
      destruct (IH w1) as (w' & ev & Hloop & Ht & Hq).
      * intros j Hj. unfold w1 in Hj |- *. simpl in Hj |- *.
        destruct (decide (j = i)) as [-> | Hne].
        -- assert (i < brk w)%positive by (apply Hheap; rewrite Hi; eauto).
           lia.
        -- rewrite lookup_insert_ne in Hj by congruence.
           apply Hheap in Hj. lia.
      * unfold no_oom, w1. simpl. apply no_oom_tl, Hoom.
      * exact Hnd.
      * intros j Hj. unfold w1. simpl.
        destruct (decide (j = i)) as [-> | Hne].
        -- rewrite lookup_insert_eq. eexists _, a.
           split; [reflexivity|]. split; [exact Hkey|].
           split; [reflexivity | exact Hva].
        -- rewrite lookup_insert_ne by congruence. apply Hlive, Hj.
      * intros b Hb Htb.
        destruct (Hsync b) as (Hvb & j & instb & cb & Hinb & Hj & Hcb & Himb);
          [right; exact Hb | exact Htb |].
        split; [exact Hvb|]. exists j, instb, cb.
        split; [exact Hinb|]. split; [|tauto].
        unfold w1. simpl. rewrite lookup_insert_ne; [exact Hj|].
        intros <-. apply Hfresh. apply elem_of_submitted.
        exists b. split; [exact Hb|]. split; [exact Htb|].
        eapply NoDup_snd_inj; [exact Hptrs | exact Hinb | exact Hin].
      * exists w', ([CallUpdate i (brk w); CallFree (brk w)] ++ ev).
        unfold bind. rewrite Hrun. split; [exact Hloop|].
        split.
        -- rewrite Ht. unfold w1. simpl. rewrite <- !app_assoc. reflexivity.
        -- repeat constructor. exact Hq.
    + rewrite submitted_cons in Hnd.
      rewrite (proj2 (Z.eqb_neq _ _) Hty) in Hnd. simpl in Hnd.
      destruct (IH w Hheap Hoom Hnd Hlive) as (w' & ev & Hloop & Ht & Hq).
      { intros b Hb. apply Hsync. right. exact Hb. }
      exists w', ev. unfold bind.
      rewrite (service_instance_add_skip w t a Hty). auto.
Qed.

Lemma flush_all_kept t : forall l w,
  (forall k i, (k, i) ∈ l -> keeps (heap w) (version t) i = true) ->
  for_each l flush_body t w = Some (t, w).
Proof.
  induction l as [|[k i] l IH]; intros w Hk; simpl; [reflexivity|].
  unfold bind at 1.
  rewrite (flush_body_keep w t k i) by (apply (Hk k); left).
  apply IH. intros k' i' Hin. apply (Hk k'). right. exact Hin.
Qed.

Lemma reconcile_quiet w t attrs :
  tree_ok w t -> keys_ok w t -> heap_ok w -> no_oom w ->
  version t < INT_MAX ->
  NoDup (submitted attrs) ->
  (forall k, k ∈ tracked t -> k ∈ submitted attrs) ->
  in_sync w t attrs ->
  exists w' ev,
    reconcile t attrs w = Some (set_version (version t + 1) t, w') /\
    trace w' = trace w ++ ev /\
    Forall (fun e => quiet_event e = true) ev.
Proof.
  intros Htree Hread Hheap Hoom Hmax Hnd Hall Hsync.
  pose proof Htree as (Hkeys & Hptrs & Hv & Hkeep & Hnodel & Hnodes).
  set (t0 := set_version (version t + 1) t).
  destruct (quiet_loop t0 Hkeep Hkeys Hptrs attrs w Hheap Hoom Hnd)
    as (w2 & ev & Hloop & Ht & Hq).
  { intros i Hi. apply elem_of_snd in Hi as [k Hi].
    destruct (Hnodes k i Hi) as (inst & Hinst & _ & Hc).
    unfold config_ok in Hc. destruct (config inst) as [c|] eqn:E;
      [|contradiction].
    exists inst, c. split; [exact Hinst|].
    split; [apply (Hread k i inst Hi Hinst) | auto]. }
  { exact Hsync. }
  assert (Hvalid : forall a, a ∈ attrs ->
            blobmsg_type a = BLOBMSG_TYPE_TABLE -> blob_valid a = true).
  { intros a Ha Hty. apply (Hsync a Ha Hty). }
  pose proof (adding_start w t Htree Hheap Hoom) as A0.
  destruct (adding_loop w _ attrs [] w _ [] A0 Hread Hvalid)
    as (t2 & w2' & ev2 & Hloop' & A).
  fold t0 in Hloop'. rewrite Hloop in Hloop'. injection Hloop' as <- <-.
  simpl in A. destruct A as [_ _ _ _ _ _ _ _ _ _ _ _ _ _ Alive _ _ _ _ _].
  exists w2, ev. split; [|split; assumption].
  unfold reconcile, vlist_update. apply Z.ltb_lt in Hmax. rewrite Hmax.
  unfold bind, ret. fold t0. rewrite Hloop.
  unfold vlist_flush. apply flush_all_kept.
  intros k i Hin. destruct (Alive k i Hin) as (inst & Hi & _ & Hnv & Hyes & _).
  unfold keeps. rewrite Hi, Hyes.
  - rewrite Z.eqb_refl. simpl.
    apply negb_true_iff, Z.eqb_neq. simpl. lia.
  - apply Hall. apply elem_of_fst. eauto.
Qed.

Lemma submitted_inj attrs a b :
  NoDup (submitted attrs) -> a ∈ attrs -> b ∈ attrs ->
  blobmsg_type a = BLOBMSG_TYPE_TABLE -> blobmsg_type b = BLOBMSG_TYPE_TABLE ->
  blobmsg_name a = blobmsg_name b -> a = b.
Proof.
  induction attrs as [|x l IH]; intros Hnd Ha Hb Hta Htb Hn.
  { inversion Ha. }
  rewrite submitted_cons in Hnd.
  assert (Hl : NoDup (submitted l)).
  { destruct (blobmsg_type x =? BLOBMSG_TYPE_TABLE); simpl in Hnd;
      [apply NoDup_cons in Hnd; tauto | exact Hnd]. }
  apply elem_of_cons in Ha as [-> | Ha];
    apply elem_of_cons in Hb as [-> | Hb].
  - reflexivity.
  - exfalso. rewrite (proj2 (Z.eqb_eq _ _) Hta) in Hnd. simpl in Hnd.
    apply NoDup_cons in Hnd as [Hx _]. apply Hx, elem_of_submitted.
    exists b. auto.
  - exfalso. rewrite (proj2 (Z.eqb_eq _ _) Htb) in Hnd. simpl in Hnd.
    apply NoDup_cons in Hnd as [Hx _]. apply Hx, elem_of_submitted.
    exists a. auto.
  - apply IH; assumption.
Qed.

Lemma quiet_events ev :
  Forall (fun e => quiet_event e = true) ev ->
  forall e, e ∈ ev ->
    (exists i q, e = CallUpdate i q) \/ (exists q, e = CallFree q).
Proof.
  intros H e He. rewrite Forall_forall in H. specialize (H e He).
  destruct e; try discriminate; eauto.
Qed.

(** X9: resubmitting what is installed starts and stops nothing.  When
    the keys of the tracked instances can be read, the submitted names are
    distinct, every tracked name is submitted and every submitted table
    has the bytes of the configuration its instance holds,
    [service_update] starts, stops and signals no instance: it records
    only the calls of [update_instance] and the release of the instances
    allocated for the request, and the tree links the same instances at
    the same addresses as before, each with its process, its timer and
    the bytes of its configuration.  Their keys are left pointing into
    the configuration that the call frees. *)
Theorem resubmission_is_quiet w s cfg tb cur tbl :
  tb_at tb SERVICE_ATTR_NAME = Some cur ->
  tb_at tb SERVICE_ATTR_INSTANCES = Some tbl ->
  tree_ok w (instances s) -> keys_ok w (instances s) ->
  heap_ok w -> no_oom w ->
  version (instances s) < INT_MAX ->
  NoDup (submitted (blobmsg_attrs tbl)) ->
  (forall k, k ∈ tracked (instances s) -> k ∈ submitted (blobmsg_attrs tbl)) ->
  in_sync w (instances s) (blobmsg_attrs tbl) ->
  exists s' w' ev,
    service_update s cfg tb w = Some ((0, s'), w') /\
    trace w' = trace w ++ ev /\
    (forall e, e ∈ ev ->
       (exists i q, e = CallUpdate i q) \/ (exists q, e = CallFree q)) /\
    avl (instances s') = avl (instances s) /\
    forall k i, (k, i) ∈ avl (instances s) ->
      exists inst0 inst c0 c,
        heap w !! i = Some inst0 /\ heap w' !! i = Some inst /\
        proc inst = proc inst0 /\ timeout inst = timeout inst0 /\
        restart inst = restart inst0 /\
        config inst0 = Some c0 /\ config inst = Some c /\
        blob_image c = blob_image c0 /\
        node_key inst = match svc_config s with
                        | Some _ => None
                        | None => node_key inst0
                        end.
Proof.
  intros Hname Hinst Htree Hread Hheap Hoom Hmax Hnd Hall Hsync.
  destruct (reconcile_quiet w (instances s) (blobmsg_attrs tbl)
              Htree Hread Hheap Hoom Hmax Hnd Hall Hsync)
    as (w' & ev & Hrun & Ht & Hq).
  assert (Hvalid : forall a, a ∈ blobmsg_attrs tbl ->
            blobmsg_type a = BLOBMSG_TYPE_TABLE -> blob_valid a = true).
  { intros a Ha Hty. apply (Hsync a Ha Hty). }
  destruct (reconcile_installs w (instances s) (blobmsg_attrs tbl)
              Htree Hheap Hoom Hvalid _ w' Hrun) as (_ & Hold & _).
  eexists _, _, ev. split.
  { eapply service_update_reconcile; eassumption. }
  split; [rewrite freed_trace; exact Ht|].
  split; [apply quiet_events, Hq|].
  split; [reflexivity|].
  intros k i Hin.
  assert (Hk : k ∈ tracked (instances s)) by (apply elem_of_fst; eauto).
  destruct (Hold k i Hin Hk) as (a & inst0 & Hlast & _ & H0 & H').
  apply last_entry_Some in Hlast as (Ha & Hty & Hnm).
  destruct (Hsync a Ha Hty) as (_ & j & instj & c & Hj & Hij & Hc & Him).
  rewrite Hnm in Hj.
  assert (j = i).
  { destruct Htree as (Hkeys & _).
    eapply NoDup_fst_inj; [exact Hkeys | exact Hj | exact Hin]. }
  subst j. assert (instj = inst0) by congruence. subst instj.
  assert (Hlb : i ∈ map snd (avl (instances s)))
    by (apply elem_of_snd; eauto).
  destruct (svc_config s) as [c1|].
  - eexists inst0, _, c, a. split; [exact H0|].
    split; [apply freed_kept; [exact Hlb | exact Hlb | exact H']|].
    simpl. auto 10.
  - eexists inst0, _, c, a. split; [exact H0|]. split; [exact H'|].
    simpl. auto 10.
Qed.

Lemma world_v1_in_sync : in_sync world_v1 tree_v1 (blobmsg_attrs tbl_v1).
Proof.
  intros a Ha Hty. simpl in Ha. each_elem Ha.
  - split; [reflexivity|]. exists 1%positive. eexists _, _.
    split; [right; left|]. split; [reflexivity|]. split; reflexivity.
  - split; [reflexivity|]. exists 2%positive. eexists _, _.
    split; [left|]. split; [reflexivity|]. split; reflexivity.
Qed.

Lemma resubmission_is_quiet_witness :
  exists s' w' ev,
    service_update svc_v1 msg_set_v1
      (blobmsg_parse service_attrs (blobmsg_attrs msg_set_v1)) world_v1
      = Some ((0, s'), w') /\
    trace w' = trace world_v1 ++ ev /\
    (forall e, e ∈ ev ->
       (exists i q, e = CallUpdate i q) \/ (exists q, e = CallFree q)) /\
    avl (instances s') = avl (instances svc_v1) /\
    forall k i, (k, i) ∈ avl (instances svc_v1) ->
      exists inst0 inst c0 c,
        heap world_v1 !! i = Some inst0 /\ heap w' !! i = Some inst /\
        proc inst = proc inst0 /\ timeout inst = timeout inst0 /\
        restart inst = restart inst0 /\
        config inst0 = Some c0 /\ config inst = Some c /\
        blob_image c = blob_image c0 /\
        node_key inst = match svc_config svc_v1 with
                        | Some _ => None
                        | None => node_key inst0
                        end.
Proof.
  apply (resubmission_is_quiet world_v1 svc_v1 msg_set_v1 _
           attr_name_net tbl_v1).
  - reflexivity.
  - reflexivity.
  - apply world_v1_tree_ok.
  - apply world_v1_keys_ok.
  - apply world_v1_heap_ok.
  - constructor.
  - vm_compute. reflexivity.
  - decide_nodup.
  - intros k Hk. simpl in Hk.
    each_elem Hk; apply list_elem_of_In; vm_compute; auto.
  - apply world_v1_in_sync.
Defined.

(** X10: a set request for a new service can be repeated once.  After a
    valid, served set request with distinct instance names has registered
    a service, the same request again succeeds and starts, stops and
    signals nothing: it records only calls of [update_instance] and the
    release of the instances allocated for it, the service links the same
    instances at the same addresses, the registered names are the same
    and the same addresses are live.  The keys of the instances, readable
    after the first request, are left pointing into the copy of the first
    request, which the second one frees. *)
Theorem set_twice_is_quiet w msg cur tbl r w1 :
  registry_ok w -> no_oom w -> request_ok msg ->
  tb_at (blobmsg_parse service_attrs (blobmsg_attrs msg)) SERVICE_ATTR_NAME
    = Some cur ->
  tb_at (blobmsg_parse service_attrs (blobmsg_attrs msg))
    SERVICE_ATTR_INSTANCES = Some tbl ->
  NoDup (submitted (blobmsg_attrs tbl)) ->
  avl_find (services w) (blobmsg_data cur) = None ->
  service_handle_set msg w = Some (r, w1) ->
  exists w2 ev s1 s2,
    service_handle_set msg w1 = Some (UBUS_STATUS_OK, w2) /\
    trace w2 = trace w1 ++ ev /\
    (forall e, e ∈ ev ->
       (exists i q, e = CallUpdate i q) \/ (exists q, e = CallFree q)) /\
    avl_find (services w1) (blobmsg_data cur) = Some s1 /\
    avl_find (services w2) (blobmsg_data cur) = Some s2 /\
    avl (instances s2) = avl (instances s1) /\
    map fst (services w2) = map fst (services w1) /\
    (forall i, is_Some (heap w2 !! i) <-> is_Some (heap w1 !! i)) /\
    forall k i, (k, i) ∈ avl (instances s1) ->
      exists inst1 inst2,
        heap w1 !! i = Some inst1 /\ node_key inst1 = Some k /\
        heap w2 !! i = Some inst2 /\ node_key inst2 = None.
Proof.
  intros Hok Hoom Hreq Ename Einst Hnd Efind Hrun1.
  assert (Hv : version (tree_of w (blobmsg_data cur)) < INT_MAX).
  { unfold tree_of. rewrite Efind. vm_compute. reflexivity. }
  destruct (service_handle_set_run w msg cur Hok Hoom Hreq Ename Hv)
    as (w0 & t' & w1a & Hh0 & Hb0 & Ht0 & Hs0 & Hoom0 & Htree & Hrec & Hrun).
  { unfold tree_of. rewrite Efind. intros k i inst Hin. inversion Hin. }
  rewrite Einst in Hrec. unfold config_of, register in Hrun.
  rewrite Efind, freed_None in Hrun.
  rewrite Hrun in Hrun1. injection Hrun1 as <- <-.
  unfold tree_of in Hrec, Htree, Hv. rewrite Efind in Hrec, Htree, Hv.
  pose proof Hok as (Hheap & Hkeys & Hnodes & Htrees).
  assert (Hok0 : registry_ok w0) by (apply (registry_ok_ext w); assumption).
  assert (Hheap0 : heap_ok w0) by apply Hok0.
  assert (Hvalid : forall a, a ∈ blobmsg_attrs tbl ->
            blobmsg_type a = BLOBMSG_TYPE_TABLE -> blob_valid a = true).
  { intros a Ha. apply (Hreq tbl a Einst Ha). }
  destruct (reconcile_given w0 _ (blobmsg_attrs tbl) t' w1a Htree Hheap0
              Hoom0 Hv Hvalid Hrec)
    as (ev1 & _ & Hs1 & Hheap1 & Hoom1 & _ & Htree1 & Hver1 & Htracked & _ &
        _ & _ & Horigin & Hframe & _).
  destruct (reconcile_installs w0 _ (blobmsg_attrs tbl) Htree Hheap0 Hoom0
              Hvalid t' w1a Hrec) as (Hnew & _ & _).
  assert (Hinst1 : forall k i, (k, i) ∈ avl t' ->
            exists a, last_entry (blobmsg_attrs tbl) k = Some a /\
                      heap w1a !! i = Some (new_instance (version t') a)).
  { intros k i Hin. apply (Hnew k i Hin). simpl. apply not_elem_of_nil. }
  set (s1 := {| svc_name := Some (blobmsg_data cur); svc_config := Some msg;
                instances := t' |}) in *.
  match type of Hrun with
  | _ = Some (_, ?x) => set (w1 := x) in *
  end.
  assert (Hfind1 : avl_find (services w1) (blobmsg_data cur) = Some s1).
  { unfold w1. simpl. apply avl_find_insert_eq, avl_find_None, Efind. }
  assert (Hok1 : registry_ok w1).
  { apply (registry_ok_insert w0 _ (blobmsg_data cur) s1).
    - exact Hok0.
    - rewrite Hs0. apply avl_find_None, Efind.
    - unfold w1. simpl. rewrite Hs0. reflexivity.
    - exact Hheap1.
    - exact Htree1.
    - intros n i Hi. destruct (Horigin n i Hi) as [H | H];
        [inversion H | exact H].
    - intros i Hlt. apply Hframe; [|exact Hlt]. simpl. apply not_elem_of_nil. }
  assert (Hread1 : keys_ok w1 t').
  { intros k i inst Hin Hi. destruct (Hinst1 k i Hin) as (a & _ & Ha).
    change (heap w1) with (heap w1a) in Hi. rewrite Ha in Hi.
    injection Hi as <-. discriminate. }
  assert (Htree_of : tree_of w1 (blobmsg_data cur) = t').
  { unfold tree_of. rewrite Hfind1. reflexivity. }
  assert (Hv' : version (tree_of w1 (blobmsg_data cur)) < INT_MAX).
  { rewrite Htree_of, Hver1. vm_compute. reflexivity. }
  destruct (service_handle_set_run w1 msg cur Hok1 Hoom1 Hreq Ename Hv')
    as (w0b & t'' & w1b & Hhb & Hbb & Htb & Hsb & Hoomb & Htreeb & Hrecb &
        Hrunb).
  { rewrite Htree_of. exact Hread1. }
  rewrite Einst, Htree_of in Hrecb. rewrite Htree_of in Htreeb, Hv'.
  assert (Hheapb : heap_ok w0b).
  { intros i Hi. rewrite Hbb. rewrite Hhb in Hi. apply Hheap1, Hi. }
  assert (Hreadb : keys_ok w0b t') by (apply (keys_ok_ext w1); assumption).
  assert (Hsync : in_sync w0b t' (blobmsg_attrs tbl)).
  { intros a Ha Hty. split; [apply Hvalid; assumption|].
    assert (Hk : blobmsg_name a ∈ tracked t').
    { apply Htracked, elem_of_submitted. eauto. }
    apply elem_of_fst in Hk as [i Hin].
    destruct (Hinst1 _ _ Hin) as (a' & Hl & Hi).
    apply last_entry_Some in Hl as (Ha' & Hty' & Hn').
    assert (a' = a) by (eapply submitted_inj; eassumption). subst a'.
    exists i, (new_instance (version t') a), a. rewrite Hhb. auto. }
  destruct (reconcile_quiet w0b t' (blobmsg_attrs tbl) Htreeb Hreadb Hheapb
              Hoomb Hv' Hnd (fun k Hk => proj1 (Htracked k) Hk) Hsync)
    as (w' & ev & Hq & Htr & Hquiet).
  rewrite Hq in Hrecb. injection Hrecb as <- <-.
  destruct (reconcile_given w0b t' (blobmsg_attrs tbl) _ w' Htreeb Hheapb
              Hoomb Hv' Hvalid Hq)
    as (ev3 & _ & _ & _ & _ & _ & Htree3 & _ & _ & _ & _ & _ & _ & Hframe3 &
        _).
  destruct (reconcile_installs w0b t' (blobmsg_attrs tbl) Htreeb Hheapb Hoomb
              Hvalid _ w' Hq) as (_ & _ & Hlive3).
  eexists _, ev, s1, _. split; [exact Hrunb|].
  split; [simpl; rewrite freed_trace, Htr, Htb; reflexivity|].
  split; [apply quiet_events, Hquiet|].
  split; [exact Hfind1|].
  unfold register, config_of. rewrite Hfind1. simpl.
  split; [eapply avl_find_store_eq, Hfind1|].
  split; [reflexivity|].
  split; [apply avl_store_keys|].
  split.
  - intros i. rewrite dangle_lookup.
    change (heap w1) with (heap w1a) in Hhb. rewrite <- Hhb.
    assert (Hsame : is_Some (heap w' !! i) <-> is_Some (heap w0b !! i)).
    { destruct (decide (i ∈ map snd (avl t'))) as [Hin | Hout].
      - apply elem_of_snd in Hin as [k Hin]. split; intros _.
        + destruct Htreeb as (_ & _ & _ & _ & _ & Hl).
          destruct (Hl k i Hin) as (inst & Hi & _). rewrite Hi. eauto.
        + destruct Htree3 as (_ & _ & _ & _ & _ & Hl).
          destruct (Hl k i Hin) as (inst & Hi & _). rewrite Hi. eauto.
      - split; intros Hi.
        + destruct (Hlive3 i Hi) as [H | [_ H]]; [contradiction|].
          rewrite <- H. exact Hi.
        + rewrite (Hframe3 i Hout); [exact Hi|]. apply Hheapb, Hi. }
    rewrite <- Hsame.
    destruct (bool_decide _); [|reflexivity].
    rewrite is_Some_alt. destruct (heap w' !! i); simpl;
      rewrite is_Some_alt; reflexivity.
  - intros k i Hin. destruct (Hinst1 k i Hin) as (a & Hl & Hi).
    apply last_entry_Some in Hl as (_ & _ & Hnm).
    destruct Htree3 as (_ & _ & _ & _ & _ & Hl3).
    destruct (Hl3 k i Hin) as (inst3 & Hi3 & _).
    eexists _, _. split; [exact Hi|]. split; [simpl; congruence|].
    rewrite dangle_lookup, Htree_of.
    rewrite bool_decide_eq_true_2
      by (split; apply elem_of_snd; eauto).
    rewrite Hi3. simpl. split; reflexivity.
Qed.

Lemma set_twice_is_quiet_witness :
  exists w2 ev s1 s2,
    service_handle_set msg_set_v1 world_v1 = Some (UBUS_STATUS_OK, w2) /\
    trace w2 = trace world_v1 ++ ev /\
    (forall e, e ∈ ev ->
       (exists i q, e = CallUpdate i q) \/ (exists q, e = CallFree q)) /\
    avl_find (services world_v1) (blobmsg_data attr_name_net) = Some s1 /\
    avl_find (services w2) (blobmsg_data attr_name_net) = Some s2 /\
    avl (instances s2) = avl (instances s1) /\
    map fst (services w2) = map fst (services world_v1) /\
    (forall i, is_Some (heap w2 !! i) <-> is_Some (heap world_v1 !! i)) /\
    forall k i, (k, i) ∈ avl (instances s1) ->
      exists inst1 inst2,
        heap world_v1 !! i = Some inst1 /\ node_key inst1 = Some k /\
        heap w2 !! i = Some inst2 /\ node_key inst2 = None.
Proof.
  apply (set_twice_is_quiet (procd_init_service []) msg_set_v1
           attr_name_net tbl_v1 UBUS_STATUS_OK world_v1
           (registry_ok_init []) (Forall_nil_2 _) msg_set_v1_request_ok).
  - reflexivity.
  - reflexivity.
  - decide_nodup.
  - reflexivity.
  - apply set_v1_from_init.
Defined.

(** ** Requests without a usable name, and refused allocations *)

(** X11: a delete request that has no string attribute called "name"
    (none at all, or one of another type) is not rejected: it is answered
    with UBUS_STATUS_OK after every service was deleted; the registry is
    then empty and, when nothing had been leaked before, so is the heap. *)
Theorem delete_without_name_empties w msg :
  (forall a, a ∈ blobmsg_attrs msg ->
     ~ (blobmsg_type a = BLOBMSG_TYPE_STRING /\ blobmsg_name a = "name")) ->
  registry_ok w -> leak_free w ->
  exists w',
    service_handle_delete msg w = Some (UBUS_STATUS_OK, w') /\
    services w' = [] /\
    heap w' = ∅.
Proof.
  intros Hno Hok Hleak. pose proof Hok as (Hheap & Hkeys & Hnodes & Htrees).
  assert (Htb : tb_at (blobmsg_parse service_del_attrs (blobmsg_attrs msg))
                  SERVICE_ATTR_NAME = None).
  { rewrite blobmsg_parse_find. simpl. apply find_none_iff. intros a Ha.
    apply blobmsg_parsed_elem in Ha.
    destruct (policy_match _ a) eqn:E; [|reflexivity].
    apply policy_match_spec in E; [|discriminate].
    exfalso. apply (Hno a Ha). exact E. }
  destruct (delete_all_loop (services w) w eq_refl Hkeys Hnodes Htrees)
    as (w' & ev & Hloop & _ & Hs & _ & _ & Hh & Hgone & Hf).
  exists w'. split.
  { unfold service_handle_delete. rewrite Htb.
    unfold bind at 1 2, get_services at 1. rewrite Hloop. reflexivity. }
  split; [exact Hs|].
  apply map_eq. intros i. rewrite lookup_empty.
  destruct (heap w' !! i) as [inst|] eqn:E; [exfalso | reflexivity].
  destruct (Hh i) as [H | H]; [congruence|].
  assert (Hi : i ∈ all_nodes (services w)).
  { apply Hleak. rewrite <- H, E. eauto. }
  apply elem_of_all_nodes in Hi as (k & s & Hin & Hi).
  apply elem_of_snd in Hi as [n Hi].
  destruct (Hgone k s n i Hin Hi) as [E' _]. congruence.
Qed.

Lemma delete_without_name_empties_witness :
  exists w',
    service_handle_delete msg_del_table world_v1
      = Some (UBUS_STATUS_OK, w') /\
    services w' = [] /\
    heap w' = ∅.
Proof.
  apply (delete_without_name_empties world_v1 msg_del_table).
  - intros a Ha. simpl in Ha. each_elem Ha. intros [H _]. discriminate.
  - apply world_v1_registry_ok.
  - apply world_v1_leak_free.
Defined.

Lemma refused_loop t : forall attrs w rest,
  oom w = repeat true (List.length (submitted attrs)) ++ rest ->
  for_each attrs service_instance_add t w =
  Some (t, {| heap := heap w; brk := brk w; oom := rest; trace := trace w;
              services := services w |}).
Proof.
  induction attrs as [|a attrs IH]; intros w rest Hoom; simpl.
  - simpl in Hoom. destruct w. simpl in *. subst. reflexivity.
  - rewrite submitted_cons in Hoom. unfold bind at 1.
    unfold service_instance_add.
    destruct (blobmsg_type a =? BLOBMSG_TYPE_TABLE); simpl in *.
    + unfold bind, calloc_instance, bind, out_of_memory. rewrite Hoom.
      unfold ret. erewrite IH by reflexivity. reflexivity.
    + unfold ret. apply IH, Hoom.
Qed.

(** X12: an instance whose allocation is refused is skipped without a
    word, and [vlist_flush] then takes its name for dropped.  When every
    allocation for the submitted instances is refused, [service_update]
    still answers 0, and every instance of the service, resubmitted or
    not, receives [stop_instance] and [free_instance]; the service is
    left without instances. *)
Theorem refused_instances_are_dropped w s cfg tb cur tbl rest :
  tb_at tb SERVICE_ATTR_NAME = Some cur ->
  tb_at tb SERVICE_ATTR_INSTANCES = Some tbl ->
  tree_ok w (instances s) ->
  version (instances s) < INT_MAX ->
  oom w = repeat true (List.length (submitted (blobmsg_attrs tbl))) ++ rest ->
  exists s' w' ev,
    service_update s cfg tb w = Some ((0, s'), w') /\
    trace w' = trace w ++ ev /\
    oom w' = rest /\
    avl (instances s') = [] /\
    forall k i, (k, i) ∈ avl (instances s) ->
      heap w' !! i = None /\
      followed_by (CallStop i false) (CallFree i) ev.
Proof.
  intros Hname Hinst Htree Hmax Hoom.
  pose proof Htree as (Hkeys & Hptrs & Hv & Hkeep & Hnodel & Hnodes).
  set (t0 := set_version (version (instances s) + 1) (instances s)).
  pose proof (refused_loop t0 (blobmsg_attrs tbl) w rest Hoom) as Hloop.
  match type of Hloop with
  | _ = Some (_, ?x) => set (w2 := x) in *
  end.
  destruct (vlist_flush_loop t0 Hnodel (avl t0) [] w2)
    as (w' & ev & Hflush & Ht & _ & Ho & _ & _ & Hgone & _).
  { exact Hkeys. } { exact Hptrs. }
  { intros k i Hin. destruct (Hnodes k i Hin) as (inst & Hi & _).
    unfold w2. simpl. rewrite Hi. eauto. }
  change ([] ++ avl t0) with (avl t0) in Hflush.
  rewrite vlist_tree_eta in Hflush.
  assert (Hdrop : forall k i, (k, i) ∈ avl (instances s) ->
            keeps (heap w2) (version t0) i = false).
  { intros k i Hin. destruct (Hnodes k i Hin) as (inst & Hi & Hnv & _).
    unfold keeps, w2. simpl. rewrite Hi.
    rewrite (proj2 (Z.eqb_neq _ _)) by lia.
    rewrite (proj2 (Z.eqb_neq (node_version inst) (-1))) by lia.
    reflexivity. }
  eexists _, _, ev. split.
  { eapply service_update_reconcile; [exact Hname | exact Hinst|].
    unfold reconcile, vlist_update. apply Z.ltb_lt in Hmax. rewrite Hmax.
    unfold bind, ret. fold t0. rewrite Hloop. exact Hflush. }
  split; [rewrite freed_trace; exact Ht|].
  split; [rewrite freed_oom; exact Ho|]. split.
  - simpl.
    destruct (List.filter _ (avl (instances s))) as [|[k i] l] eqn:E;
      [reflexivity|].
    assert (Hin : (k, i) ∈ List.filter
                    (fun e => keeps (heap w2) (version t0) (snd e))
                    (avl (instances s))).
    { simpl. rewrite E. left. }
    apply elem_of_list_filter_bool in Hin as [Hin Hk].
    change (keeps (heap w2) (version t0) i = true) in Hk.
    rewrite (Hdrop k i Hin) in Hk. discriminate.
  - intros k i Hin. specialize (Hgone k i Hin).
    rewrite (Hdrop k i Hin) in Hgone. rewrite freed_gone. exact Hgone.
Qed.

Lemma refused_instances_are_dropped_witness :
  exists s' w' ev,
    service_update svc_v1 msg_set_v2
      (blobmsg_parse service_attrs (blobmsg_attrs msg_set_v2))
      world_v1_starved = Some ((0, s'), w') /\
    trace w' = trace world_v1_starved ++ ev /\
    oom w' = [] /\
    avl (instances s') = [] /\
    forall k i, (k, i) ∈ avl (instances svc_v1) ->
      heap w' !! i = None /\
      followed_by (CallStop i false) (CallFree i) ev.
Proof.
  apply (refused_instances_are_dropped world_v1_starved svc_v1 msg_set_v2 _
           attr_name_net tbl_v2 []).
  - reflexivity.
  - reflexivity.
  - apply (tree_ok_frame world_v1); [reflexivity | apply world_v1_tree_ok].
  - vm_compute. reflexivity.
  - reflexivity.
Defined.

(** X13: the comparison of two configurations is symmetric, and a
    configuration never differs from itself: [instance_config_changed]
    gives the same answer with its arguments exchanged, although it reads
    the length to compare from its first argument only. *)
Theorem config_comparison_is_symmetric w i j inst_i inst_j c_i c_j :
  heap w !! i = Some inst_i ->
  heap w !! j = Some inst_j ->
  config inst_i = Some c_i ->
  config inst_j = Some c_j ->
  blob_valid c_i = true ->
  blob_valid c_j = true ->
  exists changed,
    instance_config_changed i j w = Some (changed, w) /\
    instance_config_changed j i w = Some (changed, w) /\
    instance_config_changed i i w = Some (false, w).
Proof.
  intros Hi Hj Hci Hcj Hvi Hvj.
  destruct (instance_config_changed_run w i j _ _ _ _ Hi Hj Hci Hcj Hvi Hvj)
    as (b1 & Hr1 & Hb1).
  destruct (instance_config_changed_run w j i _ _ _ _ Hj Hi Hcj Hci Hvj Hvi)
    as (b2 & Hr2 & Hb2).
  destruct (instance_config_changed_run w i i _ _ _ _ Hi Hi Hci Hci Hvi Hvi)
    as (b3 & Hr3 & Hb3).
  exists b1. split; [exact Hr1|]. split.
  - rewrite Hr2. do 2 f_equal.
    destruct b1, b2; try reflexivity.
    + symmetry. apply Hb1. symmetry. apply Hb2. reflexivity.
    + apply Hb2. symmetry. apply Hb1. reflexivity.
  - rewrite Hr3. do 2 f_equal. apply Hb3. reflexivity.
Qed.

Lemma config_comparison_is_symmetric_witness :
  exists changed,
    instance_config_changed 1 4 world_v2 = Some (changed, world_v2) /\
    instance_config_changed 4 1 world_v2 = Some (changed, world_v2) /\
    instance_config_changed 1 1 world_v2 = Some (false, world_v2).
Proof.
  apply (config_comparison_is_symmetric world_v2 1 4
           (set_node_key None (new_instance 3 cfg_main_cmd_b))
           (new_instance 3 cfg_lan) cfg_main_cmd_b cfg_lan); reflexivity.
Defined.

(** ** Services do not disturb each other *)

(** X14: a set request touches the service it names and no other: every
    other registered service is found unchanged under its name
    afterwards, with the same tree, and each of its instances is exactly
    as before. *)
Theorem set_leaves_other_services_alone w msg r w' k2 s2 :
  registry_ok w -> no_oom w -> request_ok msg -> versions_below w ->
  service_handle_set msg w = Some (r, w') ->
  (k2, s2) ∈ services w ->
  (forall cur,
     tb_at (blobmsg_parse service_attrs (blobmsg_attrs msg))
       SERVICE_ATTR_NAME = Some cur -> blobmsg_data cur <> k2) ->
  avl_find (services w') k2 = Some s2 /\
  forall n i, (n, i) ∈ avl (instances s2) -> heap w' !! i = heap w !! i.
Proof.
  intros Hok Hoom Hreq Hver Hrun Hin2 Hother.
  pose proof Hok as (Hheap & Hkeys & Hnodes & Htrees).
  pose proof (avl_find_elem _ _ _ Hkeys Hin2) as Hfind2.
  destruct (tb_at (blobmsg_parse service_attrs (blobmsg_attrs msg))
              SERVICE_ATTR_NAME) as [cur|] eqn:Ename.
  2:{ destruct (out_of_memory_run w Hoom)
        as (w0 & Hrun0 & Hh0 & _ & _ & Hs0 & _).
      revert Hrun. unfold service_handle_set.
      erewrite bind_run by exact Hrun0. cbv zeta. rewrite Ename.
      intros [= _ <-]. rewrite Hh0, Hs0. auto. }
  specialize (Hother cur eq_refl).
  assert (Hv : version (tree_of w (blobmsg_data cur)) < INT_MAX).
  { unfold tree_of.
    destruct (avl_find (services w) (blobmsg_data cur)) as [s|] eqn:Efind.
    - apply (Hver (blobmsg_data cur) s), avl_find_Some, Efind.
    - vm_compute. reflexivity. }
  destruct (service_handle_set_cases w msg cur Hok Hoom Hreq Ename Hv)
    as [[Hnone _] | (w0 & t' & w1 & Hh0 & Hb0 & _ & Hs0 & Hoom0 & Htree &
                     Hrec & Hrun')]; [congruence|].
  rewrite Hrun' in Hrun. injection Hrun as _ <-.
  assert (Hheap0 : heap_ok w0).
  { intros i Hi. rewrite Hb0. apply Hheap. rewrite <- Hh0. exact Hi. }
  destruct (set_update_live w0 _ _ t' w1 Htree Hheap0 Hoom0 Hreq Hrec)
    as (_ & _ & _ & _ & Hframe & _).
  split.
  - simpl. unfold register.
    destruct (avl_find (services w) (blobmsg_data cur)).
    + rewrite avl_find_store_ne by congruence. exact Hfind2.
    + rewrite avl_find_insert_ne by congruence. exact Hfind2.
  - intros n i Hi.
    assert (Hout : i ∉ map snd (avl (tree_of w (blobmsg_data cur)))).
    { unfold tree_of.
      destruct (avl_find (services w) (blobmsg_data cur)) as [s|] eqn:Efind.
      * intros Hi'. apply avl_find_Some in Efind.
        apply (all_nodes_disjoint _ k2 s2 (blobmsg_data cur) s i Hnodes
                 Hin2 Efind); [congruence | | exact Hi'].
        apply elem_of_snd. eauto.
      * simpl. apply not_elem_of_nil. }
    cbn [heap set_services]. rewrite freed_frame by exact Hout.
    rewrite <- Hh0. apply Hframe; [exact Hout|].
    rewrite Hb0. apply (registry_nodes_below w i Hok).
    apply elem_of_all_nodes. exists k2, s2. split; [exact Hin2|].
    apply elem_of_snd. eauto.
Qed.

Example set_nope_after_v1 :
  service_handle_set msg_set_nope world_v1
  = Some (UBUS_STATUS_OK, world_v1_nope).
Proof. vm_compute. reflexivity. Qed.

Lemma msg_set_nope_request_ok : request_ok msg_set_nope.
Proof.
  intros tbl a Htbl Ha Hty.
  assert (E : tb_at (blobmsg_parse service_attrs (blobmsg_attrs msg_set_nope))
                SERVICE_ATTR_INSTANCES = Some tbl_v1)
    by (vm_compute; reflexivity).
  rewrite E in Htbl. injection Htbl as <-.
  simpl in Ha. each_elem Ha; reflexivity.
Qed.

Lemma set_leaves_other_services_alone_witness :
  avl_find (services world_v1_nope) "net" = Some svc_v1 /\
  forall n i, (n, i) ∈ avl (instances svc_v1) ->
    heap world_v1_nope !! i = heap world_v1 !! i.
Proof.
  apply (set_leaves_other_services_alone world_v1 msg_set_nope
           UBUS_STATUS_OK world_v1_nope "net" svc_v1
           world_v1_registry_ok world_v1_no_oom msg_set_nope_request_ok
           world_v1_versions_below set_nope_after_v1).
  - left.
  - intros cur Hcur.
    assert (E : tb_at (blobmsg_parse service_attrs
                         (blobmsg_attrs msg_set_nope)) SERVICE_ATTR_NAME
                = Some attr_name_nope) by (vm_compute; reflexivity).
    rewrite E in Hcur. injection Hcur as <-. discriminate.
Defined.

(** ** What [service_update] delivers, and what it frees

    The lemmas above are put together for any service: the calls of a
    reconciliation and the instances it leaves, the effect of a request
    without an instances table, and the request that reads a key left
    behind by either. *)

(** X15: when the keys of the tracked instances can be read,
    [service_update] with an instances table links exactly the submitted
    names.  An instance whose name was dropped receives [stop_instance]
    with [restart = false] and then [free_instance] and is gone; a new name
    gets a fresh instance that receives [start_instance] and whose key can
    be read; a name submitted again keeps its instance object at its
    address, with its process and timer handles, [update_instance] is
    called on it and the instance allocated for the request is freed
    again.  The key of every kept instance is left pointing into the old
    configuration, which the call frees. *)
Theorem update_delivers_the_diff w s cfg tb cur tbl :
  tb_at tb SERVICE_ATTR_NAME = Some cur ->
  tb_at tb SERVICE_ATTR_INSTANCES = Some tbl ->
  tree_ok w (instances s) -> keys_ok w (instances s) ->
  heap_ok w -> no_oom w ->
  version (instances s) < INT_MAX ->
  (forall a, a ∈ blobmsg_attrs tbl ->
     blobmsg_type a = BLOBMSG_TYPE_TABLE -> blob_valid a = true) ->
  exists s' w' ev,
    service_update s cfg tb w = Some ((0, s'), w') /\
    trace w' = trace w ++ ev /\
    (forall k, k ∈ tracked (instances s') <->
               k ∈ submitted (blobmsg_attrs tbl)) /\
    (forall k i, (k, i) ∈ avl (instances s) ->
       k ∉ submitted (blobmsg_attrs tbl) ->
       followed_by (CallStop i false) (CallFree i) ev /\
       heap w' !! i = None) /\
    (forall k, k ∈ submitted (blobmsg_attrs tbl) ->
       k ∉ tracked (instances s) ->
       exists i inst,
         (k, i) ∈ avl (instances s') /\ heap w !! i = None /\
         CallStart i ∈ ev /\
         heap w' !! i = Some inst /\ node_key inst = Some k) /\
    (forall k i, (k, i) ∈ avl (instances s) ->
       k ∈ submitted (blobmsg_attrs tbl) ->
       (k, i) ∈ avl (instances s') /\
       (forall j, (k, j) ∈ avl (instances s') -> j = i) /\
       (exists q, followed_by (CallUpdate i q) (CallFree q) ev /\
                  heap w !! q = None /\ heap w' !! q = None) /\
       exists inst0 inst,
         heap w !! i = Some inst0 /\ heap w' !! i = Some inst /\
         proc inst = proc inst0 /\ timeout inst = timeout inst0 /\
         restart inst = restart inst0 /\
         node_key inst = match svc_config s with
                         | Some _ => None
                         | None => node_key inst0
                         end).
Proof.
  intros Hname Hinst Htree Hread Hheap Hoom Hmax Hvalid.
  destruct (reconcile_run w (instances s) (blobmsg_attrs tbl)
              Htree Hheap Hoom Hmax Hread Hvalid)
    as (t' & w1 & ev & Hrun & Ht & _ & _ & _ & _ & Htree' & _ &
        Hset & Hgone & Hnew & Hkept & _ & _ & Hkey & Hsame).
  eexists _, _, ev. split.
  { eapply service_update_reconcile; eassumption. }
  split; [rewrite freed_trace; exact Ht|]. simpl.
  split; [exact Hset|].
  split.
  { intros k i Hin Hk. destruct (Hgone k i Hin Hk) as [H1 H2].
    split; [exact H2|]. rewrite freed_gone. exact H1. }
  split.
  { intros k Hk Hnk. destruct (Hnew k Hk Hnk) as (i & Hin & Hnone & Hstart).
    destruct Htree' as (_ & _ & _ & _ & _ & Hlive').
    destruct (Hlive' k i Hin) as (inst & Hi & _).
    exists i, inst. do 3 (split; [assumption|]). split.
    - rewrite freed_frame; [exact Hi|].
      intros Hlb. apply elem_of_snd in Hlb as [k' Hlb].
      destruct Htree as (_ & _ & _ & _ & _ & Hlive).
      destruct (Hlive k' i Hlb) as (x & Hx & _). congruence.
    - destruct (Hkey k i inst Hin Hi) as [E | (inst0 & Hin0 & _)];
        [exact E|].
      exfalso. apply Hnk. apply elem_of_fst. eauto. }
  intros k i Hin Hk.
  destruct (Hkept k i Hin Hk)
    as (H1 & (q & Hq & Hq0 & Hq1) & inst0 & inst & H0 & Hi & Hp & Hto & Hr).
  split; [exact H1|]. split.
  { intros j Hj. destruct Htree' as (Hnd & _).
    eapply NoDup_fst_inj; eassumption. }
  split.
  { exists q. split; [exact Hq|]. split; [exact Hq0|].
    rewrite freed_gone. exact Hq1. }
  assert (Hlb : i ∈ map snd (avl (instances s)))
    by (apply elem_of_snd; eauto).
  assert (Hnodes : i ∈ map snd (avl t')) by (apply elem_of_snd; eauto).
  pose proof (Hsame k i inst0 inst Hin H0 Hi) as Hk0.
  destruct (svc_config s) as [c|].
  - exists inst0, (leave_dangling true inst). split; [exact H0|].
    split; [apply freed_kept; assumption|].
    destruct inst; simpl in *. auto.
  - exists inst0, inst. auto 10.
Qed.

Lemma update_delivers_the_diff_witness :
  exists s' w' ev,
    service_update svc_v1 msg_set_v2
      (blobmsg_parse service_attrs (blobmsg_attrs msg_set_v2)) world_v1
      = Some ((0, s'), w') /\
    trace w' = trace world_v1 ++ ev /\
    (forall k, k ∈ tracked (instances s') <->
               k ∈ submitted (blobmsg_attrs tbl_v2)) /\
    (forall k i, (k, i) ∈ avl (instances svc_v1) ->
       k ∉ submitted (blobmsg_attrs tbl_v2) ->
       followed_by (CallStop i false) (CallFree i) ev /\
       heap w' !! i = None) /\
    (forall k, k ∈ submitted (blobmsg_attrs tbl_v2) ->
       k ∉ tracked (instances svc_v1) ->
       exists i inst,
         (k, i) ∈ avl (instances s') /\ heap world_v1 !! i = None /\
         CallStart i ∈ ev /\
         heap w' !! i = Some inst /\ node_key inst = Some k) /\
    (forall k i, (k, i) ∈ avl (instances svc_v1) ->
       k ∈ submitted (blobmsg_attrs tbl_v2) ->
       (k, i) ∈ avl (instances s') /\
       (forall j, (k, j) ∈ avl (instances s') -> j = i) /\
       (exists q, followed_by (CallUpdate i q) (CallFree q) ev /\
                  heap world_v1 !! q = None /\ heap w' !! q = None) /\
       exists inst0 inst,
         heap world_v1 !! i = Some inst0 /\ heap w' !! i = Some inst /\
         proc inst = proc inst0 /\ timeout inst = timeout inst0 /\
         restart inst = restart inst0 /\
         node_key inst = match svc_config svc_v1 with
                         | Some _ => None
                         | None => node_key inst0
                         end).
Proof.
  apply (update_delivers_the_diff world_v1 svc_v1 msg_set_v2 _
           attr_name_net tbl_v2).
  - reflexivity.
  - reflexivity.
  - apply world_v1_tree_ok.
  - apply world_v1_keys_ok.
  - apply world_v1_heap_ok.
  - apply world_v1_no_oom.
  - vm_compute. reflexivity.
  - apply tbl_v2_valid.
Defined.

(** X16: a set request without an instances table for a registered
    service that has a configuration is answered with UBUS_STATUS_OK and
    calls no instance operation; the service keeps its tree under the new
    configuration.  Every instance of the service is left with its key and
    its configuration pointing into the old configuration, which the
    request frees, and is otherwise as it was; every other object is
    untouched. *)
Theorem set_without_instances_frees_configs w msg cur s c :
  registry_ok w -> no_oom w ->
  tb_at (blobmsg_parse service_attrs (blobmsg_attrs msg)) SERVICE_ATTR_NAME
    = Some cur ->
  tb_at (blobmsg_parse service_attrs (blobmsg_attrs msg))
    SERVICE_ATTR_INSTANCES = None ->
  avl_find (services w) (blobmsg_data cur) = Some s ->
  svc_config s = Some c ->
  exists w',
    service_handle_set msg w = Some (UBUS_STATUS_OK, w') /\
    trace w' = trace w /\
    avl_find (services w') (blobmsg_data cur) =
      Some {| svc_name := Some (blobmsg_data cur); svc_config := Some msg;
              instances := instances s |} /\
    (forall k i, (k, i) ∈ avl (instances s) ->
       exists inst0,
         heap w !! i = Some inst0 /\
         heap w' !! i = Some (leave_dangling false inst0)) /\
    (forall i, i ∉ map snd (avl (instances s)) ->
       heap w' !! i = heap w !! i).
Proof.
  intros Hok Hoom Ename Einst Efind Hcfg.
  destruct (out_of_memory_run w Hoom)
    as (w0 & Hrun0 & Hh0 & Hb0 & Ht0 & Hs0 & Hoom0).
  pose proof Hok as (Hheap & Hkeys & Hnodes & Htrees).
  eexists. split.
  { unfold service_handle_set. erewrite bind_run by exact Hrun0.
    cbv beta iota zeta. rewrite Ename.
    unfold bind at 1, get_services at 1. rewrite Hs0, Efind.
    erewrite bind_run by (eapply service_update_plain; eassumption).
    unfold bind, get_services, put_services, ret. simpl.
    rewrite freed_services, Hs0. reflexivity. }
  cbn [trace heap services set_services].
  split; [rewrite freed_trace; exact Ht0|].
  split; [eapply avl_find_store_eq, Efind|].
  rewrite Hcfg. split.
  - intros k i Hin.
    destruct (Htrees _ _ (avl_find_Some _ _ _ Efind))
      as (_ & _ & _ & _ & _ & Hlive).
    destruct (Hlive k i Hin) as (inst0 & Hi & _).
    exists inst0. split; [exact Hi|].
    apply freed_kept; [apply elem_of_snd; eauto..|].
    rewrite Hh0. exact Hi.
  - intros i Hi. rewrite freed_frame by exact Hi. rewrite Hh0. reflexivity.
Qed.

Lemma set_without_instances_frees_configs_witness :
  exists w',
    service_handle_set msg_set_plain world_v1 = Some (UBUS_STATUS_OK, w') /\
    trace w' = trace world_v1 /\
    avl_find (services w') (blobmsg_data attr_name_net) =
      Some {| svc_name := Some (blobmsg_data attr_name_net);
              svc_config := Some msg_set_plain;
              instances := instances svc_v1 |} /\
    (forall k i, (k, i) ∈ avl (instances svc_v1) ->
       exists inst0,
         heap world_v1 !! i = Some inst0 /\
         heap w' !! i = Some (leave_dangling false inst0)) /\
    (forall i, i ∉ map snd (avl (instances svc_v1)) ->
       heap w' !! i = heap world_v1 !! i).
Proof.
  apply (set_without_instances_frees_configs world_v1 msg_set_plain
           attr_name_net svc_v1 msg_set_v1 world_v1_registry_ok
           world_v1_no_oom); reflexivity.
Defined.

(** The loop over the submitted entries stops at an entry whose name is
    tracked under a key that cannot be read. *)
Lemma adding_loop_dangling w0 t0 a i inst0 rest : forall done w t ev,
  adding w0 t0 done w t ev ->
  (forall x, x ∈ rest -> blobmsg_type x = BLOBMSG_TYPE_TABLE ->
     blob_valid x = true) ->
  a ∈ rest -> blobmsg_type a = BLOBMSG_TYPE_TABLE ->
  (blobmsg_name a, i) ∈ avl t0 ->
  heap w0 !! i = Some inst0 -> node_key inst0 = None ->
  for_each rest service_instance_add t w = None.
Proof.
  induction rest as [|x rest IH]; intros done w t ev A Hva Ha Hty Hin H0 Hkey.
  { inversion Ha. }
  simpl. apply elem_of_cons in Ha as [Heq | Ha].
  - subst x. apply bind_undefined.
    pose proof (ad_old _ _ _ _ _ _ A _ _ Hin) as Hold.
    destruct (ad_live _ _ _ _ _ _ A _ _ Hold) as (inst & Hi & _).
    apply (service_instance_add_dangling w t a i inst Hty).
    + apply no_oom_hd, (ad_oom _ _ _ _ _ _ A).
    + apply (ad_heap _ _ _ _ _ _ A).
    + apply avl_find_elem; [apply (ad_keys _ _ _ _ _ _ A) | exact Hold].
    + exact Hi.
    + rewrite (ad_same_key _ _ _ _ _ _ A _ _ _ _ Hin H0 Hi). exact Hkey.
  - destruct (adding_step_cases w0 t0 done w t ev x A)
      as [[Hnone _] | (t1 & w1 & ev1 & Hrun & A1)].
    { apply Hva. left. }
    { apply bind_undefined, Hnone. }
    unfold bind. rewrite Hrun.
    apply (IH (done ++ [x]) w1 t1 ev1 A1); try assumption.
    intros y Hy. apply Hva. right. exact Hy.
Qed.

Lemma reconcile_dangling w t attrs a i inst :
  tree_ok w t -> heap_ok w -> no_oom w ->
  (forall x, x ∈ attrs -> blobmsg_type x = BLOBMSG_TYPE_TABLE ->
     blob_valid x = true) ->
  a ∈ attrs -> blobmsg_type a = BLOBMSG_TYPE_TABLE ->
  avl_find (avl t) (blobmsg_name a) = Some i ->
  heap w !! i = Some inst -> node_key inst = None ->
  reconcile t attrs w = None.
Proof.
  intros Htree Hheap Hoom Hva Ha Hty Hfind Hi Hkey.
  unfold reconcile, vlist_update.
  destruct (version t <? INT_MAX); [|reflexivity].
  unfold bind, ret.
  rewrite (adding_loop_dangling w (set_version (version t + 1) t) a i inst
             attrs [] w _ [] (adding_start w t Htree Hheap Hoom) Hva Ha Hty
             (avl_find_Some _ _ _ Hfind) Hi Hkey).
  reflexivity.
Qed.

(** X17: a key left behind is read.  A valid set request whose instances
    table submits a name that the service tracks under a key that can no
    longer be read has no defined result: [vlist_add] finds the node and
    the comparison of [avl_find] reads its key. *)
Theorem dangling_key_is_read w msg cur tbl s a i inst :
  registry_ok w -> no_oom w -> request_ok msg ->
  tb_at (blobmsg_parse service_attrs (blobmsg_attrs msg)) SERVICE_ATTR_NAME
    = Some cur ->
  tb_at (blobmsg_parse service_attrs (blobmsg_attrs msg))
    SERVICE_ATTR_INSTANCES = Some tbl ->
  avl_find (services w) (blobmsg_data cur) = Some s ->
  a ∈ blobmsg_attrs tbl -> blobmsg_type a = BLOBMSG_TYPE_TABLE ->
  avl_find (avl (instances s)) (blobmsg_name a) = Some i ->
  heap w !! i = Some inst -> node_key inst = None ->
  service_handle_set msg w = None.
Proof.
  intros Hok Hoom Hreq Ename Einst Efind Ha Hty Hfind Hi Hkey.
  destruct (out_of_memory_run w Hoom)
    as (w0 & Hrun0 & Hh0 & Hb0 & Ht0 & Hs0 & Hoom0).
  assert (Hok0 : registry_ok w0) by (apply (registry_ok_ext w); assumption).
  pose proof Hok0 as (Hheap0 & _ & _ & Htrees0).
  unfold service_handle_set. erewrite bind_run by exact Hrun0.
  cbv beta iota zeta. rewrite Ename.
  unfold bind at 1, get_services at 1. rewrite Hs0, Efind.
  apply bind_undefined.
  eapply service_update_undefined; [exact Ename | exact Einst|].
  apply (reconcile_dangling w0 (instances s) (blobmsg_attrs tbl) a i inst);
    try assumption.
  - apply (Htrees0 (blobmsg_data cur)). rewrite Hs0.
    apply avl_find_Some, Efind.
  - intros x Hx. apply (Hreq tbl x Einst Hx).
  - rewrite Hh0. exact Hi.
Qed.

Lemma world_v2_heap_ok : heap_ok world_v2.
Proof.
  intros i [x Hx]. simpl in *.
  destruct (decide (i = 1%positive)) as [-> | H1]; [lia|].
  rewrite lookup_insert_ne in Hx by congruence.
  destruct (decide (i = 4%positive)) as [-> | H2]; [lia|].
  rewrite lookup_insert_ne in Hx by congruence.
  rewrite lookup_empty in Hx. discriminate.
Qed.

Lemma world_v2_tree_ok : tree_ok world_v2 tree_v2.
Proof.
  split; [decide_nodup|]. split; [decide_nodup|].
  split; [simpl; lia|]. split; [reflexivity|]. split; [reflexivity|].
  intros k i Hin. simpl in Hin. each_elem Hin.
  - eexists. split; [reflexivity|]. split; [simpl; lia | reflexivity].
  - eexists. split; [reflexivity|]. split; [simpl; lia | reflexivity].
Qed.

Lemma world_v2_registry_ok : registry_ok world_v2.
Proof.
  split; [apply world_v2_heap_ok|]. split; [decide_nodup|].
  split; [decide_nodup|].
  intros k s Hin. simpl in Hin. each_elem Hin. apply world_v2_tree_ok.
Qed.

Lemma dangling_key_is_read_witness :
  reachable world_v2 /\
  service_handle_set msg_set_v2 world_v2 = None.
Proof.
  split; [exact world_v2_reachable|].
  apply (dangling_key_is_read world_v2 msg_set_v2 attr_name_net tbl_v2
           svc_v2 cfg_main_cmd_b 1
           (set_node_key None (new_instance 3 cfg_main_cmd_b))
           world_v2_registry_ok (Forall_nil_2 _) msg_set_v2_request_ok);
    try reflexivity.
  apply list_elem_of_In. vm_compute. auto.
Defined.
